(** * simple_calculator: the whitelist evaluator of arithmetic expressions

    A shallow embedding of [src/simple_calculator.py].  The module walks the
    syntax tree that the interpreter's [ast.parse] builds and applies the
    functions of the [operator] module to Python numbers.  The embedding has
    three layers:

    - Python's numbers (unbounded [int] as [Z], [float] as IEEE binary64 in
      the Standard Library's [spec_float], [complex] as a pair of floats) and
      the functions of the [operator] module the tables of the source map
      to, as CPython's [int] and [float] types implement them;
    - the syntax tree of the [ast] module and the class [SafeEvaluator];
    - the entry point [evaluate_expression].

    The rest of the module is a program for the terminal, with a menu and
    two modes ([main], [_guided_loop], [_expression_loop] and the functions
    they call); it and the demonstration of [src/examples.py] are embedded
    after the evaluator, as functions of a console that holds what [input]
    will read and what [print] has written.

    What the interpreter takes from outside of Python (the C math library
    behind [float.__pow__], complex arithmetic, and the parser [ast.parse])
    is a parameter of the definitions.  Where a statement needs a parser
    that runs, it is the one section 4.1 of the specification describes
    ([Grammar.parse]).  The limits of the interpreter's resources (depth of
    recursion, memory) are not part of the model: a tree is evaluated to
    its end. *)

From Stdlib Require Import ZArith List String Ascii Bool Lia QArith Qround.
From Stdlib Require Import Floats.SpecFloat.
Import ListNotations.

Open Scope string_scope.
Open Scope Z_scope.

Set Warnings "-register-all".

(** ** Exceptions and results *)

(** The exception classes that reach the caller.  [ValueError] carries its
    message: the module tells its own failures apart by message only. *)
Inductive exc : Type :=
| ValueError (message : string)
| ZeroDivisionError
| OverflowError
| TypeError
| SyntaxError
| IndentationError
| TabError
| MemoryError
| RecursionError.

(** [except SyntaxError] also catches the subclasses of [SyntaxError]. *)
Definition isinstance_SyntaxError (e : exc) : bool :=
  match e with
  | SyntaxError | IndentationError | TabError => true
  | _ => false
  end.

Inductive result (A : Type) : Type :=
| Return (a : A)
| Raise (e : exc).

Arguments Return {A} a.
Arguments Raise {A} e.

Definition bind {A B : Type} (r : result A) (k : A -> result B) : result B :=
  match r with
  | Return a => k a
  | Raise e => Raise e
  end.

Notation "x <- r ;; k" := (bind r (fun x => k))
  (at level 61, r at next level, right associativity).

(** ** Python numbers *)

(** IEEE binary64: 53 bits of precision, exponents below 1024. *)
Definition prec : Z := 53.
Definition emax : Z := 1024.

Inductive pyvalue : Type :=
| PyInt (z : Z)
| PyFloat (f : spec_float)
| PyComplex (re im : spec_float).

Definition fzero : spec_float := S754_zero false.
Definition fone : spec_float := S754_finite false 4503599627370496 (-52).
Definition fhalf : spec_float := S754_finite false 4503599627370496 (-53).

Definition is_zero (x : spec_float) : bool :=
  match x with S754_zero _ => true | _ => false end.

Definition is_nan (x : spec_float) : bool :=
  match x with S754_nan => true | _ => false end.

Definition is_inf (x : spec_float) : bool :=
  match x with S754_infinity _ => true | _ => false end.

Definition signbit (x : spec_float) : bool :=
  match x with
  | S754_zero s | S754_infinity s | S754_finite s _ _ => s
  | S754_nan => false
  end.

(** [copysign(0.0, y)]. *)
Definition copysign_zero (y : spec_float) : spec_float := S754_zero (signbit y).

(** C's [floor]: exact on binary64. *)
Definition SFfloor (x : spec_float) : spec_float :=
  match x with
  | S754_finite s m e =>
      if e <? 0
      then binary_normalize prec emax (Z.shiftr (cond_Zopp s (Z.pos m)) (- e)) 0 s
      else x
  | _ => x
  end.

(** C's [fmod]: the exact remainder of the truncated quotient, with the
    sign of [x]. *)
Definition SFfmod (x y : spec_float) : spec_float :=
  match x, y with
  | S754_nan, _ | _, S754_nan => S754_nan
  | S754_infinity _, _ => S754_nan
  | _, S754_zero _ => S754_nan
  | _, S754_infinity _ => x
  | S754_zero _, _ => x
  | S754_finite sx mx ex, S754_finite _ my ey =>
      let e := Z.min ex ey in
      let r := Z.rem (Z.pos mx * 2 ^ (ex - e)) (Z.pos my * 2 ^ (ey - e)) in
      binary_normalize prec emax (cond_Zopp sx r) e sx
  end.

(** [x == floor(x)] for a finite [x]. *)
Definition is_integral (x : spec_float) : bool :=
  match x with
  | S754_finite _ m e => (0 <=? e) || (Z.pos m mod 2 ^ (- e) =? 0)
  | _ => true
  end.

(** floatobject.c: [#define DOUBLE_IS_ODD_INTEGER(x) (fmod(fabs(x), 2.0) == 1.0)]. *)
Definition DOUBLE_IS_ODD_INTEGER (x : spec_float) : bool :=
  match x with
  | S754_finite _ m e =>
      if e <? 0
      then (Z.pos m mod 2 ^ (- e) =? 0) && Z.odd (Z.pos m / 2 ^ (- e))
      else (e =? 0) && Z.odd (Z.pos m)
  | _ => false
  end.

(** An integer as an exact float with a mantissa of any size: the operand
    form of a correctly rounded operation. *)
Definition Z2SF (z : Z) : spec_float :=
  match z with
  | Z0 => S754_zero false
  | Zpos p => S754_finite false p 0
  | Zneg p => S754_finite true p 0
  end.

(** [PyLong_AsDouble]: the nearest float, ties to even; an [int] beyond the
    range of floats raises [OverflowError]. *)
Definition PyLong_AsDouble (z : Z) : result spec_float :=
  match binary_normalize prec emax z 0 false with
  | S754_infinity _ => Raise OverflowError
  | f => Return f
  end.

(** floatobject.c: [CONVERT_TO_DOUBLE], for the left or the right operand of
    a float operation.  A complex operand never gets here: the dispatch
    below hands it to complex arithmetic first. *)
Definition CONVERT_TO_DOUBLE (v : pyvalue) : result spec_float :=
  match v with
  | PyInt z => PyLong_AsDouble z
  | PyFloat f => Return f
  | PyComplex _ _ => Raise TypeError
  end.

(** *** The C library under the interpreter *)

Inductive errno : Type := ENONE | ERANGE | EDOM.

(** What CPython computes with the platform's C library: [pow] of math.h
    with the [errno] it leaves, and the arithmetic of [complex] objects
    (complexobject.c calls [hypot], [atan2], [pow], [sin], [cos]).
    [complex_arith op v w] is the complex operation [op] on the operands
    [v] and [w], of which one is complex, or which [float.__pow__] passes on
    ([nb_power] of [complex]); it yields a complex number or raises. *)
Record MathLib : Type := {
  libm_pow : spec_float -> spec_float -> spec_float * errno;
  complex_arith_add : pyvalue -> pyvalue -> result (spec_float * spec_float);
  complex_arith_sub : pyvalue -> pyvalue -> result (spec_float * spec_float);
  complex_arith_mul : pyvalue -> pyvalue -> result (spec_float * spec_float);
  complex_arith_div : pyvalue -> pyvalue -> result (spec_float * spec_float);
  complex_arith_pow : pyvalue -> pyvalue -> result (spec_float * spec_float)
}.

Definition as_complex (r : result (spec_float * spec_float)) : result pyvalue :=
  c <- r ;; Return (PyComplex (fst c) (snd c)).

(** pymath.h: [_Py_ADJUST_ERANGE1]. *)
Definition _Py_ADJUST_ERANGE1 (x : spec_float) (e : errno) : errno :=
  match e with
  | ENONE => if is_inf x then ERANGE else ENONE
  | ERANGE => if is_zero x then ENONE else ERANGE
  | EDOM => EDOM
  end.

Section Operators.

Context (M : MathLib).

(** *** [float] operations (floatobject.c) *)

Definition float_add (v w : pyvalue) : result pyvalue :=
  a <- CONVERT_TO_DOUBLE v ;; b <- CONVERT_TO_DOUBLE w ;;
  Return (PyFloat (SFadd prec emax a b)).

Definition float_sub (v w : pyvalue) : result pyvalue :=
  a <- CONVERT_TO_DOUBLE v ;; b <- CONVERT_TO_DOUBLE w ;;
  Return (PyFloat (SFsub prec emax a b)).

Definition float_mul (v w : pyvalue) : result pyvalue :=
  a <- CONVERT_TO_DOUBLE v ;; b <- CONVERT_TO_DOUBLE w ;;
  Return (PyFloat (SFmul prec emax a b)).

Definition float_div (v w : pyvalue) : result pyvalue :=
  a <- CONVERT_TO_DOUBLE v ;; b <- CONVERT_TO_DOUBLE w ;;
  if is_zero b then Raise ZeroDivisionError
  else Return (PyFloat (SFdiv prec emax a b)).

Definition float_rem (v w : pyvalue) : result pyvalue :=
  vx <- CONVERT_TO_DOUBLE v ;; wx <- CONVERT_TO_DOUBLE w ;;
  if is_zero wx then Raise ZeroDivisionError
  else
    let mod_ := SFfmod vx wx in
    Return (PyFloat
      (if is_zero mod_ then copysign_zero wx
       else if negb (Bool.eqb (SFltb wx fzero) (SFltb mod_ fzero))
            then SFadd prec emax mod_ wx
            else mod_)).

(** [_float_div_mod], the quotient half. *)
Definition float_floor_div (v w : pyvalue) : result pyvalue :=
  vx <- CONVERT_TO_DOUBLE v ;; wx <- CONVERT_TO_DOUBLE w ;;
  if is_zero wx then Raise ZeroDivisionError
  else
    let mod_ := SFfmod vx wx in
    let div := SFdiv prec emax (SFsub prec emax vx mod_) wx in
    let div :=
      if negb (is_zero mod_) && negb (Bool.eqb (SFltb wx fzero) (SFltb mod_ fzero))
      then SFsub prec emax div fone
      else div in
    Return (PyFloat
      (if is_zero div then copysign_zero (SFdiv prec emax vx wx)
       else
         let floordiv := SFfloor div in
         if SFltb fhalf (SFsub prec emax div floordiv)
         then SFadd prec emax floordiv fone
         else floordiv)).

Definition float_pow (v w : pyvalue) : result pyvalue :=
  iv <- CONVERT_TO_DOUBLE v ;; iw <- CONVERT_TO_DOUBLE w ;;
  if is_zero iw then Return (PyFloat fone)
  else if is_nan iv then Return (PyFloat iv)
  else if is_nan iw then Return (PyFloat (if SFeqb iv fone then fone else iw))
  else if is_inf iw then
    let iv := SFabs iv in
    if SFeqb iv fone then Return (PyFloat fone)
    else if Bool.eqb (SFltb fzero iw) (SFltb fone iv)
         then Return (PyFloat (SFabs iw))
         else Return (PyFloat fzero)
  else if is_inf iv then
    let iw_is_odd := DOUBLE_IS_ODD_INTEGER iw in
    if SFltb fzero iw
    then Return (PyFloat (if iw_is_odd then iv else SFabs iv))
    else Return (PyFloat (if iw_is_odd then copysign_zero iv else fzero))
  else if is_zero iv then
    if SFltb iw fzero then Raise ZeroDivisionError
    else Return (PyFloat (if DOUBLE_IS_ODD_INTEGER iw then iv else fzero))
  else if SFltb iv fzero && negb (is_integral iw)
  then as_complex (complex_arith_pow M v w)
  else
    let negate_result := SFltb iv fzero && DOUBLE_IS_ODD_INTEGER iw in
    let iv := SFabs iv in
    if SFeqb iv fone
    then Return (PyFloat (if negate_result then SFopp fone else fone))
    else
      let (ix, e) := libm_pow M iv iw in
      match _Py_ADJUST_ERANGE1 ix e with
      | ENONE => Return (PyFloat (if negate_result then SFopp ix else ix))
      | ERANGE => Raise OverflowError
      | EDOM => Raise (ValueError "[Errno 33] Numerical argument out of domain")
      end.

(** *** [int] operations (longobject.c) *)

(** [long_true_divide]: the exact quotient rounded once to the nearest
    float; [OverflowError] when it is beyond the range of floats. *)
Definition long_true_divide (a b : Z) : result pyvalue :=
  if b =? 0 then Raise ZeroDivisionError
  else
    match SFdiv prec emax (Z2SF a) (Z2SF b) with
    | S754_infinity _ => Raise OverflowError
    | f => Return (PyFloat f)
    end.

Definition long_floor_div (a b : Z) : result pyvalue :=
  if b =? 0 then Raise ZeroDivisionError else Return (PyInt (a / b)).

Definition long_mod (a b : Z) : result pyvalue :=
  if b =? 0 then Raise ZeroDivisionError else Return (PyInt (a mod b)).

(** [long_pow] with no modulus: a negative exponent goes to [float_pow]. *)
Definition long_pow (a b : Z) : result pyvalue :=
  if b <? 0 then float_pow (PyInt a) (PyInt b) else Return (PyInt (a ^ b)).

(** *** The functions of the [operator] module *)

Definition operator_add (a b : pyvalue) : result pyvalue :=
  match a, b with
  | PyInt x, PyInt y => Return (PyInt (x + y))
  | PyComplex _ _, _ | _, PyComplex _ _ => as_complex (complex_arith_add M a b)
  | _, _ => float_add a b
  end.

Definition operator_sub (a b : pyvalue) : result pyvalue :=
  match a, b with
  | PyInt x, PyInt y => Return (PyInt (x - y))
  | PyComplex _ _, _ | _, PyComplex _ _ => as_complex (complex_arith_sub M a b)
  | _, _ => float_sub a b
  end.

Definition operator_mul (a b : pyvalue) : result pyvalue :=
  match a, b with
  | PyInt x, PyInt y => Return (PyInt (x * y))
  | PyComplex _ _, _ | _, PyComplex _ _ => as_complex (complex_arith_mul M a b)
  | _, _ => float_mul a b
  end.

Definition operator_truediv (a b : pyvalue) : result pyvalue :=
  match a, b with
  | PyInt x, PyInt y => long_true_divide x y
  | PyComplex _ _, _ | _, PyComplex _ _ => as_complex (complex_arith_div M a b)
  | _, _ => float_div a b
  end.

(** [complex] has neither [//] nor [%]. *)
Definition operator_floordiv (a b : pyvalue) : result pyvalue :=
  match a, b with
  | PyInt x, PyInt y => long_floor_div x y
  | PyComplex _ _, _ | _, PyComplex _ _ => Raise TypeError
  | _, _ => float_floor_div a b
  end.

Definition operator_mod (a b : pyvalue) : result pyvalue :=
  match a, b with
  | PyInt x, PyInt y => long_mod x y
  | PyComplex _ _, _ | _, PyComplex _ _ => Raise TypeError
  | _, _ => float_rem a b
  end.

Definition operator_pow (a b : pyvalue) : result pyvalue :=
  match a, b with
  | PyInt x, PyInt y => long_pow x y
  | PyComplex _ _, _ | _, PyComplex _ _ => as_complex (complex_arith_pow M a b)
  | _, _ => float_pow a b
  end.

Definition operator_pos (a : pyvalue) : result pyvalue := Return a.

Definition operator_neg (a : pyvalue) : result pyvalue :=
  match a with
  | PyInt x => Return (PyInt (- x))
  | PyFloat f => Return (PyFloat (SFopp f))
  | PyComplex re im => Return (PyComplex (SFopp re) (SFopp im))
  end.

End Operators.

(** ** The syntax tree of the [ast] module *)

(** The classes of binary and unary operators of the Python grammar. *)
Inductive operator : Type :=
| Add | Sub | Mult | MatMult | Div | Mod | Pow
| LShift | RShift | BitOr | BitXor | BitAnd | FloorDiv.

Inductive unaryop : Type :=
| Invert | Not | UAdd | USub.

Scheme Equality for operator.
Scheme Equality for unaryop.

(** The value a [Constant] node carries. *)
Inductive constant : Type :=
| CInt (z : Z)
| CFloat (f : spec_float)
| CComplex (re im : spec_float)
| CBool (b : bool)
| CStr (s : string)
| CBytes (s : string)
| CNone
| CEllipsis.

(** The expression classes for which [SafeEvaluator] defines no [visit_]
    method (those of Python 3.7 included). *)
Inductive node_class : Type :=
| Name | Call | Compare | BoolOp | IfExp | Lambda | NamedExpr
| Dict | Set_ | List_ | Tuple | ListComp | SetComp | DictComp | GeneratorExp
| Attribute | Subscript | Starred | Slice
| JoinedStr | FormattedValue | Await | Yield | YieldFrom
| Str | Bytes | NameConstant | Ellipsis.

(** [node.__class__.__name__]. *)
Definition class_name (c : node_class) : string :=
  match c with
  | Name => "Name" | Call => "Call" | Compare => "Compare" | BoolOp => "BoolOp"
  | IfExp => "IfExp" | Lambda => "Lambda" | NamedExpr => "NamedExpr"
  | Dict => "Dict" | Set_ => "Set" | List_ => "List" | Tuple => "Tuple"
  | ListComp => "ListComp" | SetComp => "SetComp" | DictComp => "DictComp"
  | GeneratorExp => "GeneratorExp" | Attribute => "Attribute"
  | Subscript => "Subscript" | Starred => "Starred" | Slice => "Slice"
  | JoinedStr => "JoinedStr" | FormattedValue => "FormattedValue"
  | Await => "Await" | Yield => "Yield" | YieldFrom => "YieldFrom"
  | Str => "Str" | Bytes => "Bytes" | NameConstant => "NameConstant"
  | Ellipsis => "Ellipsis"
  end.

Definition operator_class_name (op : operator) : string :=
  match op with
  | Add => "Add" | Sub => "Sub" | Mult => "Mult" | MatMult => "MatMult"
  | Div => "Div" | Mod => "Mod" | Pow => "Pow" | LShift => "LShift"
  | RShift => "RShift" | BitOr => "BitOr" | BitXor => "BitXor"
  | BitAnd => "BitAnd" | FloorDiv => "FloorDiv"
  end.

Definition unaryop_class_name (op : unaryop) : string :=
  match op with
  | Invert => "Invert" | Not => "Not" | UAdd => "UAdd" | USub => "USub"
  end.

(** A node of the tree.  [Expression] is the root [ast.parse] builds in
    mode ["eval"]; [Num] is the number node of Python 3.7; a node of any
    other class keeps its class and its child nodes, which the evaluator
    never reads. *)
Inductive node : Type :=
| Expression (body : node)
| BinOp (left : node) (op : operator) (right : node)
| UnaryOp (op : unaryop) (operand : node)
| Constant (value : constant)
| Num (n : constant)
| OtherNode (cls : node_class) (children : list node).

(** ** class SafeEvaluator(ast.NodeVisitor) *)

Module SafeEvaluator.

Section Tables.

Context (M : MathLib).

Definition _binary_operators
  : list (operator * (pyvalue -> pyvalue -> result pyvalue)) :=
  [ (Add, operator_add M);
    (Sub, operator_sub M);
    (Mult, operator_mul M);
    (Div, operator_truediv M);
    (FloorDiv, operator_floordiv);
    (Mod, operator_mod);
    (Pow, operator_pow M) ].

Definition _unary_operators : list (unaryop * (pyvalue -> result pyvalue)) :=
  [ (UAdd, operator_pos);
    (USub, operator_neg) ].

End Tables.

(** [d[k]] of a dict written as its list of items; [None] when [k not in d]. *)
Fixpoint dict_get {K V : Type} (eqb : K -> K -> bool) (k : K) (d : list (K * V))
  : option V :=
  match d with
  | [] => None
  | (k', v) :: d' => if eqb k k' then Some v else dict_get eqb k d'
  end.

Definition visit_Constant (value : constant) : result pyvalue :=
  match value with
  | CBool _ => Raise (ValueError "Valores booleanos não são permitidos")
  | CInt z => Return (PyInt z)
  | CFloat f => Return (PyFloat f)
  | _ => Raise (ValueError "Apenas números são permitidos")
  end.

Definition generic_visit (cls : node_class) : result pyvalue :=
  Raise (ValueError ("Expressão contém elemento não permitido: " ++ class_name cls)).

Section Methods.

Context (M : MathLib).

(** [self.visit], the dispatch of [ast.NodeVisitor] on the class of a node. *)
Variable visit : node -> result pyvalue.

Definition visit_Expression (body : node) : result pyvalue :=
  visit body.

Definition visit_BinOp (left : node) (op : operator) (right : node)
  : result pyvalue :=
  left' <- visit left ;;
  right' <- visit right ;;
  match dict_get operator_beq op (_binary_operators M) with
  | None => Raise (ValueError "Operador binário não suportado")
  | Some func => func left' right'
  end.

Definition visit_UnaryOp (op : unaryop) (operand : node) : result pyvalue :=
  operand' <- visit operand ;;
  match dict_get unaryop_beq op _unary_operators with
  | None => Raise (ValueError "Operador unário não suportado")
  | Some func => func operand'
  end.

Definition visit_Num (n : constant) : result pyvalue :=
  visit_Constant n.

End Methods.

Fixpoint visit (M : MathLib) (n : node) : result pyvalue :=
  match n with
  | Expression body => visit_Expression (visit M) body
  | BinOp l op r => visit_BinOp M (visit M) l op r
  | UnaryOp op operand => visit_UnaryOp (visit M) op operand
  | Constant value => visit_Constant value
  | Num n => visit_Num n
  | OtherNode cls _ => generic_visit cls
  end.

End SafeEvaluator.

(** ** The entry point *)

(** The interpreter the module runs on: its parser, [ast.parse(_, mode="eval")],
    which returns a tree or raises, and its C library. *)
Record Host : Type := {
  ast_parse : string -> result node;
  mathlib : MathLib
}.

(** The body of [evaluate_expression], with the parser and the visitor it
    runs as arguments. *)
Definition evaluate_expression_with
    (parse : string -> result node) (evaluator_visit : node -> result pyvalue)
    (expression : string) : result pyvalue :=
  match parse expression with
  | Raise e =>
      if isinstance_SyntaxError e
      then Raise (ValueError "Expressão inválida")
      else Raise e
  | Return parsed => evaluator_visit parsed
  end.

Definition evaluate_expression (H : Host) (expression : string) : result pyvalue :=
  evaluate_expression_with (ast_parse H) (SafeEvaluator.visit (mathlib H)) expression.

(** ** The parser of section 4.1 of the specification *)

(** [ast.parse] belongs to the interpreter and is a field of [Host].  The
    specification describes the parser an implementation needs for the
    arithmetic fragment; [Grammar.parse] is that parser, and [spec_host]
    the host that parses with it. *)

Module Grammar.

Local Open Scope list_scope.

Inductive token : Type :=
| NUMBER (value : constant)
| PLUS | MINUS | STAR | SLASH | DSLASH | PERCENT | DSTAR
| LPAREN | RPAREN.

(** *** The lexer *)

Definition is_space (c : ascii) : bool :=
  match nat_of_ascii c with
  | 32%nat | 9%nat | 10%nat | 11%nat | 12%nat | 13%nat => true
  | _ => false
  end.

Definition digit_of (c : ascii) : option Z :=
  let n := Z.of_nat (nat_of_ascii c) in
  if (48 <=? n) && (n <=? 57) then Some (n - 48) else None.

(** What a character is to the lexer. *)
Inductive symbol : Type :=
| Digit (d : Z)
| Blank
| Point
| PlusSign | MinusSign | Asterisk | Solidus | PercentSign
| OpenParen | CloseParen
| Unknown.

Definition symbol_of (c : ascii) : symbol :=
  match digit_of c with
  | Some d => Digit d
  | None =>
      if is_space c then Blank
      else
        match c with
        | "."%char => Point
        | "+"%char => PlusSign
        | "-"%char => MinusSign
        | "*"%char => Asterisk
        | "/"%char => Solidus
        | "%"%char => PercentSign
        | "("%char => OpenParen
        | ")"%char => CloseParen
        | _ => Unknown
        end
  end.

(** The value of the literal whose digits, the point left out, read [n]
    and which has [k] digits after the point: the float nearest to
    [n / 10^k]. *)
Definition decimal (n : Z) (k : nat) : spec_float :=
  SFdiv prec emax (Z2SF n) (Z2SF (10 ^ Z.of_nat k)).

(** What the lexer has read of a token that the next character may
    extend: the digits of a literal, or the first [*] or [/] of a
    two-character operator. *)
Inductive lexer_state : Type :=
| Idle
| IntPart (n : Z)
| FracPart (n : Z) (k : nat)
| SawStar
| SawSlash.

(** The token a state stands for when nothing extends it. *)
Definition flush (st : lexer_state) : list token :=
  match st with
  | Idle => []
  | IntPart n => [NUMBER (CInt n)]
  | FracPart n k => [NUMBER (CFloat (decimal n k))]
  | SawStar => [STAR]
  | SawSlash => [SLASH]
  end.

(** Modelled from the spec: one step of the lexer of section 4.1 (the
    module has no lexer, it calls [ast.parse]).  From the state and the
    next character: the tokens completed and the new state, or [None] for
    a character that is no part of a token.  A literal is digits, at most
    one decimal point and the digits after it; a second [*] or [/] makes
    [**] or [//] with the first. *)
Definition lex (st : lexer_state) (c : ascii) : option (list token * lexer_state) :=
  match symbol_of c with
  | Digit d =>
      match st with
      | IntPart n => Some ([], IntPart (10 * n + d))
      | FracPart n k => Some ([], FracPart (10 * n + d) (S k))
      | _ => Some (flush st, IntPart d)
      end
  | Blank => Some (flush st, Idle)
  | Point =>
      match st with
      | IntPart n => Some ([], FracPart n 0)
      | _ => None
      end
  | Asterisk =>
      match st with
      | SawStar => Some ([DSTAR], Idle)
      | _ => Some (flush st, SawStar)
      end
  | Solidus =>
      match st with
      | SawSlash => Some ([DSLASH], Idle)
      | _ => Some (flush st, SawSlash)
      end
  | PlusSign => Some (flush st ++ [PLUS], Idle)
  | MinusSign => Some (flush st ++ [MINUS], Idle)
  | PercentSign => Some (flush st ++ [PERCENT], Idle)
  | OpenParen => Some (flush st ++ [LPAREN], Idle)
  | CloseParen => Some (flush st ++ [RPAREN], Idle)
  | Unknown => None
  end.

(** Modelled from the spec: the lexer of section 4.1, left to right. *)
Fixpoint tokenize_from (st : lexer_state) (s : string) : option (list token) :=
  match s with
  | EmptyString => Some (flush st)
  | String c rest =>
      match lex st c with
      | Some (out, st') => option_map (app out) (tokenize_from st' rest)
      | None => None
      end
  end.

Definition tokenize (s : string) : option (list token) := tokenize_from Idle s.

(** *** The parser *)

(** What a parsing function returns: a tree and the tokens left, a parse
    error, or that its recursion budget ran out. *)
Inductive parsed : Type :=
| Parsed (n : node) (rest : list token)
| ParseError
| OutOfFuel.

Definition and_then (p : parsed) (k : node -> list token -> parsed) : parsed :=
  match p with
  | Parsed n rest => k n rest
  | ParseError => ParseError
  | OutOfFuel => OutOfFuel
  end.

Definition additive (t : token) : option operator :=
  match t with
  | PLUS => Some Add
  | MINUS => Some Sub
  | _ => None
  end.

Definition multiplicative (t : token) : option operator :=
  match t with
  | STAR => Some Mult
  | SLASH => Some Div
  | DSLASH => Some FloorDiv
  | PERCENT => Some Mod
  | _ => None
  end.

Definition sign (t : token) : option unaryop :=
  match t with
  | PLUS => Some UAdd
  | MINUS => Some USub
  | _ => None
  end.

(** Modelled from the spec: the parser of section 4.1, by precedence
    climbing.  [+] and [-] bind loosest and group to the left; [*], [/],
    [//] and [%] bind tighter and group to the left; a unary sign applies to
    a whole power expression; [**] binds tightest and groups to the right,
    its exponent taking a sign of its own; parentheses start over.  The
    first argument bounds the depth of the recursion. *)
Fixpoint parse_expr (fuel : nat) (ts : list token) {struct fuel} : parsed :=
  match fuel with
  | O => OutOfFuel
  | S fuel' =>
      and_then (parse_term fuel' ts) (fun lhs rest => parse_expr_rest fuel' lhs rest)
  end
with parse_expr_rest (fuel : nat) (lhs : node) (ts : list token) {struct fuel} : parsed :=
  match fuel with
  | O => OutOfFuel
  | S fuel' =>
      match ts with
      | t :: ts' =>
          match additive t with
          | Some op =>
              and_then (parse_term fuel' ts')
                (fun rhs rest => parse_expr_rest fuel' (BinOp lhs op rhs) rest)
          | None => Parsed lhs ts
          end
      | [] => Parsed lhs ts
      end
  end
with parse_term (fuel : nat) (ts : list token) {struct fuel} : parsed :=
  match fuel with
  | O => OutOfFuel
  | S fuel' =>
      and_then (parse_factor fuel' ts) (fun lhs rest => parse_term_rest fuel' lhs rest)
  end
with parse_term_rest (fuel : nat) (lhs : node) (ts : list token) {struct fuel} : parsed :=
  match fuel with
  | O => OutOfFuel
  | S fuel' =>
      match ts with
      | t :: ts' =>
          match multiplicative t with
          | Some op =>
              and_then (parse_factor fuel' ts')
                (fun rhs rest => parse_term_rest fuel' (BinOp lhs op rhs) rest)
          | None => Parsed lhs ts
          end
      | [] => Parsed lhs ts
      end
  end
with parse_factor (fuel : nat) (ts : list token) {struct fuel} : parsed :=
  match fuel with
  | O => OutOfFuel
  | S fuel' =>
      match ts with
      | t :: ts' =>
          match sign t with
          | Some op =>
              and_then (parse_factor fuel' ts')
                (fun operand rest => Parsed (UnaryOp op operand) rest)
          | None => parse_power fuel' ts
          end
      | [] => ParseError
      end
  end
with parse_power (fuel : nat) (ts : list token) {struct fuel} : parsed :=
  match fuel with
  | O => OutOfFuel
  | S fuel' =>
      and_then (parse_atom fuel' ts) (fun base rest =>
        match rest with
        | DSTAR :: rest' =>
            and_then (parse_factor fuel' rest')
              (fun exponent rest'' => Parsed (BinOp base Pow exponent) rest'')
        | _ => Parsed base rest
        end)
  end
with parse_atom (fuel : nat) (ts : list token) {struct fuel} : parsed :=
  match fuel with
  | O => OutOfFuel
  | S fuel' =>
      match ts with
      | NUMBER value :: ts' => Parsed (Constant value) ts'
      | LPAREN :: ts' =>
          and_then (parse_expr fuel' ts') (fun inner rest =>
            match rest with
            | RPAREN :: rest' => Parsed inner rest'
            | _ => ParseError
            end)
      | _ => ParseError
      end
  end.

(** A recursion budget that no token list exhausts ([parse_expr_fuel]). *)
Definition fuel_for (ts : list token) : nat := 6 * List.length ts + 6.

(** Modelled from the spec: [parse] of section 4.1, with the tree under the
    root [ast.parse] gives it and the parse error as [SyntaxError].  The
    input must be one whole expression: no tokens at all, or tokens left
    over, is an error. *)
Definition parse (text : string) : result node :=
  match tokenize text with
  | None => Raise SyntaxError
  | Some ts =>
      match parse_expr (fuel_for ts) ts with
      | Parsed tree [] => Return (Expression tree)
      | _ => Raise SyntaxError
      end
  end.

(** *** The grammar, to state what the parser accepts *)

Definition binary_token (t : token) : bool :=
  match t with
  | PLUS | MINUS | STAR | SLASH | DSLASH | PERCENT | DSTAR => true
  | _ => false
  end.

(** The token lists of expressions: a literal, an expression between
    parentheses, a signed expression, or two expressions about a binary
    operator, however they group. *)
Inductive sentence : list token -> Prop :=
| sentence_number (value : constant) : sentence [NUMBER value]
| sentence_parens (w : list token) :
    sentence w -> sentence (LPAREN :: w ++ [RPAREN])
| sentence_sign (t : token) (w : list token) :
    sign t <> None -> sentence w -> sentence (t :: w)
| sentence_binary (w1 : list token) (t : token) (w2 : list token) :
    binary_token t = true -> sentence w1 -> sentence w2 -> sentence (w1 ++ t :: w2).

(** What may follow an expression to make a longer one: operators, each
    with its right operand. *)
Inductive continuation : list token -> Prop :=
| continuation_nil : continuation []
| continuation_cons (t : token) (w c : list token) :
    binary_token t = true -> sentence w -> continuation c ->
    continuation (t :: w ++ c).

(** The depth of parentheses after the tokens [ts], from [depth]; [None]
    when a parenthesis closes that was never opened. *)
Fixpoint nesting (ts : list token) (depth : nat) : option nat :=
  match ts with
  | [] => Some depth
  | LPAREN :: ts' => nesting ts' (S depth)
  | RPAREN :: ts' =>
      match depth with
      | O => None
      | S depth' => nesting ts' depth'
      end
  | _ :: ts' => nesting ts' depth
  end.

(** The same on the characters of a text. *)
Fixpoint text_nesting (s : string) (depth : nat) : option nat :=
  match s with
  | EmptyString => Some depth
  | String c rest =>
      match symbol_of c with
      | OpenParen => text_nesting rest (S depth)
      | CloseParen =>
          match depth with
          | O => None
          | S depth' => text_nesting rest depth'
          end
      | _ => text_nesting rest depth
      end
  end.

(** Where a reader stands between two tokens: before an operand, or after
    one. *)
Inductive position : Type := BeforeOperand | AfterOperand.

Definition step (p : position) (t : token) : option position :=
  match p, t with
  | BeforeOperand, NUMBER _ => Some AfterOperand
  | BeforeOperand, (LPAREN | PLUS | MINUS) => Some BeforeOperand
  | BeforeOperand, _ => None
  | AfterOperand, RPAREN => Some AfterOperand
  | AfterOperand, (NUMBER _ | LPAREN) => None
  | AfterOperand, _ => Some BeforeOperand
  end.

(** The position after the tokens [ts], from [p]; [None] when a token
    stands where it cannot. *)
Fixpoint run (p : position) (ts : list token) : option position :=
  match ts with
  | [] => Some p
  | t :: ts' =>
      match step p t with
      | Some p' => run p' ts'
      | None => None
      end
  end.

(** What a successful call of a parsing function has read is a sentence
    (or, for the loops, a continuation of one), and the rest is what
    follows it. *)
Definition reads_sentence (f : list token -> parsed) : Prop :=
  forall ts n rest, f ts = Parsed n rest -> exists w, ts = w ++ rest /\ sentence w.

Definition reads_continuation (f : node -> list token -> parsed) : Prop :=
  forall lhs ts n rest,
    f lhs ts = Parsed n rest -> exists c, ts = c ++ rest /\ continuation c.

(** *** The malformed inputs of section 4.1 *)

(** The kinds of input that section 4.1 lists as parse errors.  They are
    kinds of the grammar of that section and say nothing of [ast.parse],
    which reads all of Python's expressions: it has a tree for ["1e3"] and
    for ["abc + 2"], where a letter is no part of a token here. *)

(** Modelled from the spec: empty or whitespace only. *)
Fixpoint blank (s : string) : bool :=
  match s with
  | EmptyString => true
  | String c rest =>
      match symbol_of c with
      | Blank => blank rest
      | _ => false
      end
  end.

(** Modelled from the spec: a character that is no part of any token. *)
Fixpoint unrecognized (s : string) : bool :=
  match s with
  | EmptyString => false
  | String c rest =>
      match symbol_of c with
      | Unknown => true
      | _ => unrecognized rest
      end
  end.

(** Modelled from the spec: parentheses that do not match. *)
Definition unbalanced (s : string) : Prop := text_nesting s 0 <> Some 0%nat.

(** Modelled from the spec: an operator where an operand is expected.
    After the tokens [before] an operand is due, and what comes is an
    operator that is no sign ([*], [/], [//], [%], [**]), or the end of the
    input. *)
Definition operand_expected (ts : list token) : Prop :=
  exists before after,
    ts = before ++ after
    /\ run BeforeOperand before = Some BeforeOperand
    /\ match after with
       | [] => True
       | t :: _ => binary_token t = true /\ sign t = None
       end.

(** Modelled from the spec: input left after a complete expression.  The
    tokens [w] are an expression, and the token after them is no operator
    that could continue it. *)
Definition trailing_input (ts : list token) : Prop :=
  exists w t after,
    ts = w ++ t :: after /\ sentence w /\ binary_token t = false.

(** Modelled from the spec: an input of one of the five kinds. *)
Definition malformed (text : string) : Prop :=
  blank text = true
  \/ unrecognized text = true
  \/ unbalanced text
  \/ exists ts, tokenize text = Some ts /\ (operand_expected ts \/ trailing_input ts).

End Grammar.

(** The host that parses with the parser of section 4.1. *)
Definition spec_host (M : MathLib) : Host :=
  {| ast_parse := Grammar.parse; mathlib := M |}.

(** The trees CPython's [ast.parse] builds for some inputs outside the
    grammar of section 4.1 (the fields that are not nodes left out). *)
Definition cpython_trees : list (string * node) :=
  [ ("abc + 2",
     Expression (BinOp (OtherNode Name []) Add (Constant (CInt 2))));
    ("print(1)",
     Expression (OtherNode Call [OtherNode Name []; Constant (CInt 1)]));
    ("True + 1",
     Expression (BinOp (Constant (CBool true)) Add (Constant (CInt 1))));
    ("1 / 0 + True",
     Expression (BinOp (BinOp (Constant (CInt 1)) Div (Constant (CInt 0))) Add
                       (Constant (CBool true))));
    ("1 | 2",
     Expression (BinOp (Constant (CInt 1)) BitOr (Constant (CInt 2))));
    ("1 << 2",
     Expression (BinOp (Constant (CInt 1)) LShift (Constant (CInt 2))));
    ("~1",
     Expression (UnaryOp Invert (Constant (CInt 1))));
    ("0 ** -1e999",
     Expression (BinOp (Constant (CInt 0)) Pow
                       (UnaryOp USub (Constant (CFloat (S754_infinity false))))));
    ("1e3",
     Expression (Constant (CFloat (S754_finite false 8796093022208000 (-43))))) ].

(** A parser to evaluate concrete inputs with: [cpython_trees] for the
    inputs listed there, the parser of section 4.1 for every other text. *)
Definition sample_parse (text : string) : result node :=
  match SafeEvaluator.dict_get String.eqb text cpython_trees with
  | Some tree => Return tree
  | None => Grammar.parse text
  end.

(** A C library to evaluate concrete inputs on.  It knows one power,
    [(-8) ** 0.5 = 1.7319121124709868e-16+2.8284271247461903j] as CPython
    prints it on x86-64 with glibc, and fails every other call: [pow] leaves
    [EDOM] and complex arithmetic raises.  Apart from that power, it stands
    for the library in statements about inputs that never call it. *)
Definition sample_mathlib : MathLib :=
  {| libm_pow := fun _ _ => (S754_nan, EDOM);
     complex_arith_add := fun _ _ => Raise OverflowError;
     complex_arith_sub := fun _ _ => Raise OverflowError;
     complex_arith_mul := fun _ _ => Raise OverflowError;
     complex_arith_div := fun _ _ => Raise OverflowError;
     complex_arith_pow := fun v w =>
       match v, w with
       | PyInt (-8), PyFloat (S754_finite false 4503599627370496 (-53)) =>
           Return (S754_finite false 7025470172532439 (-105),
                   S754_finite false 6369051672525773 (-51))
       | _, _ => Raise OverflowError
       end |}.

Definition sample_host : Host :=
  {| ast_parse := sample_parse; mathlib := sample_mathlib |}.

(** Before Python 3.8, [ast.parse] builds a [Num] node for a number
    literal, where later versions build a [Constant]. *)
Fixpoint num_literals (tree : node) : node :=
  match tree with
  | Expression body => Expression (num_literals body)
  | BinOp l op r => BinOp (num_literals l) op (num_literals r)
  | UnaryOp op operand => UnaryOp op (num_literals operand)
  | Constant (CInt z) => Num (CInt z)
  | Constant (CFloat f) => Num (CFloat f)
  | other => other
  end.

(** A host of that kind to evaluate concrete inputs on: the parser of
    section 4.1, whose trees have no node but [BinOp], [UnaryOp] and
    number literals, with its literals as [Num] nodes. *)
Definition num_parse (text : string) : result node :=
  tree <- Grammar.parse text ;;
  Return (num_literals tree).

Definition num_host : Host :=
  {| ast_parse := num_parse; mathlib := sample_mathlib |}.

(** [n] zeros, and the decimal literal of [10 ** n]: a one and [n] zeros. *)
Fixpoint zeros (n : nat) : string :=
  match n with
  | O => EmptyString
  | S n' => String "0"%char (zeros n')
  end.

Definition power_of_ten_literal (n : nat) : string := String "1"%char (zeros n).

(** ** Integer expressions *)

(** Expressions of integers: literals under unary signs and the operators
    [+ - * // % **].  A literal is one of the two nodes [ast.parse] has for
    it: [ILit] the [Constant] node, [INum] the [Num] node of Python 3.7. *)
Inductive int_operator : Type :=
| IAdd | ISub | IMul | IFloorDiv | IMod | IPow.

Inductive int_expr : Type :=
| ILit (n : Z)
| INum (n : Z)
| ISign (op : unaryop) (e : int_expr)
| IBin (e1 : int_expr) (op : int_operator) (e2 : int_expr).

Definition int_operator_node (op : int_operator) : operator :=
  match op with
  | IAdd => Add
  | ISub => Sub
  | IMul => Mult
  | IFloorDiv => FloorDiv
  | IMod => Mod
  | IPow => Pow
  end.

(** The tree of an integer expression. *)
Fixpoint int_expr_node (e : int_expr) : node :=
  match e with
  | ILit n => Constant (CInt n)
  | INum n => Num (CInt n)
  | ISign op e' => UnaryOp op (int_expr_node e')
  | IBin e1 op e2 => BinOp (int_expr_node e1) (int_operator_node op) (int_expr_node e2)
  end.

(** The integer an expression denotes in mathematics: sums, differences and
    products of integers, the floor of the quotient and the remainder that
    goes with it, and powers with a natural exponent.  It denotes nothing
    ([None]) when a divisor is zero, an exponent is negative, or a sign is
    not [+] or [-]. *)
Fixpoint denotation (e : int_expr) : option Z :=
  match e with
  | ILit n => Some n
  | INum n => Some n
  | ISign op e' =>
      match denotation e', op with
      | Some z, UAdd => Some z
      | Some z, USub => Some (- z)
      | _, _ => None
      end
  | IBin e1 op e2 =>
      match denotation e1, denotation e2 with
      | Some a, Some b =>
          match op with
          | IAdd => Some (a + b)
          | ISub => Some (a - b)
          | IMul => Some (a * b)
          | IFloorDiv => if b =? 0 then None else Some (a / b)
          | IMod => if b =? 0 then None else Some (a mod b)
          | IPow => if b <? 0 then None else Some (a ^ b)
          end
      | _, _ => None
      end
  end.

(** ** Classes of operands *)

Definition real_value (v : pyvalue) : bool :=
  match v with
  | PyComplex _ _ => false
  | _ => true
  end.

Definition float_value (v : pyvalue) : bool :=
  match v with
  | PyFloat _ => true
  | _ => false
  end.

(** [v == 0], for an [int] or a [float] ([0], [0.0] and [-0.0]). *)
Definition zero_value (v : pyvalue) : bool :=
  match v with
  | PyInt z => z =? 0
  | PyFloat f => is_zero f
  | PyComplex _ _ => false
  end.

(** [v < 0], for an [int] or a [float]. *)
Definition negative_value (v : pyvalue) : bool :=
  match v with
  | PyInt z => z <? 0
  | PyFloat f => SFltb f fzero
  | PyComplex _ _ => false
  end.

(** An [int] with no float near it: [float(v)] raises OverflowError. *)
Definition int_beyond_float (v : pyvalue) : bool :=
  match v with
  | PyInt z =>
      match PyLong_AsDouble z with
      | Raise _ => true
      | Return _ => false
      end
  | _ => false
  end.

(** ** The whitelist *)

(** The seven binary operators [+ - * / // % **]. *)
Definition allowed_binary (op : operator) : bool :=
  match op with
  | Add | Sub | Mult | Div | FloorDiv | Mod | Pow => true
  | _ => false
  end.

(** Unary [+] and [-]. *)
Definition allowed_unary (op : unaryop) : bool :=
  match op with
  | UAdd | USub => true
  | _ => false
  end.

(** A numeric literal: an [int] or a [float], and no [bool]. *)
Definition numeric_literal (value : constant) : bool :=
  match value with
  | CInt _ | CFloat _ => true
  | _ => false
  end.

(** A tree built of whitelisted nodes only.  Parentheses leave no node;
    [Expression] is the root of every parsed tree. *)
Fixpoint whitelisted (n : node) : bool :=
  match n with
  | Expression body => whitelisted body
  | BinOp l op r => whitelisted l && allowed_binary op && whitelisted r
  | UnaryOp op operand => allowed_unary op && whitelisted operand
  | Constant value => numeric_literal value
  | Num n => numeric_literal n
  | OtherNode _ _ => false
  end.

(** A tree with a boolean literal in it, at a place the evaluator can reach. *)
Fixpoint contains_bool (n : node) : bool :=
  match n with
  | Expression body => contains_bool body
  | BinOp l _ r => contains_bool l || contains_bool r
  | UnaryOp _ operand => contains_bool operand
  | Constant (CBool _) | Num (CBool _) => true
  | _ => false
  end.

(** [reached M tree n]: the evaluation of [tree] gets to visit the node [n].
    [visit_BinOp] visits the left operand, then the right one, and an error
    ends the evaluation; so the right operand is reached when the left one
    has returned a value. *)
Inductive reached (M : MathLib) : node -> node -> Prop :=
| reached_root (n : node) : reached M n n
| reached_body (body n : node) :
    reached M body n -> reached M (Expression body) n
| reached_left (l r : node) (op : operator) (n : node) :
    reached M l n -> reached M (BinOp l op r) n
| reached_right (l r : node) (op : operator) (n : node) (v : pyvalue) :
    SafeEvaluator.visit M l = Return v ->
    reached M r n -> reached M (BinOp l op r) n
| reached_operand (op : unaryop) (operand n : node) :
    reached M operand n -> reached M (UnaryOp op operand) n.

(** [name in message], for strings. *)
Fixpoint is_infix (name message : string) : bool :=
  String.prefix name message
  || match message with
     | EmptyString => false
     | String _ rest => is_infix name rest
     end.

(** The error the specification calls InvalidExpression. *)
Definition InvalidExpression : exc := ValueError "Expressão inválida".

(** The tokens of [a op b ** c] and of [a ** b op c], for literals. *)
Definition power_right_of (t : Grammar.token) (a b c : constant) : list Grammar.token :=
  [Grammar.NUMBER a; t; Grammar.NUMBER b; Grammar.DSTAR; Grammar.NUMBER c].

Definition power_left_of (t : Grammar.token) (a b c : constant) : list Grammar.token :=
  [Grammar.NUMBER a; Grammar.DSTAR; Grammar.NUMBER b; t; Grammar.NUMBER c].

(** ** The command-line program *)

(** The rest of [src/simple_calculator.py] is a program for the terminal:
    it reads lines with [input], writes with [print], and loops until it is
    told to stop.  A run is modelled against a console: what [input] will
    meet, and what has been written so far.

    A [str] is modelled by its UTF-8 encoding, one [ascii] a byte. *)

(** *** Strings *)

Definition code (c : ascii) : Z := Z.of_nat (nat_of_ascii c).

Definition newline : string := String (ascii_of_nat 10) EmptyString.

(** [Py_UNICODE_ISSPACE], on the encoding of a character: the characters
    U+0009 to U+000D, U+001C to U+0020, U+0085, U+00A0, U+1680, U+2000 to
    U+200A, U+2028, U+2029, U+202F, U+205F and U+3000. *)
Definition space1 (a : ascii) : bool :=
  ((9 <=? code a) && (code a <=? 13)) || ((28 <=? code a) && (code a <=? 32)).

Definition space2 (a b : ascii) : bool :=
  (code a =? 194) && ((code b =? 133) || (code b =? 160)).

Definition space3 (a b c : ascii) : bool :=
  ((code a =? 225) && (code b =? 154) && (code c =? 128))
  || ((code a =? 226) && (code b =? 128)
      && (((128 <=? code c) && (code c <=? 138))
          || (code c =? 168) || (code c =? 169) || (code c =? 175)))
  || ((code a =? 226) && (code b =? 129) && (code c =? 159))
  || ((code a =? 227) && (code b =? 128) && (code c =? 128)).

(** [str.lstrip()]. *)
Fixpoint lstrip (s : string) : string :=
  match s with
  | String a rest =>
      if space1 a then lstrip rest
      else
        match rest with
        | String b rest2 =>
            if space2 a b then lstrip rest2
            else
              match rest2 with
              | String c rest3 => if space3 a b c then lstrip rest3 else s
              | EmptyString => s
              end
        | EmptyString => s
        end
  | EmptyString => s
  end.

(** [str.rstrip()]: what is left of the end of [s] once the whitespace
    after it is dropped is nothing when it is whitespace itself. *)
Fixpoint rstrip (s : string) : string :=
  match s with
  | String a rest =>
      let kept := String a (rstrip rest) in
      match lstrip kept with
      | EmptyString => EmptyString
      | _ => kept
      end
  | EmptyString => EmptyString
  end.

(** [str.strip()]. *)
Definition strip (s : string) : string := rstrip (lstrip s).

Fixpoint is_ascii (s : string) : bool :=
  match s with
  | String a rest => (code a <? 128) && is_ascii rest
  | EmptyString => true
  end.

Definition lower_letter (a : ascii) : ascii :=
  if (65 <=? code a) && (code a <=? 90) then ascii_of_nat (nat_of_ascii a + 32) else a.

Definition upper_letter (a : ascii) : ascii :=
  if (97 <=? code a) && (code a <=? 122) then ascii_of_nat (nat_of_ascii a - 32) else a.

Fixpoint map_letters (f : ascii -> ascii) (s : string) : string :=
  match s with
  | String a rest => String (f a) (map_letters f rest)
  | EmptyString => EmptyString
  end.

(** [x in s], for a set of strings written as the list of its elements. *)
Definition set_in (x : string) (s : list string) : bool :=
  existsb (String.eqb x) s.

(** *** What the interpreter provides *)

(** [float(s)] for a string, which returns a float or raises ValueError;
    [str.lower] for a string that is not all ASCII (the case mapping of
    Unicode); and the exception [str(v)] raises for a number [v], if it
    raises one: CPython writes no [int] of more digits than
    [sys.get_int_max_str_digits()] and raises ValueError. *)
Record Builtins : Type := {
  float_of_str : string -> result spec_float;
  unicode_lower : string -> string;
  str_error : pyvalue -> option exc
}.

(** unicodeobject.c, [unicode_lower_impl]: an ASCII string is lowered byte
    by byte, any other by the case mapping. *)
Definition str_lower (B : Builtins) (s : string) : string :=
  if is_ascii s then map_letters lower_letter s else unicode_lower B s.

(** [float.is_integer]: a finite float with no fractional part. *)
Definition float_is_integer (x : spec_float) : bool :=
  match x with
  | S754_zero _ => true
  | S754_finite _ m e => (0 <=? e) || (Z.pos m mod 2 ^ (- e) =? 0)
  | _ => false
  end.

(** [int(x)] for a float: the integer part; an infinity raises
    OverflowError and a nan ValueError. *)
Definition float_int (x : spec_float) : result Z :=
  match x with
  | S754_zero _ => Return 0
  | S754_finite s m e =>
      Return (cond_Zopp s (if 0 <=? e then Z.pos m * 2 ^ e else Z.pos m / 2 ^ (- e)))
  | S754_infinity _ => Raise OverflowError
  | S754_nan => Raise (ValueError "cannot convert float NaN to integer")
  end.

Definition isinstance_ValueError (e : exc) : bool :=
  match e with
  | ValueError _ => true
  | _ => false
  end.

Definition isinstance_ZeroDivisionError (e : exc) : bool :=
  match e with
  | ZeroDivisionError => true
  | _ => false
  end.

(** *** The console *)

(** What a call of [input] meets: a line the user typed (without its end
    of line), or Ctrl-C.  When nothing is left, the input has ended.  A
    Ctrl-C that comes while an expression is evaluated is not modelled. *)
Inductive event : Type :=
| Typed (line : string)
| Interrupt.

(** A piece of what is written: characters, or the text of a number or of
    an exception, which is the interpreter's to make ([str(result)],
    [str(exc)]) and is kept as the value it is made from. *)
Inductive written : Type :=
| Text (s : string)
| StrOf (v : pyvalue)
| StrOfExc (e : exc).

(** [str(v)], and [{v}] in an f-string: the text of a number, or the
    exception of the interpreter. *)
Definition str_of (B : Builtins) (v : pyvalue) : result written :=
  match str_error B v with
  | Some e => Raise e
  | None => Return (StrOf v)
  end.

Record console : Type := Console {
  stdin : list event;
  stdout : list written;
  stderr : list written
}.

(** What ends a function other than returning: the exceptions of [exc]
    (all of them subclasses of [Exception]), and those of the console
    program. *)
Inductive raised : Type :=
| Exception (e : exc)
| EOFError
| KeyError (key : string)
| KeyboardInterrupt
| SystemExit (status : Z).

(** How a call ends: it returns, it raises, or the budget of a loop ran
    out before it ended. *)
Inductive outcome (A : Type) : Type :=
| Done (a : A)
| Raised (r : raised)
| Unfinished.

Arguments Done {A} a.
Arguments Raised {A} r.
Arguments Unfinished {A}.

Definition io (A : Type) : Type := console -> outcome A * console.

Definition ret {A : Type} (a : A) : io A := fun w => (Done a, w).

Definition raise {A : Type} (r : raised) : io A := fun w => (Raised r, w).

Definition io_bind {A B : Type} (c : io A) (k : A -> io B) : io B :=
  fun w =>
    match c w with
    | (Done a, w') => k a w'
    | (Raised r, w') => (Raised r, w')
    | (Unfinished, w') => (Unfinished, w')
    end.

Notation "x <~ c ;; k" := (io_bind c (fun x => k))
  (at level 61, c at next level, right associativity).
Notation "c >> k" := (io_bind c (fun _ => k))
  (at level 61, right associativity).

(** [try: c  except ...: ...], the clause chosen by [except]. *)
Definition try_except {A : Type} (c : io A) (except : raised -> option (io A)) : io A :=
  fun w =>
    match c w with
    | (Raised r, w') =>
        match except r with
        | Some handler => handler w'
        | None => (Raised r, w')
        end
    | other => other
    end.

(** [print(...)] of one line made of the pieces [line]. *)
Definition print (line : list written) : io unit :=
  fun w =>
    (Done tt,
     {| stdin := stdin w;
        stdout := (stdout w ++ line ++ [Text newline])%list;
        stderr := stderr w |}).

(** [print(..., file=sys.stderr)]. *)
Definition print_stderr (line : list written) : io unit :=
  fun w =>
    (Done tt,
     {| stdin := stdin w;
        stdout := stdout w;
        stderr := (stderr w ++ line ++ [Text newline])%list |}).

(** [input(prompt)]: the prompt is written, then a line is read. *)
Definition input (prompt : string) : io string :=
  fun w =>
    let out := (stdout w ++ [Text prompt])%list in
    match stdin w with
    | [] => (Raised EOFError, {| stdin := []; stdout := out; stderr := stderr w |})
    | Typed line :: rest =>
        (Done line, {| stdin := rest; stdout := out; stderr := stderr w |})
    | Interrupt :: rest =>
        (Raised KeyboardInterrupt, {| stdin := rest; stdout := out; stderr := stderr w |})
    end.

(** How the body of a loop ends a round. *)
Inductive control (A : Type) : Type :=
| Continue
| Break
| ReturnFrom (a : A).

Arguments Continue {A}.
Arguments Break {A}.
Arguments ReturnFrom {A} a.

(** [while True: body], at most [rounds] times round: [Some a] when the
    body returns [a] from the function, [None] when it breaks out. *)
Fixpoint repeat_body {A : Type} (rounds : nat) (body : io (control A)) : io (option A) :=
  fun w =>
    match rounds with
    | O => (Unfinished, w)
    | S rounds' =>
        match body w with
        | (Done Continue, w') => repeat_body rounds' body w'
        | (Done Break, w') => (Done None, w')
        | (Done (ReturnFrom a), w') => (Done (Some a), w')
        | (Raised r, w') => (Raised r, w')
        | (Unfinished, w') => (Unfinished, w')
        end
    end.

(** [while True: body] for the loops of this module.  Each of them reads a
    line in every round, and ends when there is none to read; so it goes
    round once more, at most, than lines are left. *)
Definition while_True {A : Type} (body : io (control A)) : io (option A) :=
  fun w => repeat_body (S (List.length (stdin w))) body w.

(** *** The functions of the program *)

Definition _print_header : io unit :=
  print [Text "Calculadora Simples (segura)"] >>
  print [Text "Suporta: +, -, *, /, //, %, ** e parênteses"] >>
  print [Text "Comandos: 'menu' volta ao menu, 'sair'|'quit'|'exit'|'q' encerra"].

Definition EXIT_COMMANDS : list string := ["sair"; "quit"; "exit"; "q"].

Definition MENU_COMMANDS : list string := ["menu"; "m"].

Definition OP_SYMBOL_TO_FUNC (M : MathLib)
  : list (string * (pyvalue -> pyvalue -> result pyvalue)) :=
  [ ("+", operator_add M);
    ("-", operator_sub M);
    ("*", operator_mul M);
    ("/", operator_truediv M);
    ("//", operator_floordiv);
    ("%", operator_mod);
    ("**", operator_pow M) ].

Definition _is_exit (B : Builtins) (cmd : string) : bool :=
  set_in (str_lower B cmd) EXIT_COMMANDS.

Definition _is_menu (B : Builtins) (cmd : string) : bool :=
  set_in (str_lower B cmd) MENU_COMMANDS.

(** The [try] block of [_parse_number_input]: the number a string stands
    for, an [int] when it has no fractional part. *)
Definition parse_number (B : Builtins) (s : string) : result pyvalue :=
  value <- float_of_str B s ;;
  if float_is_integer value
  then z <- float_int value ;; Return (PyInt z)
  else Return (PyFloat value).

(** The body of the loop of [_parse_number_input]. *)
Definition parse_number_round (B : Builtins) (prompt : string)
  : io (control (option pyvalue)) :=
  s <~ input prompt ;;
  let s := strip s in
  if _is_exit B s then raise (SystemExit 0)
  else if _is_menu B s then ret (ReturnFrom None)
  else
    match parse_number B s with
    | Return number => ret (ReturnFrom (Some number))
    | Raise e =>
        if isinstance_ValueError e
        then print [Text "Entrada inválida. Digite um número, 'menu' ou 'sair'."] >>
             ret Continue
        else raise (Exception e)
    end.

Definition _parse_number_input (B : Builtins) (prompt : string) : io (option pyvalue) :=
  r <~ while_True (parse_number_round B prompt) ;;
  ret (match r with
       | Some number => number
       | None => None
       end).

(** The prompt of [_choose_operation]: the symbols in the order of the
    table. *)
Definition operation_prompt (M : MathLib) : string :=
  "Operação (" ++ String.concat " " (map fst (OP_SYMBOL_TO_FUNC M)) ++ "): ".

(** The body of the loop of [_choose_operation]. *)
Definition choose_operation_round (M : MathLib) (B : Builtins)
  : io (control (option string)) :=
  s <~ input (operation_prompt M) ;;
  let s := strip s in
  if _is_exit B s then raise (SystemExit 0)
  else if _is_menu B s then ret (ReturnFrom None)
  else if set_in s (map fst (OP_SYMBOL_TO_FUNC M)) then ret (ReturnFrom (Some s))
  else print [Text "Operação inválida. Use um dos símbolos listados, 'menu' ou 'sair'."] >>
       ret Continue.

Definition _choose_operation (M : MathLib) (B : Builtins) : io (option string) :=
  r <~ while_True (choose_operation_round M B) ;;
  ret (match r with
       | Some op => op
       | None => None
       end).

(** The [try] statement of [_guided_loop]: the operation is looked up and
    applied, and the result put into the line to print; ZeroDivisionError
    is the one exception it handles. *)
Definition guided_operation (M : MathLib) (B : Builtins) (first : pyvalue) (op : string)
    (second : pyvalue) : io unit :=
  match SafeEvaluator.dict_get String.eqb op (OP_SYMBOL_TO_FUNC M) with
  | None => raise (KeyError op)
  | Some func =>
      match (result <- func first second ;; str_of B result) with
      | Return text => print [Text "Resultado: "; text]
      | Raise e =>
          if isinstance_ZeroDivisionError e
          then print [Text "Erro: divisão por zero não é permitida."]
          else raise (Exception e)
      end
  end.

(** The body of the loop of [_guided_loop]. *)
Definition guided_round (M : MathLib) (B : Builtins) : io (control unit) :=
  first <~ _parse_number_input B "Primeiro número: " ;;
  match first with
  | None => ret (ReturnFrom tt)
  | Some first =>
      op <~ _choose_operation M B ;;
      match op with
      | None => ret (ReturnFrom tt)
      | Some op =>
          second <~ _parse_number_input B "Segundo número: " ;;
          match second with
          | None => ret (ReturnFrom tt)
          | Some second => guided_operation M B first op second >> ret Continue
          end
      end
  end.

Definition _guided_loop (M : MathLib) (B : Builtins) : io unit :=
  print [Text "Modo guiado: informe números e operação. ('menu' volta, 'sair' encerra)"] >>
  (while_True (guided_round M B) >> ret tt).

(** [print(v)] for a number: [str(v)] is written, or raises. *)
Definition print_number (B : Builtins) (v : pyvalue) : io unit :=
  match str_of B v with
  | Return text => print [text]
  | Raise e => raise (Exception e)
  end.

(** The body of the loop of [_expression_loop].  [except Exception] takes
    every exception [evaluate_expression] raises; the result is printed
    after the [try] statement. *)
Definition expression_round (H : Host) (B : Builtins) : io (control unit) :=
  expr <~ input ">>> " ;;
  let expr := strip expr in
  if _is_exit B expr then raise (SystemExit 0)
  else if _is_menu B expr then ret (ReturnFrom tt)
  else if String.eqb expr "" then ret Continue
  else
    match evaluate_expression H expr with
    | Raise e => print [Text "Erro: "; StrOfExc e] >> ret Continue
    | Return result => print_number B result >> ret Continue
    end.

Definition _expression_loop (H : Host) (B : Builtins) : io unit :=
  print [Text "Modo expressão: digite expressões. ('menu' volta, 'sair' encerra)"] >>
  (while_True (expression_round H B) >> ret tt).

(** A mode run from the menu of [main]: [SystemExit] makes [main] return
    0, and when the mode returns the menu goes on. *)
Definition run_mode (mode : io unit) : io (control Z) :=
  try_except (mode >> ret Continue)
      (fun r =>
         match r with
         | SystemExit _ => Some (ret (ReturnFrom 0))
         | _ => None
         end).

(** The body of the loop of [main]. *)
Definition menu_round (H : Host) (B : Builtins) : io (control Z) :=
  choice <~ try_except
              (choice <~ input "Escolha o modo: [1] Guiado | [2] Expressão > " ;;
               ret (Some (strip choice)))
              (fun r =>
                 match r with
                 | EOFError | KeyboardInterrupt => Some (print [] >> ret None)
                 | _ => None
                 end) ;;
  match choice with
  | None => ret Break
  | Some choice =>
      if _is_exit B choice then ret Break
      else if set_in choice ["1"; "g"; "G"] then run_mode (_guided_loop (mathlib H) B)
      else if set_in choice ["2"; "e"; "E"] then run_mode (_expression_loop H B)
      else print [Text "Opção inválida. Digite 1 (Guiado), 2 (Expressão) ou 'sair'."] >>
           ret Continue
  end.

Definition main (H : Host) (B : Builtins) (argv : list string) : io Z :=
  match argv with
  | _ :: _ =>
      let expr := String.concat " " argv in
      match evaluate_expression H expr with
      | Raise e => print_stderr [Text "Erro: "; StrOfExc e] >> ret 1
      | Return result => print_number B result >> ret 0
      end
  | [] =>
      _print_header >>
      (r <~ while_True (menu_round H B) ;;
       ret (match r with
            | Some status => status
            | None => 0
            end))
  end.

(** ** examples.py *)

(** [len(s)]: the characters of [s], which are the bytes of its encoding
    that start one. *)
Fixpoint str_len (s : string) : nat :=
  match s with
  | String a rest =>
      if (128 <=? code a) && (code a <? 192) then str_len rest else S (str_len rest)
  | EmptyString => 0%nat
  end.

Fixpoint spaces (n : nat) : string :=
  match n with
  | O => EmptyString
  | S n' => String " "%char (spaces n')
  end.

(** [format(s, str(width))], the field [{s:width}] of an f-string: [s] with
    spaces after it up to [width] characters. *)
Definition ljust (s : string) (width : nat) : string :=
  s ++ spaces (width - str_len s).

(** [for item in items: body]. *)
Fixpoint for_each {A : Type} (items : list A) (body : A -> io unit) : io unit :=
  match items with
  | [] => ret tt
  | item :: rest => body item >> for_each rest body
  end.

Module Examples.

Definition examples : list (string * string) :=
  [ ("2 + 2", "Adição simples");
    ("10 - 5", "Subtração simples");
    ("3 * 7", "Multiplicação simples");
    ("15 / 3", "Divisão simples");
    ("17 // 5", "Divisão inteira");
    ("23 % 7", "Módulo (resto da divisão)");
    ("2 ** 8", "Potenciação");
    ("(2 + 3) * 4", "Expressão com parênteses");
    ("10 ** 2 + 5", "Precedência de operadores");
    ("(8 + 2) / 2", "Expressão complexa");
    ("2 + 3 * 4", "Precedência: multiplicação antes da adição");
    ("10 - 5 + 3", "Associatividade da adição/subtração");
    ("-5 + 3", "Número negativo");
    ("2.5 * 3", "Números decimais");
    ("(1 + 2) ** (3 - 1)", "Expressão complexa com parênteses") ].

Definition error_examples : list (string * string) :=
  [ ("2 +", "Expressão incompleta");
    ("abc + 2", "Variável não permitida");
    ("print('hello')", "Função não permitida");
    ("2 / 0", "Divisão por zero") ].

(** The line of an example whose [try] block gave [outcome]: the text of
    the result, or the exception of the evaluation or of [str]; the
    description is in a field of [width] characters. *)
Definition line (width : nat) (example : string * string) (outcome : result written)
  : list written :=
  let (expression, description) := example in
  match outcome with
  | Return text =>
      [Text (ljust description width ++ " | " ++ ljust expression 20 ++ " = "); text]
  | Raise e =>
      [Text (ljust description width ++ " | " ++ ljust expression 20 ++ " = ERRO: ");
       StrOfExc e]
  end.

(** The body of the two loops of [main]: [except Exception] takes every
    exception of the [try] block. *)
Definition show (H : Host) (B : Builtins) (width : nat) (example : string * string)
  : io unit :=
  print (line width example
           (result <- evaluate_expression H (fst example) ;; str_of B result)).

Definition main (H : Host) (B : Builtins) : io unit :=
  print [Text ("=== Exemplos da Calculadora Simples ===" ++ newline)] >>
  for_each examples (show H B 40) >>
  print [Text (newline ++ "=== Teste de Erros ===")] >>
  for_each error_examples (show H B 30).

(** What CPython's [ast.parse] makes of the texts of the two lists (the
    fields that are not nodes left out). *)
Definition parsed : list (string * result node) :=
  let int n := Constant (CInt n) in
  [ ("2 + 2", Return (Expression (BinOp (int 2) Add (int 2))));
    ("10 - 5", Return (Expression (BinOp (int 10) Sub (int 5))));
    ("3 * 7", Return (Expression (BinOp (int 3) Mult (int 7))));
    ("15 / 3", Return (Expression (BinOp (int 15) Div (int 3))));
    ("17 // 5", Return (Expression (BinOp (int 17) FloorDiv (int 5))));
    ("23 % 7", Return (Expression (BinOp (int 23) Mod (int 7))));
    ("2 ** 8", Return (Expression (BinOp (int 2) Pow (int 8))));
    ("(2 + 3) * 4",
     Return (Expression (BinOp (BinOp (int 2) Add (int 3)) Mult (int 4))));
    ("10 ** 2 + 5",
     Return (Expression (BinOp (BinOp (int 10) Pow (int 2)) Add (int 5))));
    ("(8 + 2) / 2",
     Return (Expression (BinOp (BinOp (int 8) Add (int 2)) Div (int 2))));
    ("2 + 3 * 4",
     Return (Expression (BinOp (int 2) Add (BinOp (int 3) Mult (int 4)))));
    ("10 - 5 + 3",
     Return (Expression (BinOp (BinOp (int 10) Sub (int 5)) Add (int 3))));
    ("-5 + 3", Return (Expression (BinOp (UnaryOp USub (int 5)) Add (int 3))));
    ("2.5 * 3",
     Return (Expression
               (BinOp (Constant (CFloat (S754_finite false 5629499534213120 (-51))))
                      Mult (int 3))));
    ("(1 + 2) ** (3 - 1)",
     Return (Expression (BinOp (BinOp (int 1) Add (int 2)) Pow
                               (BinOp (int 3) Sub (int 1)))));
    ("2 +", Raise SyntaxError);
    ("abc + 2", Return (Expression (BinOp (OtherNode Name []) Add (int 2))));
    ("print('hello')",
     Return (Expression (OtherNode Call [OtherNode Name []; Constant (CStr "hello")])));
    ("2 / 0", Return (Expression (BinOp (int 2) Div (int 0)))) ].

(** A host parses the examples as CPython does. *)
Definition parses_examples (H : Host) : Prop :=
  forall text tree, In (text, tree) parsed -> ast_parse H text = tree.

(** A parser that knows the examples, and the host that parses with it. *)
Definition parse (text : string) : result node :=
  match SafeEvaluator.dict_get String.eqb text parsed with
  | Some tree => tree
  | None => Grammar.parse text
  end.

Definition host (M : MathLib) : Host := {| ast_parse := parse; mathlib := M |}.

(** What the examples evaluate to: [4], [5], [21], [5.0], [3], [2],
    [256], [20], [105], [5.0], [14], [8], [-2], [7.5] and [9]. *)
Definition results : list (result pyvalue) :=
  [ Return (PyInt 4); Return (PyInt 5); Return (PyInt 21);
    Return (PyFloat (S754_finite false 5629499534213120 (-50)));
    Return (PyInt 3); Return (PyInt 2); Return (PyInt 256); Return (PyInt 20);
    Return (PyInt 105);
    Return (PyFloat (S754_finite false 5629499534213120 (-50)));
    Return (PyInt 14); Return (PyInt 8); Return (PyInt (-2));
    Return (PyFloat (S754_finite false 8444249301319680 (-50)));
    Return (PyInt 9) ].

Definition errors : list (result pyvalue) :=
  [ Raise (ValueError "Expressão inválida");
    Raise (ValueError "Expressão contém elemento não permitido: Name");
    Raise (ValueError "Expressão contém elemento não permitido: Call");
    Raise ZeroDivisionError ].

(** The interpreter writes the results of the examples. *)
Definition writes_results (B : Builtins) : Prop :=
  forall v, In (Return v) results -> str_error B v = None.

(** The lines of a list of examples with the outcomes of their
    evaluation, for results that can be written. *)
Fixpoint report (width : nat) (items : list (string * string))
    (outcomes : list (result pyvalue)) : list written :=
  match items, outcomes with
  | item :: items', outcome :: outcomes' =>
      ((line width item (v <- outcome ;; Return (StrOf v)) ++ [Text newline])
       ++ report width items' outcomes')%list
  | _, _ => []
  end.

End Examples.

(** ** Interpreters to run concrete inputs with *)

(** A [float] for concrete inputs: it reads the decimal literals of digits
    with at most one point among or after them, and raises ValueError for
    every other string. *)
Definition sample_float (s : string) : result spec_float :=
  match Grammar.tokenize_from Grammar.Idle s with
  | Some [Grammar.NUMBER (CInt n)] => PyLong_AsDouble n
  | Some [Grammar.NUMBER (CFloat f)] => Return f
  | _ => Raise (ValueError "could not convert string to float")
  end.

(** [str] with the limit CPython starts with: an [int] is written when it
    has 4300 digits at most. *)
Definition sample_str_error (v : pyvalue) : option exc :=
  match v with
  | PyInt z =>
      if 10 ^ 4300 <=? Z.abs z
      then Some (ValueError "Exceeds the limit (4300 digits) for integer string conversion")
      else None
  | _ => None
  end.

(** Builtins to run concrete inputs with; no string is changed by
    [unicode_lower].  They stand for the interpreter in statements about
    ASCII inputs whose numbers are plain decimal literals. *)
Definition sample_builtins : Builtins :=
  {| float_of_str := sample_float;
     unicode_lower := fun s => s;
     str_error := sample_str_error |}.

(** The console of a run that starts with [script] to read. *)
Definition fresh (script : list event) : console :=
  {| stdin := script; stdout := []; stderr := [] |}.

(** A C library that knows one power, [2.5 ** 10000], which is beyond the
    floats: [pow] returns [HUGE_VAL] and leaves [ERANGE].  For the rest it
    is [sample_mathlib]. *)
Definition overflow_mathlib : MathLib :=
  {| libm_pow := fun x y =>
       match x, y with
       | S754_finite false 5629499534213120 (-51),
         S754_finite false 5497558138880000 (-39) => (S754_infinity false, ERANGE)
       | _, _ => libm_pow sample_mathlib x y
       end;
     complex_arith_add := complex_arith_add sample_mathlib;
     complex_arith_sub := complex_arith_sub sample_mathlib;
     complex_arith_mul := complex_arith_mul sample_mathlib;
     complex_arith_div := complex_arith_div sample_mathlib;
     complex_arith_pow := complex_arith_pow sample_mathlib |}.

(** The host of the examples that call [pow]. *)
Definition overflow_host : Host :=
  {| ast_parse := sample_parse; mathlib := overflow_mathlib |}.

(** ** The vocabulary of the statements *)

(** *** Trees and errors *)

(** A tree with a [**] in it. *)
Fixpoint uses_pow (n : node) : bool :=
  match n with
  | Expression body => uses_pow body
  | BinOp l op r => uses_pow l || operator_beq op Pow || uses_pow r
  | UnaryOp _ operand => uses_pow operand
  | _ => false
  end.

(** The errors with which [SafeEvaluator] refuses a node. *)
Definition refusal (e : exc) : bool :=
  match e with
  | ValueError message =>
      String.eqb message "Operador binário não suportado"
      || String.eqb message "Operador unário não suportado"
      || String.eqb message "Valores booleanos não são permitidos"
      || String.eqb message "Apenas números são permitidos"
      || String.prefix "Expressão contém elemento não permitido: " message
  | _ => false
  end.

(** The complex arithmetic of [M] raises no ValueError: complexobject.c
    raises ZeroDivisionError and OverflowError. *)
Definition complex_errors_arithmetic (M : MathLib) : Prop :=
  forall (v w : pyvalue) (e : exc),
    complex_arith_add M v w = Raise e \/ complex_arith_sub M v w = Raise e
    \/ complex_arith_mul M v w = Raise e \/ complex_arith_div M v w = Raise e
    \/ complex_arith_pow M v w = Raise e ->
    isinstance_ValueError e = false.

(** An error that is none of the evaluator's own: no refusal of a node,
    and not the error of a text that does not parse. *)
Definition arithmetic_error (e : exc) : Prop :=
  refusal e = false /\ e <> InvalidExpression.

(** *** The program *)

(** The spelling of a binary operator in the Python grammar. *)
Definition operator_symbol (op : operator) : string :=
  match op with
  | Add => "+" | Sub => "-" | Mult => "*" | MatMult => "@" | Div => "/"
  | Mod => "%" | Pow => "**" | LShift => "<<" | RShift => ">>"
  | BitOr => "|" | BitXor => "^" | BitAnd => "&" | FloorDiv => "//"
  end.

(** A line that is a command of the modes, once stripped. *)
Definition command (B : Builtins) (line : string) : bool :=
  _is_exit B (strip line) || _is_menu B (strip line).

(** What the expression mode writes in answer to a line that is no
    command: nothing for a blank line, the line of the result or of the
    error of the expression; [Raise e] when the result cannot be written. *)
Definition reply (H : Host) (B : Builtins) (line : string) : result (list written) :=
  if String.eqb (strip line) "" then Return []
  else
    match evaluate_expression H (strip line) with
    | Raise e => Return [Text "Erro: "; StrOfExc e; Text newline]
    | Return result => text <- str_of B result ;; Return [text; Text newline]
    end.

(** A line the expression mode answers and goes on after. *)
Definition answered (H : Host) (B : Builtins) (line : string) : bool :=
  negb (command B line)
  && match reply H B line with
     | Return _ => true
     | Raise _ => false
     end.

(** What [_expression_loop] writes for the lines it answers: the prompt
    before each, and the answer. *)
Definition replies (H : Host) (B : Builtins) (lines : list string) : list written :=
  flat_map
    (fun line =>
       Text ">>> " ::
       match reply H B line with
       | Return text => text
       | Raise _ => []
       end)
    lines.

(** What [_parse_number_input] writes for the lines it refuses. *)
Definition refusals (prompt : string) (lines : list string) : list written :=
  flat_map
    (fun _ : string =>
       [Text prompt;
        Text "Entrada inválida. Digite um número, 'menu' ou 'sair'.";
        Text newline])
    lines.

(** The three lines of [_print_header]. *)
Definition header : list written :=
  [Text "Calculadora Simples (segura)"; Text newline;
   Text "Suporta: +, -, *, /, //, %, ** e parênteses"; Text newline;
   Text "Comandos: 'menu' volta ao menu, 'sair'|'quit'|'exit'|'q' encerra";
   Text newline].

Definition menu_prompt : written :=
  Text "Escolha o modo: [1] Guiado | [2] Expressão > ".

Definition expression_banner : list written :=
  [Text "Modo expressão: digite expressões. ('menu' volta, 'sair' encerra)";
   Text newline].

Definition guided_banner : list written :=
  [Text "Modo guiado: informe números e operação. ('menu' volta, 'sair' encerra)";
   Text newline].

(** A line [_parse_number_input] refuses and asks again after: no command,
    and no number ([float] raises ValueError). *)
Definition refused (B : Builtins) (line : string) : bool :=
  negb (command B line)
  && match parse_number B (strip line) with
     | Raise e => isinstance_ValueError e
     | Return _ => false
     end.

(** An exception that ends a mode: no KeyError, and SystemExit with the
    status 0 only. *)
Definition ends_mode (r : raised) : Prop :=
  match r with
  | SystemExit status => status = 0
  | KeyError _ => False
  | _ => True
  end.

(** A line that is no choice of the menu of [main]: no exit command, and
    neither of the two modes. *)
Definition unknown_choice (B : Builtins) (line : string) : bool :=
  negb (_is_exit B (strip line))
  && negb (set_in (strip line) ["1"; "g"; "G"])
  && negb (set_in (strip line) ["2"; "e"; "E"]).

(** What [main] writes for the choices it does not know. *)
Definition menu_answers (lines : list string) : list written :=
  flat_map
    (fun _ : string =>
       [menu_prompt;
        Text "Opção inválida. Digite 1 (Guiado), 2 (Expressão) ou 'sair'.";
        Text newline])
    lines.

(** *** Loops *)

(** A body that reads before it goes round again, and that ends. *)
Definition consuming {A : Type} (body : io (control A)) : Prop :=
  forall w,
    match body w with
    | (Done Continue, w') => (List.length (stdin w') < List.length (stdin w))%nat
    | (Unfinished, _) => False
    | _ => True
    end.

(** What is left to read is the end of what there was. *)
Definition later (w w' : console) : Prop :=
  exists read, stdin w = (read ++ stdin w')%list.

(** A function that writes [text] on the standard output, reads nothing
    and returns. *)
Definition writes (c : io unit) (text : list written) : Prop :=
  forall w, c w = (Done tt, Console (stdin w) (stdout w ++ text)%list (stderr w)).

(** * Properties *)

Import SafeEvaluator.

(** ** Unfolding the evaluator *)

Lemma bind_Return (A B : Type) (r : result A) (k : A -> result B) (b : B) :
  bind r k = Return b -> exists a, r = Return a /\ k a = Return b.
Proof.
  destruct r as [a | e]; simpl; intros Hk.
  - exists a. split; [reflexivity | exact Hk].
  - discriminate Hk.
Qed.

Lemma visit_Expression_eq (M : MathLib) (body : node) :
  visit M (Expression body) = visit M body.
Proof. reflexivity. Qed.

Lemma visit_BinOp_eq (M : MathLib) (l r : node) (op : operator) :
  visit M (BinOp l op r) =
  (left' <- visit M l ;;
   right' <- visit M r ;;
   match dict_get operator_beq op (_binary_operators M) with
   | None => Raise (ValueError "Operador binário não suportado")
   | Some func => func left' right'
   end).
Proof. reflexivity. Qed.

Lemma visit_UnaryOp_eq (M : MathLib) (op : unaryop) (operand : node) :
  visit M (UnaryOp op operand) =
  (operand' <- visit M operand ;;
   match dict_get unaryop_beq op _unary_operators with
   | None => Raise (ValueError "Operador unário não suportado")
   | Some func => func operand'
   end).
Proof. reflexivity. Qed.

(** [op_type not in self._binary_operators] is the test of the whitelist. *)
Lemma binary_table_whitelist (M : MathLib) (op : operator) :
  allowed_binary op = false <-> dict_get operator_beq op (_binary_operators M) = None.
Proof.
  destruct op; simpl; split; intros Hop; try reflexivity; discriminate Hop.
Qed.

Lemma unary_table_whitelist (op : unaryop) :
  allowed_unary op = false <-> dict_get unaryop_beq op _unary_operators = None.
Proof.
  destruct op; simpl; split; intros Hop; try reflexivity; discriminate Hop.
Qed.

(** What each whitelisted operator is mapped to. *)
Lemma binary_table_lookup (M : MathLib) (op : operator) :
  dict_get operator_beq op (_binary_operators M) =
  match op with
  | Add => Some (operator_add M)
  | Sub => Some (operator_sub M)
  | Mult => Some (operator_mul M)
  | Div => Some (operator_truediv M)
  | FloorDiv => Some operator_floordiv
  | Mod => Some operator_mod
  | Pow => Some (operator_pow M)
  | _ => None
  end.
Proof. destruct op; reflexivity. Qed.

Lemma visit_BinOp_values (M : MathLib) (l r : node) (op : operator) (vl vr : pyvalue) :
  visit M l = Return vl ->
  visit M r = Return vr ->
  visit M (BinOp l op r) =
  match dict_get operator_beq op (_binary_operators M) with
  | None => Raise (ValueError "Operador binário não suportado")
  | Some func => func vl vr
  end.
Proof.
  intros Hl Hr. rewrite visit_BinOp_eq, Hl, Hr. reflexivity.
Qed.

Lemma evaluate_expression_parsed (H : Host) (text : string) (tree : node) :
  ast_parse H text = Return tree ->
  evaluate_expression H text = visit (mathlib H) tree.
Proof.
  intros Hparse. unfold evaluate_expression, evaluate_expression_with.
  rewrite Hparse. reflexivity.
Qed.

(** The evaluation of a text that parses to a binary operation whose
    operands have values: what is left is the operator applied to them. *)
Ltac evaluate_binop Hparse Hl Hr :=
  rewrite (evaluate_expression_parsed _ _ _ Hparse), visit_Expression_eq,
    (visit_BinOp_values _ _ _ _ _ _ Hl Hr), binary_table_lookup.

(** ** The whitelist is enforced (C1) *)

Lemma visit_Return_whitelisted (M : MathLib) (tree : node) (v : pyvalue) :
  visit M tree = Return v -> whitelisted tree = true.
Proof.
  revert v.
  induction tree as [body IH | l IHl op r IHr | op operand IH | value | n | cls children];
    intros v Hv.
  - rewrite visit_Expression_eq in Hv. simpl. exact (IH v Hv).
  - rewrite visit_BinOp_eq in Hv.
    apply bind_Return in Hv. destruct Hv as [vl [Hl Hv]].
    apply bind_Return in Hv. destruct Hv as [vr [Hr Hv]].
    simpl. rewrite (IHl vl Hl), (IHr vr Hr).
    destruct (allowed_binary op) eqn:Hop; [reflexivity | ].
    apply (binary_table_whitelist M) in Hop. rewrite Hop in Hv. discriminate Hv.
  - rewrite visit_UnaryOp_eq in Hv.
    apply bind_Return in Hv. destruct Hv as [vo [Ho Hv]].
    simpl. rewrite (IH vo Ho).
    destruct (allowed_unary op) eqn:Hop; [reflexivity | ].
    apply unary_table_whitelist in Hop. rewrite Hop in Hv. discriminate Hv.
  - destruct value; simpl in Hv; try discriminate Hv; reflexivity.
  - destruct n; simpl in Hv; try discriminate Hv; reflexivity.
  - discriminate Hv.
Qed.

Lemma not_whitelisted_Raise (M : MathLib) (tree : node) :
  whitelisted tree = false -> exists e, visit M tree = Raise e.
Proof.
  intros Hw. destruct (visit M tree) as [v | e] eqn:Hv.
  - apply visit_Return_whitelisted in Hv. rewrite Hv in Hw. discriminate Hw.
  - exists e. reflexivity.
Qed.

(** C1.  When the tree that [ast.parse] builds for the input has a node
    outside the whitelist (numeric literals, the seven binary operators,
    unary plus and minus) anywhere the evaluator reads, [evaluate_expression]
    raises.  Whenever it returns a value, the input has parsed and every
    node of its tree is whitelisted; and so is every node of any tree, or
    part of a tree, for which [visit] returns a value: no operator is ever
    applied to the value of anything else. *)
Theorem C1_whitelist_enforced (H : Host) (text : string) :
  (forall tree,
      ast_parse H text = Return tree ->
      whitelisted tree = false ->
      exists e, evaluate_expression H text = Raise e)
  /\ (forall v,
      evaluate_expression H text = Return v ->
      exists tree, ast_parse H text = Return tree /\ whitelisted tree = true)
  /\ (forall n v, visit (mathlib H) n = Return v -> whitelisted n = true).
Proof.
  split; [ | split].
  - intros tree Hparse Hw.
    rewrite (evaluate_expression_parsed H text tree Hparse).
    exact (not_whitelisted_Raise (mathlib H) tree Hw).
  - intros v Hv. unfold evaluate_expression, evaluate_expression_with in Hv.
    destruct (ast_parse H text) as [tree | e].
    + exists tree. split; [reflexivity | ].
      exact (visit_Return_whitelisted _ _ _ Hv).
    + destruct (isinstance_SyntaxError e); discriminate Hv.
  - intros n v Hv. exact (visit_Return_whitelisted _ _ _ Hv).
Qed.

Lemma C1_whitelist_enforced_witness :
  ast_parse sample_host "print(1)" =
    Return (Expression (OtherNode Call [OtherNode Name []; Constant (CInt 1)]))
  /\ whitelisted (Expression (OtherNode Call [OtherNode Name []; Constant (CInt 1)])) = false
  /\ exists e, evaluate_expression sample_host "print(1)" = Raise e.
Proof.
  split; [reflexivity | split; [reflexivity | ]].
  apply (proj1 (C1_whitelist_enforced sample_host "print(1)") _ eq_refl).
  reflexivity.
Defined.

(** ** Errors reach the caller unchanged *)

Lemma reached_Raise (M : MathLib) (tree n : node) (e : exc) :
  reached M tree n -> visit M n = Raise e -> visit M tree = Raise e.
Proof.
  intros Hreach Hn.
  induction Hreach as [n | body n _ IH | l r op n _ IH | l r op n v Hl _ IH | op operand n _ IH].
  - exact Hn.
  - rewrite visit_Expression_eq. exact (IH Hn).
  - rewrite visit_BinOp_eq, (IH Hn). reflexivity.
  - rewrite visit_BinOp_eq, Hl, (IH Hn). reflexivity.
  - rewrite visit_UnaryOp_eq, (IH Hn). reflexivity.
Qed.

Lemma evaluate_expression_Raise (H : Host) (text : string) (tree n : node) (e : exc) :
  ast_parse H text = Return tree ->
  reached (mathlib H) tree n ->
  visit (mathlib H) n = Raise e ->
  evaluate_expression H text = Raise e.
Proof.
  intros Hparse Hreach Hn.
  rewrite (evaluate_expression_parsed H text tree Hparse).
  exact (reached_Raise _ _ _ _ Hreach Hn).
Qed.

Lemma contains_bool_not_whitelisted (tree : node) :
  contains_bool tree = true -> whitelisted tree = false.
Proof.
  induction tree as [body IH | l IHl op r IHr | op operand IH | value | n | cls children];
    simpl; intros Hb.
  - exact (IH Hb).
  - apply orb_true_iff in Hb. destruct Hb as [Hb | Hb].
    + rewrite (IHl Hb). reflexivity.
    + rewrite (IHr Hb). apply andb_false_r.
  - rewrite (IH Hb). apply andb_false_r.
  - destruct value; try discriminate Hb; reflexivity.
  - destruct n; try discriminate Hb; reflexivity.
  - reflexivity.
Qed.

(** ** Boolean literals (C7) *)

(** C7, as the code has it.  A boolean literal is never taken for a number:
    when the evaluation reaches one it raises the ValueError
    "Valores booleanos não são permitidos", and a tree with a boolean
    literal in it never evaluates to a value.  (The error that reaches the
    caller is another one when an operand visited before the literal
    raises first.) *)
Theorem C7_boolean_literal_rejected (H : Host) (text : string) (tree : node) :
  ast_parse H text = Return tree ->
  contains_bool tree = true ->
  (exists e, evaluate_expression H text = Raise e)
  /\ (forall b, reached (mathlib H) tree (Constant (CBool b)) ->
        evaluate_expression H text = Raise (ValueError "Valores booleanos não são permitidos")).
Proof.
  intros Hparse Hb. split.
  - rewrite (evaluate_expression_parsed H text tree Hparse).
    apply not_whitelisted_Raise.
    exact (contains_bool_not_whitelisted tree Hb).
  - intros b Hreach.
    exact (evaluate_expression_Raise H text tree _ _ Hparse Hreach eq_refl).
Qed.

Lemma C7_boolean_literal_rejected_witness :
  ast_parse sample_host "True + 1" =
    Return (Expression (BinOp (Constant (CBool true)) Add (Constant (CInt 1))))
  /\ contains_bool (Expression (BinOp (Constant (CBool true)) Add (Constant (CInt 1)))) = true
  /\ evaluate_expression sample_host "True + 1" =
       Raise (ValueError "Valores booleanos não são permitidos").
Proof.
  split; [reflexivity | split; [reflexivity | ]].
  apply (proj2 (C7_boolean_literal_rejected sample_host "True + 1" _ eq_refl eq_refl) true).
  apply reached_body, reached_left, reached_root.
Defined.

(** C7 as the specification words it fails on ["1 / 0 + True"]: the left
    operand is visited first and its division raises, so the caller gets
    ZeroDivisionError and not the rejection of the literal. *)
Lemma C7_counterexample :
  ast_parse sample_host "1 / 0 + True" =
    Return (Expression (BinOp (BinOp (Constant (CInt 1)) Div (Constant (CInt 0))) Add
                              (Constant (CBool true))))
  /\ evaluate_expression sample_host "1 / 0 + True" = Raise ZeroDivisionError.
Proof. split; reflexivity. Qed.

(** ** What the rejection names (C8) *)

Lemma generic_visit_names_class (cls : node_class) :
  is_infix (class_name cls)
           ("Expressão contém elemento não permitido: " ++ class_name cls) = true.
Proof. destruct cls; reflexivity. Qed.

(** C8, as the code has it.  Every construct outside the whitelist that the
    evaluation reaches ends it with a ValueError.  For a node of a class
    without a [visit_] method the message names the class
    ([generic_visit]).  For a binary or a unary operator outside the tables
    and for a constant that is no number the message is a fixed one: it
    says which kind of construct was refused, and does not name it. *)
Theorem C8_rejection_message (H : Host) (text : string) (tree : node) :
  ast_parse H text = Return tree ->
  (forall cls children,
      reached (mathlib H) tree (OtherNode cls children) ->
      evaluate_expression H text =
        Raise (ValueError ("Expressão contém elemento não permitido: " ++ class_name cls))
      /\ is_infix (class_name cls)
           ("Expressão contém elemento não permitido: " ++ class_name cls) = true)
  /\ (forall l r op vl vr,
      reached (mathlib H) tree (BinOp l op r) ->
      visit (mathlib H) l = Return vl ->
      visit (mathlib H) r = Return vr ->
      allowed_binary op = false ->
      evaluate_expression H text = Raise (ValueError "Operador binário não suportado"))
  /\ (forall op operand v,
      reached (mathlib H) tree (UnaryOp op operand) ->
      visit (mathlib H) operand = Return v ->
      allowed_unary op = false ->
      evaluate_expression H text = Raise (ValueError "Operador unário não suportado"))
  /\ (forall value,
      reached (mathlib H) tree (Constant value) ->
      numeric_literal value = false ->
      evaluate_expression H text =
        Raise (ValueError (match value with
                           | CBool _ => "Valores booleanos não são permitidos"
                           | _ => "Apenas números são permitidos"
                           end))).
Proof.
  intros Hparse. split; [ | split; [ | split]].
  - intros cls children Hreach. split.
    + exact (evaluate_expression_Raise H text tree _ _ Hparse Hreach eq_refl).
    + apply generic_visit_names_class.
  - intros l r op vl vr Hreach Hl Hr Hop.
    apply (evaluate_expression_Raise H text tree _ _ Hparse Hreach).
    rewrite (visit_BinOp_values _ _ _ _ _ _ Hl Hr).
    apply (binary_table_whitelist (mathlib H)) in Hop. rewrite Hop. reflexivity.
  - intros op operand v Hreach Ho Hop.
    apply (evaluate_expression_Raise H text tree _ _ Hparse Hreach).
    rewrite visit_UnaryOp_eq, Ho. unfold bind.
    apply unary_table_whitelist in Hop. rewrite Hop. reflexivity.
  - intros value Hreach Hnum.
    apply (evaluate_expression_Raise H text tree _ _ Hparse Hreach).
    destruct value; try discriminate Hnum; reflexivity.
Qed.

Lemma C8_rejection_message_witness :
  ast_parse sample_host "abc + 2" =
    Return (Expression (BinOp (OtherNode Name []) Add (Constant (CInt 2))))
  /\ evaluate_expression sample_host "abc + 2" =
       Raise (ValueError "Expressão contém elemento não permitido: Name")
  /\ ast_parse sample_host "~1" = Return (Expression (UnaryOp Invert (Constant (CInt 1))))
  /\ evaluate_expression sample_host "~1" =
       Raise (ValueError "Operador unário não suportado").
Proof.
  split; [reflexivity | split; [ | split; [reflexivity | ]]].
  - apply (proj1 (C8_rejection_message sample_host "abc + 2" _ eq_refl) Name []).
    apply reached_body, reached_left, reached_root.
  - apply (proj1 (proj2 (proj2 (C8_rejection_message sample_host "~1" _ eq_refl)))
             Invert (Constant (CInt 1)) (PyInt 1)).
    + apply reached_body, reached_root.
    + reflexivity.
    + reflexivity.
Defined.

(** C8 as the specification words it fails on ["1 | 2"]: [visit_BinOp]
    refuses the operator with a message that has neither the name of its
    class, [BitOr], nor its symbol in it. *)
Lemma C8_counterexample :
  ast_parse sample_host "1 | 2" =
    Return (Expression (BinOp (Constant (CInt 1)) BitOr (Constant (CInt 2))))
  /\ evaluate_expression sample_host "1 | 2" =
       Raise (ValueError "Operador binário não suportado")
  /\ is_infix (operator_class_name BitOr) "Operador binário não suportado" = false
  /\ is_infix "|" "Operador binário não suportado" = false.
Proof. repeat split; reflexivity. Qed.

(** ** Rounding an integer to a float *)

(** The mantissa that [binary_round_aux] is left with is positive when the
    number rounded is no smaller than the least subnormal: the result is a
    finite float or an infinity, of the sign given. *)

Lemma digits2_pos_size (p : positive) : digits2_pos p = Pos.size p.
Proof. induction p as [p IH | p IH | ]; simpl; rewrite ?IH; reflexivity. Qed.

Lemma Zdigits2_log2 (m : Z) : 0 < m -> Zdigits2 m = Z.log2 m + 1.
Proof.
  destruct m as [ | p | p]; intros Hm; try lia.
  simpl. rewrite digits2_pos_size.
  destruct p as [p | p | ]; simpl; try reflexivity; rewrite Pos2Z.inj_succ; lia.
Qed.

Lemma shr_1_m (mrs : shr_record) :
  0 <= shr_m mrs -> shr_m (shr_1 mrs) = shr_m mrs / 2.
Proof.
  destruct mrs as [m r s]. simpl. intros Hm.
  destruct m as [ | [p | p | ] | p]; simpl; try lia; try reflexivity.
  - rewrite Pos2Z.inj_xI. apply (Z.div_unique _ _ _ 1); lia.
  - rewrite Pos2Z.inj_xO. apply (Z.div_unique _ _ _ 0); lia.
Qed.

Lemma iter_shr_1_m (n : positive) (mrs : shr_record) :
  0 <= shr_m mrs ->
  shr_m (iter_pos shr_1 n mrs) = shr_m mrs / 2 ^ Z.pos n.
Proof.
  revert mrs.
  induction n as [n IH | n IH | ]; intros mrs Hm; simpl iter_pos.
  - assert (H1 : 0 <= shr_m (shr_1 mrs)).
    { rewrite shr_1_m by exact Hm. apply Z.div_pos; lia. }
    assert (H2 : 0 <= shr_m (iter_pos shr_1 n (shr_1 mrs))).
    { rewrite IH by exact H1. apply Z.div_pos; [exact H1 | apply Z.pow_pos_nonneg; lia]. }
    rewrite IH by exact H2. rewrite IH by exact H1. rewrite shr_1_m by exact Hm.
    rewrite !Z.div_div by (first [apply Z.pow_pos_nonneg; lia | apply Z.pow_nonzero; lia | lia]).
    f_equal.
    replace (Z.pos n~1) with (1 + Z.pos n + Z.pos n) by lia.
    rewrite !Z.pow_add_r by lia. lia.
  - assert (H2 : 0 <= shr_m (iter_pos shr_1 n mrs)).
    { rewrite IH by exact Hm. apply Z.div_pos; [exact Hm | apply Z.pow_pos_nonneg; lia]. }
    rewrite IH by exact H2. rewrite IH by exact Hm.
    rewrite Z.div_div by (first [apply Z.pow_pos_nonneg; lia | apply Z.pow_nonzero; lia | lia]).
    f_equal.
    replace (Z.pos n~0) with (Z.pos n + Z.pos n) by lia.
    rewrite Z.pow_add_r by lia. reflexivity.
  - rewrite shr_1_m by exact Hm. reflexivity.
Qed.

Lemma shr_fexp_positive (m e : Z) (l : location) :
  0 < m ->
  emin prec emax < Zdigits2 m + e ->
  0 < shr_m (fst (shr_fexp prec emax m e l))
  /\ emin prec emax < Zdigits2 (shr_m (fst (shr_fexp prec emax m e l)))
                      + snd (shr_fexp prec emax m e l).
Proof.
  intros Hm Hd. unfold shr_fexp, shr.
  assert (Hrec : shr_m (shr_record_of_loc m l) = m).
  { destruct l as [ | [ | | ]]; reflexivity. }
  destruct (fexp prec emax (Zdigits2 m + e) - e) as [ | n | n] eqn:Hn; simpl fst; simpl snd;
    try (rewrite Hrec; split; assumption).
  rewrite iter_shr_1_m by (rewrite Hrec; lia). rewrite Hrec.
  rewrite (Zdigits2_log2 m Hm) in *.
  assert (Hlt : Z.pos n <= Z.log2 m).
  { unfold fexp in Hn. unfold emin, prec, emax in *. lia. }
  assert (Hpow : 2 ^ Z.pos n <= m).
  { apply Z.le_trans with (2 ^ Z.log2 m).
    - apply Z.pow_le_mono_r; lia.
    - apply Z.log2_spec. exact Hm. }
  assert (Hq : 0 < m / 2 ^ Z.pos n).
  { apply Z.div_str_pos. split; [apply Z.pow_pos_nonneg; lia | exact Hpow]. }
  split; [exact Hq | ].
  rewrite (Zdigits2_log2 _ Hq).
  rewrite <- Z.shiftr_div_pow2 by lia.
  rewrite Z.log2_shiftr by exact Hm. lia.
Qed.

Lemma round_nearest_even_ge (m : Z) (l : location) : m <= round_nearest_even m l.
Proof.
  destruct l as [ | [ | | ]]; simpl; try lia.
  destruct (Z.even m); lia.
Qed.

Lemma binary_round_aux_shape (s : bool) (m e : Z) (l : location) :
  0 < m ->
  emin prec emax < Zdigits2 m + e ->
  match binary_round_aux prec emax s m e l with
  | S754_finite s' _ _ | S754_infinity s' => s' = s
  | _ => False
  end.
Proof.
  intros Hm Hd. unfold binary_round_aux.
  destruct (shr_fexp_positive m e l Hm Hd) as [Hm1 Hd1].
  destruct (shr_fexp prec emax m e l) as [mrs1 e1]. simpl fst in *. simpl snd in *.
  set (m2 := round_nearest_even (shr_m mrs1) (loc_of_shr_record mrs1)).
  assert (Hge : shr_m mrs1 <= m2) by apply round_nearest_even_ge.
  assert (Hm2 : 0 < m2) by lia.
  assert (Hd2 : emin prec emax < Zdigits2 m2 + e1).
  { rewrite (Zdigits2_log2 _ Hm2). rewrite (Zdigits2_log2 _ Hm1) in Hd1.
    pose proof (Z.log2_le_mono _ _ Hge). lia. }
  destruct (shr_fexp_positive m2 e1 loc_Exact Hm2 Hd2) as [Hm3 _].
  destruct (shr_fexp prec emax m2 e1 loc_Exact) as [mrs2 e2]. simpl fst in *.
  destruct (shr_m mrs2) as [ | p | p]; try lia.
  destruct (e2 <=? emax - prec); reflexivity.
Qed.

Lemma iter_xO_pow2 (m d : positive) : Z.pos (Pos.iter xO m d) = Z.pos m * 2 ^ Z.pos d.
Proof.
  induction d as [ | d IH] using Pos.peano_ind.
  - simpl. lia.
  - rewrite Pos.iter_succ, Pos2Z.inj_xO, IH, Pos2Z.inj_succ, Z.pow_succ_r by lia. lia.
Qed.

Lemma shl_align_digits (mx : positive) (ex ex' : Z) :
  Zdigits2 (Z.pos (fst (shl_align mx ex ex'))) + snd (shl_align mx ex ex')
  = Zdigits2 (Z.pos mx) + ex.
Proof.
  unfold shl_align. destruct (ex' - ex) as [ | d | d] eqn:Hd; simpl fst; simpl snd;
    try reflexivity.
  rewrite !Zdigits2_log2 by lia.
  rewrite iter_xO_pow2, Z.log2_mul_pow2 by lia. lia.
Qed.

Lemma binary_round_shape (s : bool) (m : positive) :
  match binary_round prec emax s m 0 with
  | S754_finite s' _ _ | S754_infinity s' => s' = s
  | _ => False
  end.
Proof.
  unfold binary_round.
  pose proof (shl_align_digits m 0 (fexp prec emax (Z.pos (digits2_pos m) + 0))) as Hd.
  destruct (shl_align m 0 (fexp prec emax (Z.pos (digits2_pos m) + 0))) as [mz ez].
  simpl fst in Hd. simpl snd in Hd.
  apply binary_round_aux_shape; [lia | ].
  rewrite Hd. simpl Zdigits2. unfold emin, prec, emax. lia.
Qed.

Lemma PyLong_AsDouble_negative (z : Z) (f : spec_float) :
  z < 0 -> PyLong_AsDouble z = Return f -> exists m e, f = S754_finite true m e.
Proof.
  intros Hz. destruct z as [ | p | p]; try lia.
  unfold PyLong_AsDouble, binary_normalize.
  pose proof (binary_round_shape true p) as Hs.
  destruct (binary_round prec emax true p 0) as [s' | s' | | s' m e]; try contradiction;
    intros Hf; inversion Hf; subst. exists m, e. reflexivity.
Qed.

Lemma PyLong_AsDouble_Raise (z : Z) (e : exc) :
  PyLong_AsDouble z = Raise e -> e = OverflowError.
Proof.
  unfold PyLong_AsDouble.
  destruct (binary_normalize prec emax z 0 false); intros He; inversion He; reflexivity.
Qed.

Lemma CONVERT_TO_DOUBLE_zero (v : pyvalue) :
  zero_value v = true -> float_value v = true \/ v = PyInt 0.
Proof.
  destruct v as [z | f | re im]; simpl; intros Hz.
  - right. apply Z.eqb_eq in Hz. subst z. reflexivity.
  - left. reflexivity.
  - discriminate Hz.
Qed.

(** *** No overflow below [2 ** 1023] *)

Lemma Zdigits2_nonneg (m : Z) : 0 <= Zdigits2 m.
Proof. destruct m; simpl; lia. Qed.

Lemma Zdigits2_le (m n : Z) : 0 <= m -> m <= n -> Zdigits2 m <= Zdigits2 n.
Proof.
  intros Hm Hmn. destruct (Z.eq_dec m 0) as [-> | Hz].
  - apply Zdigits2_nonneg.
  - rewrite !Zdigits2_log2 by lia. pose proof (Z.log2_le_mono m n Hmn). lia.
Qed.

Lemma Zdigits2_lt_pow2 (m d : Z) : 0 <= m -> 0 <= d -> m < 2 ^ d -> Zdigits2 m <= d.
Proof.
  intros Hm Hd Hlt. destruct (Z.eq_dec m 0) as [-> | Hz]; [simpl; lia | ].
  rewrite Zdigits2_log2 by lia.
  assert (Z.log2 m < d) by (apply Z.log2_lt_pow2; lia). lia.
Qed.

Lemma Zdigits2_succ (m : Z) : 0 <= m -> Zdigits2 (m + 1) <= Zdigits2 m + 1.
Proof.
  intros Hm. destruct (Z.eq_dec m 0) as [-> | Hz]; [simpl; lia | ].
  apply Zdigits2_lt_pow2; [lia | pose proof (Zdigits2_nonneg m); lia | ].
  rewrite Zdigits2_log2 by lia.
  pose proof (Z.log2_spec m ltac:(lia)) as [_ Hup].
  replace (Z.log2 m + 1 + 1) with (Z.succ (Z.succ (Z.log2 m))) by lia.
  rewrite Z.pow_succ_r by (pose proof (Z.log2_nonneg m); lia).
  lia.
Qed.

Lemma round_nearest_even_le (m : Z) (l : location) : round_nearest_even m l <= m + 1.
Proof.
  destruct l as [ | [ | | ]]; simpl; try lia.
  destruct (Z.even m); lia.
Qed.

(** One step of [binary_round_aux]: the exponent stays under the bound of
    the number's magnitude. *)
Lemma shr_fexp_bound (m e B : Z) (l : location) :
  0 <= m ->
  Zdigits2 m + e <= B ->
  e <= B - prec ->
  emin prec emax <= B - prec ->
  0 <= shr_m (fst (shr_fexp prec emax m e l))
  /\ Zdigits2 (shr_m (fst (shr_fexp prec emax m e l))) + snd (shr_fexp prec emax m e l) <= B
  /\ snd (shr_fexp prec emax m e l) <= B - prec.
Proof.
  intros Hm Hd He Hmin. unfold shr_fexp, shr.
  assert (Hrec : shr_m (shr_record_of_loc m l) = m).
  { destruct l as [ | [ | | ]]; reflexivity. }
  destruct (fexp prec emax (Zdigits2 m + e) - e) as [ | n | n] eqn:Hn; simpl fst; simpl snd;
    try (rewrite Hrec; repeat split; assumption).
  rewrite iter_shr_1_m by (rewrite Hrec; lia). rewrite Hrec.
  assert (Hq : 0 <= m / 2 ^ Z.pos n) by (apply Z.div_pos; [lia | apply Z.pow_pos_nonneg; lia]).
  assert (Hfexp : e + Z.pos n <= B - prec).
  { unfold fexp in Hn. lia. }
  split; [exact Hq | split; [ | exact Hfexp]].
  destruct (Z.eq_dec (m / 2 ^ Z.pos n) 0) as [Hz | Hz].
  - rewrite Hz. simpl Zdigits2. unfold prec in *. lia.
  - assert (Hmpos : 0 < m).
    { destruct (Z.eq_dec m 0) as [-> | ]; [rewrite Z.div_0_l in Hz by (apply Z.pow_nonzero; lia); lia | lia]. }
    rewrite (Zdigits2_log2 (m / 2 ^ Z.pos n)) by lia.
    rewrite (Zdigits2_log2 m Hmpos) in Hd.
    rewrite <- Z.shiftr_div_pow2 by lia.
    rewrite Z.log2_shiftr by exact Hmpos.
    assert (Hlog : Z.pos n <= Z.log2 m).
    { destruct (Z_le_gt_dec (Z.pos n) (Z.log2 m)) as [Hle | Hgt]; [exact Hle | ].
      exfalso. apply Hz. rewrite <- Z.shiftr_div_pow2 by lia.
      apply Z.shiftr_eq_0; lia. }
    lia.
Qed.

Lemma binary_round_aux_no_overflow (s : bool) (m e : Z) (l : location) :
  0 <= m ->
  Zdigits2 m + e <= emax - 1 ->
  e <= emax - 1 - prec ->
  is_inf (binary_round_aux prec emax s m e l) = false.
Proof.
  intros Hm Hd He. unfold binary_round_aux.
  destruct (shr_fexp_bound m e (emax - 1) l Hm Hd He) as [Hm1 [Hd1 He1]].
  { unfold emin, emax, prec. lia. }
  destruct (shr_fexp prec emax m e l) as [mrs1 e1]. simpl fst in *. simpl snd in *.
  set (m2 := round_nearest_even (shr_m mrs1) (loc_of_shr_record mrs1)).
  pose proof (round_nearest_even_ge (shr_m mrs1) (loc_of_shr_record mrs1)) as Hge.
  pose proof (round_nearest_even_le (shr_m mrs1) (loc_of_shr_record mrs1)) as Hle.
  fold m2 in Hge, Hle.
  assert (Hm2 : 0 <= m2) by lia.
  assert (Hd2 : Zdigits2 m2 + e1 <= emax).
  { pose proof (Zdigits2_le m2 (shr_m mrs1 + 1) Hm2 Hle).
    pose proof (Zdigits2_succ (shr_m mrs1) Hm1). lia. }
  destruct (shr_fexp_bound m2 e1 emax loc_Exact Hm2 Hd2) as [Hm3 [_ He2]].
  { lia. }
  { unfold emin, emax, prec. lia. }
  destruct (shr_fexp prec emax m2 e1 loc_Exact) as [mrs2 e2]. simpl fst in *. simpl snd in *.
  destruct (shr_m mrs2) as [ | p | p]; try reflexivity.
  apply Z.leb_le in He2. rewrite He2. reflexivity.
Qed.

Lemma shl_align_exponent (mx : positive) (ex ex' : Z) :
  snd (shl_align mx ex ex') <= ex.
Proof.
  unfold shl_align. destruct (ex' - ex) as [ | d | d] eqn:Hd; simpl snd; lia.
Qed.

Lemma Zdigits2_pos_bound (p : positive) (d : Z) :
  Z.pos p < 2 ^ d -> 0 <= d -> Zdigits2 (Z.pos p) <= d.
Proof. intros Hlt Hd. apply Zdigits2_lt_pow2; lia. Qed.

(** An [int] below [2 ** 1023] in absolute value has a float. *)
Lemma PyLong_AsDouble_in_range (z : Z) :
  Z.abs z < 2 ^ (emax - 1) -> exists f, PyLong_AsDouble z = Return f.
Proof.
  intros Hz. unfold PyLong_AsDouble.
  assert (Hinf : is_inf (binary_normalize prec emax z 0 false) = false).
  { destruct z as [ | p | p]; [reflexivity | | ];
      unfold binary_normalize, binary_round;
      pose proof (shl_align_digits p 0 (fexp prec emax (Z.pos (digits2_pos p) + 0))) as Hd;
      pose proof (shl_align_exponent p 0 (fexp prec emax (Z.pos (digits2_pos p) + 0))) as He;
      destruct (shl_align p 0 (fexp prec emax (Z.pos (digits2_pos p) + 0))) as [mz ez];
      simpl fst in Hd; simpl snd in Hd, He;
      (apply binary_round_aux_no_overflow;
       [ lia
       | rewrite Hd; pose proof (Zdigits2_pos_bound p (emax - 1)) as Hb;
         unfold emax in *; simpl Z.abs in Hz; lia
       | unfold emax, prec; lia ]). }
  destruct (binary_normalize prec emax z 0 false) as [s | s | | s m e];
    try discriminate Hinf; eexists; reflexivity.
Qed.

(** The quotient of two [int]s, the dividend below [2 ** 1023] in absolute
    value, rounds to a float. *)
Lemma SFdiv_int_in_range (a b : Z) :
  b <> 0 ->
  Z.abs a < 2 ^ (emax - 1) ->
  is_inf (SFdiv prec emax (Z2SF a) (Z2SF b)) = false.
Proof.
  intros Hb Ha.
  assert (Hcore : forall (sa sb : bool) (ma mb : positive),
             Z.pos ma < 2 ^ (emax - 1) ->
             is_inf (SFdiv prec emax (S754_finite sa ma 0) (S754_finite sb mb 0)) = false).
  { intros sa sb ma mb Hma. unfold SFdiv, SFdiv_core_binary.
    set (e' := Z.min (fexp prec emax (Zdigits2 (Z.pos ma) + 0 - (Zdigits2 (Z.pos mb) + 0))) (0 - 0)).
    assert (He' : e' <= 0) by (unfold e'; lia).
    set (m' := match 0 - 0 - e' with
               | Z.pos _ => Z.shiftl (Z.pos ma) (0 - 0 - e')
               | 0 => Z.pos ma
               | Z.neg _ => 0
               end).
    assert (Hm' : m' = Z.pos ma * 2 ^ (- e')).
    { unfold m'. destruct (0 - 0 - e') as [ | s | s] eqn:Hs; try lia.
      - replace (- e') with 0 by lia. lia.
      - rewrite Z.shiftl_mul_pow2 by lia. f_equal. f_equal. lia. }
    pose proof (Z_div_mod m' (Z.pos mb) ltac:(lia)) as Hdm.
    destruct (Z.div_eucl m' (Z.pos mb)) as [q r]. destruct Hdm as [Hq Hr].
    assert (Hpow : 0 < 2 ^ (- e')) by (apply Z.pow_pos_nonneg; lia).
    assert (Hq0 : 0 <= q) by nia.
    assert (Hqm : q <= m') by nia.
    apply binary_round_aux_no_overflow; [exact Hq0 | | unfold emax, prec; lia].
    pose proof (Zdigits2_le q m' Hq0 Hqm) as Hdq.
    assert (Hdm' : Zdigits2 m' <= emax - 1 - e').
    { apply Zdigits2_lt_pow2; [lia | unfold emax; lia | ].
      rewrite Hm'. replace (emax - 1 - e') with (emax - 1 + - e') by lia.
      rewrite Z.pow_add_r by (unfold emax; lia). nia. }
    lia. }
  destruct a as [ | pa | pa]; destruct b as [ | pb | pb]; try contradiction;
    try reflexivity; apply Hcore; simpl Z.abs in Ha; exact Ha.
Qed.

(** ** Division by zero (C3) *)

(** The three float operations convert both operands, then test the
    divisor. *)
Lemma float_division_by_zero (op : operator) (v w : pyvalue) :
  op = Div \/ op = FloorDiv \/ op = Mod ->
  real_value v = true ->
  zero_value w = true ->
  match op with
  | Div => float_div v w
  | FloorDiv => float_floor_div v w
  | _ => float_rem v w
  end = Raise (if int_beyond_float v then OverflowError else ZeroDivisionError).
Proof.
  intros Hop Hv Hw.
  assert (Hcw : exists g, CONVERT_TO_DOUBLE w = Return g /\ is_zero g = true).
  { destruct w as [z | g | re im]; simpl in Hw |- *.
    - apply Z.eqb_eq in Hw. subst z. exists (S754_zero false). split; reflexivity.
    - exists g. split; [reflexivity | exact Hw].
    - discriminate Hw. }
  destruct Hcw as [g [Hcw Hg]].
  assert (Hcv : match CONVERT_TO_DOUBLE v with
                | Return _ => int_beyond_float v = false
                | Raise e => int_beyond_float v = true /\ e = OverflowError
                end).
  { destruct v as [z | f | re im]; simpl in Hv |- *; try reflexivity; try discriminate Hv.
    destruct (PyLong_AsDouble z) as [f | e] eqn:Hz; [reflexivity | ].
    split; [reflexivity | exact (PyLong_AsDouble_Raise z e Hz)]. }
  destruct Hop as [Hop | [Hop | Hop]]; subst op;
    unfold float_div, float_floor_div, float_rem;
    rewrite Hcw; destruct (CONVERT_TO_DOUBLE v) as [f | e];
    simpl bind; try rewrite Hg; try rewrite Hcv;
    try reflexivity; destruct Hcv as [Hb He]; rewrite Hb, He; reflexivity.
Qed.

Lemma float_pow_zero_negative (M : MathLib) (v w : pyvalue) (z0 f : spec_float) :
  CONVERT_TO_DOUBLE v = Return z0 ->
  is_zero z0 = true ->
  CONVERT_TO_DOUBLE w = Return f ->
  SFltb f fzero = true ->
  float_pow M v w =
  if is_inf f then Return (PyFloat (S754_infinity false)) else Raise ZeroDivisionError.
Proof.
  intros Hv Hz Hw Hf. unfold float_pow. rewrite Hv, Hw. simpl bind.
  destruct z0 as [s0 | | | ]; try discriminate Hz.
  destruct f as [s | s | | s m e]; try discriminate Hf;
    destruct s; try discriminate Hf; reflexivity.
Qed.

(** No [int] below [2 ** 1023] in absolute value is beyond the floats. *)
Lemma int_in_float_range (z : Z) :
  Z.abs z < 2 ^ 1023 -> int_beyond_float (PyInt z) = false.
Proof.
  intros Hz. simpl. destruct (PyLong_AsDouble_in_range z Hz) as [f Hf].
  rewrite Hf. reflexivity.
Qed.

(** C3, as the code has it.  For [int] and [float] operands, [/], [//] and
    [%] with a right operand equal to zero raise ZeroDivisionError; so does
    [0 ** e] with [e] negative; no value is returned.  The operands are
    converted before the divisor is tested, and two cases end otherwise: an
    [int] that no float can hold, met with a float, raises OverflowError
    (left of a float zero, or as the exponent), and [0 ** -inf] is [inf]. *)
Theorem C3_division_by_zero (H : Host) (text : string) (l r : node) (op : operator)
    (vl vr : pyvalue) :
  ast_parse H text = Return (Expression (BinOp l op r)) ->
  visit (mathlib H) l = Return vl ->
  visit (mathlib H) r = Return vr ->
  (op = Div \/ op = FloorDiv \/ op = Mod ->
   real_value vl = true ->
   zero_value vr = true ->
   evaluate_expression H text =
     Raise (if int_beyond_float vl && float_value vr
            then OverflowError else ZeroDivisionError))
  /\ (op = Pow ->
      zero_value vl = true ->
      negative_value vr = true ->
      evaluate_expression H text =
        match vr with
        | PyFloat f =>
            if is_inf f then Return (PyFloat (S754_infinity false))
            else Raise ZeroDivisionError
        | _ => Raise (if int_beyond_float vr then OverflowError else ZeroDivisionError)
        end).
Proof.
  intros Hparse Hl Hr.
  evaluate_binop Hparse Hl Hr.
  split.
  - intros Hop Hreal Hzero.
    pose proof (float_division_by_zero op vl vr Hop Hreal Hzero) as Hfloat.
    destruct vl as [a | f | re im]; try discriminate Hreal;
      destruct vr as [b | g | re' im']; try discriminate Hzero;
      destruct Hop as [Hop | [Hop | Hop]]; subst op;
      unfold operator_truediv, operator_floordiv, operator_mod,
        long_true_divide, long_floor_div, long_mod;
      try (simpl in Hzero; rewrite Hzero; rewrite andb_false_r; reflexivity);
      rewrite Hfloat; try rewrite andb_true_r; reflexivity.
  - intros Hop Hzero Hneg. subst op.
    assert (Hcl : exists z0, CONVERT_TO_DOUBLE vl = Return z0 /\ is_zero z0 = true).
    { destruct vl as [a | f | re im]; simpl in Hzero |- *.
      - apply Z.eqb_eq in Hzero. subst a. exists (S754_zero false). split; reflexivity.
      - exists f. split; [reflexivity | exact Hzero].
      - discriminate Hzero. }
    destruct Hcl as [z0 [Hcl Hz0]].
    assert (Hpow : operator_pow (mathlib H) vl vr = float_pow (mathlib H) vl vr).
    { destruct vl as [a | f | re im]; try discriminate Hzero;
        destruct vr as [b | g | re' im']; try discriminate Hneg; try reflexivity.
      simpl in Hneg. unfold operator_pow, long_pow. rewrite Hneg. reflexivity. }
    rewrite Hpow.
    destruct vr as [b | g | re' im']; try discriminate Hneg; simpl in Hneg.
    + simpl int_beyond_float.
      destruct (PyLong_AsDouble b) as [g | e] eqn:Hb.
      * apply Z.ltb_lt in Hneg.
        destruct (PyLong_AsDouble_negative b g Hneg Hb) as [m [e Hg]]. subst g.
        rewrite (float_pow_zero_negative (mathlib H) vl (PyInt b) z0 _ Hcl Hz0 Hb eq_refl).
        reflexivity.
      * unfold float_pow. rewrite Hcl. simpl CONVERT_TO_DOUBLE. rewrite Hb.
        simpl bind. rewrite (PyLong_AsDouble_Raise b e Hb). reflexivity.
    + exact (float_pow_zero_negative (mathlib H) vl (PyFloat g) z0 g Hcl Hz0 eq_refl Hneg).
Qed.

Lemma C3_division_by_zero_witness :
  evaluate_expression sample_host "2 / 0" = Raise ZeroDivisionError
  /\ evaluate_expression sample_host "2.5 // 0" = Raise ZeroDivisionError
  /\ evaluate_expression sample_host "2 % 0.0" = Raise ZeroDivisionError
  /\ evaluate_expression sample_host "0 ** -1" = Raise ZeroDivisionError.
Proof.
  split; [ | split; [ | split]].
  - apply (proj1 (C3_division_by_zero sample_host "2 / 0"
                    (Constant (CInt 2)) (Constant (CInt 0)) Div (PyInt 2) (PyInt 0)
                    eq_refl eq_refl eq_refl));
      [left; reflexivity | reflexivity | reflexivity].
  - apply (proj1 (C3_division_by_zero sample_host "2.5 // 0"
                    (Constant (CFloat (Grammar.decimal 25 1))) (Constant (CInt 0)) FloorDiv
                    (PyFloat (Grammar.decimal 25 1)) (PyInt 0)
                    eq_refl eq_refl eq_refl));
      [right; left; reflexivity | reflexivity | reflexivity].
  - apply (proj1 (C3_division_by_zero sample_host "2 % 0.0"
                    (Constant (CInt 2)) (Constant (CFloat (Grammar.decimal 0 1))) Mod
                    (PyInt 2) (PyFloat (Grammar.decimal 0 1))
                    eq_refl eq_refl eq_refl));
      [right; right; reflexivity | reflexivity | reflexivity].
  - apply (proj2 (C3_division_by_zero sample_host "0 ** -1"
                    (Constant (CInt 0)) (UnaryOp USub (Constant (CInt 1))) Pow
                    (PyInt 0) (PyInt (-1))
                    eq_refl eq_refl eq_refl));
      reflexivity.
Defined.

(** C3 as the specification words it fails on two inputs.  In
    [10**400 / 0.0], written with the literal of [10**400], the left operand
    is converted to a float before the divisor is looked at, and the
    conversion raises OverflowError.  In [0 ** -1e999] the exponent is
    [-inf], and [float.__pow__] returns [inf]: a value. *)
Lemma C3_counterexample :
  evaluate_expression sample_host (power_of_ten_literal 400 ++ " / 0.0")
    = Raise OverflowError
  /\ evaluate_expression sample_host "0 ** -1e999" = Return (PyFloat (S754_infinity false)).
Proof. split; vm_compute; reflexivity. Qed.

(** ** True division (C4) *)

(** C4, as the code has it.  For [int] operands [a] and [b], [b] not zero,
    [a / b] never evaluates to an [int]: it is the float nearest to the
    quotient, also when [b] divides [a], and OverflowError when the quotient
    is beyond the range of floats.  It is a float for every [a] below
    [2 ** 1023] in absolute value. *)
Theorem C4_true_division_is_float (H : Host) (text : string) (l r : node) (a b : Z) :
  ast_parse H text = Return (Expression (BinOp l Div r)) ->
  visit (mathlib H) l = Return (PyInt a) ->
  visit (mathlib H) r = Return (PyInt b) ->
  b <> 0 ->
  (forall z, evaluate_expression H text <> Return (PyInt z))
  /\ evaluate_expression H text =
       match SFdiv prec emax (Z2SF a) (Z2SF b) with
       | S754_infinity _ => Raise OverflowError
       | quotient => Return (PyFloat quotient)
       end
  /\ (Z.abs a < 2 ^ 1023 ->
      exists f, evaluate_expression H text = Return (PyFloat f)).
Proof.
  intros Hparse Hl Hr Hb.
  evaluate_binop Hparse Hl Hr.
  unfold operator_truediv, long_true_divide.
  pose proof Hb as Hb'. apply Z.eqb_neq in Hb'. rewrite Hb'.
  split; [ | split; [reflexivity | ]].
  - intros z. destruct (SFdiv prec emax (Z2SF a) (Z2SF b)); discriminate.
  - intros Ha. pose proof (SFdiv_int_in_range a b Hb Ha) as Hfinite.
    destruct (SFdiv prec emax (Z2SF a) (Z2SF b)) as [s | s | | s m e];
      try discriminate Hfinite; eexists; reflexivity.
Qed.

Lemma C4_true_division_is_float_witness :
  evaluate_expression sample_host "4 / 2" =
    Return (PyFloat (S754_finite false 4503599627370496 (-51)))
  /\ forall z, evaluate_expression sample_host "4 / 2" <> Return (PyInt z).
Proof.
  pose proof (C4_true_division_is_float sample_host "4 / 2"
                (Constant (CInt 4)) (Constant (CInt 2)) 4 2
                eq_refl eq_refl eq_refl) as Hq.
  assert (Hb : 2 <> 0) by lia.
  destruct (Hq Hb) as [Hint [Hfloat _]].
  split; [exact Hfloat | exact Hint].
Defined.

(** C4 as the specification words it fails when the quotient is too large
    for a float: [10**400 / 1], written with the literal of [10**400],
    raises OverflowError. *)
Lemma C4_counterexample :
  evaluate_expression sample_host (power_of_ten_literal 400 ++ " / 1")
    = Raise OverflowError.
Proof. vm_compute. reflexivity. Qed.

(** ** Floor division and modulo (C5) *)

(** C5.  For [int] operands [a] and [b], [b] not zero: [a // b] is the floor
    of the rational [a / b]; [a % b] is zero or has the sign of [b], and is
    smaller than [b] in absolute value; and [b * (a // b) + a % b = a]. *)
Theorem C5_floor_division_modulo (H : Host) (text_quotient text_remainder : string)
    (l r : node) (a b : Z) :
  ast_parse H text_quotient = Return (Expression (BinOp l FloorDiv r)) ->
  ast_parse H text_remainder = Return (Expression (BinOp l Mod r)) ->
  visit (mathlib H) l = Return (PyInt a) ->
  visit (mathlib H) r = Return (PyInt b) ->
  b <> 0 ->
  exists q m : Z,
    evaluate_expression H text_quotient = Return (PyInt q)
    /\ evaluate_expression H text_remainder = Return (PyInt m)
    /\ q = Qfloor (inject_Z a / inject_Z b)
    /\ (m = 0 \/ Z.sgn m = Z.sgn b)
    /\ Z.abs m < Z.abs b
    /\ b * q + m = a.
Proof.
  intros Hq Hm Hl Hr Hb.
  exists (a / b), (a mod b).
  rewrite (evaluate_expression_parsed H text_quotient _ Hq).
  rewrite (evaluate_expression_parsed H text_remainder _ Hm).
  rewrite !visit_Expression_eq.
  rewrite !(visit_BinOp_values _ _ _ _ _ _ Hl Hr), !binary_table_lookup.
  unfold operator_floordiv, operator_mod, long_floor_div, long_mod.
  pose proof Hb as Hb'. apply Z.eqb_neq in Hb'. rewrite Hb'.
  split; [reflexivity | split; [reflexivity | split; [ | split; [ | split]]]].
  - apply Zdiv_Qdiv.
  - destruct (Z.lt_total b 0) as [Hneg | [Hzero | Hpos]]; [ | contradiction | ].
    + pose proof (Z.mod_neg_bound a b Hneg). lia.
    + pose proof (Z.mod_pos_bound a b Hpos). lia.
  - destruct (Z.lt_total b 0) as [Hneg | [Hzero | Hpos]]; [ | contradiction | ].
    + pose proof (Z.mod_neg_bound a b Hneg). lia.
    + pose proof (Z.mod_pos_bound a b Hpos). lia.
  - symmetry. apply Z.div_mod. exact Hb.
Qed.

Lemma C5_floor_division_modulo_witness :
  evaluate_expression sample_host "-7 // 2" = Return (PyInt (-4))
  /\ evaluate_expression sample_host "-7 % 2" = Return (PyInt 1)
  /\ exists q m : Z,
       evaluate_expression sample_host "-7 // 2" = Return (PyInt q)
       /\ evaluate_expression sample_host "-7 % 2" = Return (PyInt m)
       /\ q = Qfloor (inject_Z (-7) / inject_Z 2)
       /\ (m = 0 \/ Z.sgn m = Z.sgn 2)
       /\ Z.abs m < Z.abs 2
       /\ 2 * q + m = -7.
Proof.
  split; [reflexivity | split; [reflexivity | ]].
  apply (C5_floor_division_modulo sample_host "-7 // 2" "-7 % 2"
           (UnaryOp USub (Constant (CInt 7))) (Constant (CInt 2)) (-7) 2);
    [reflexivity | reflexivity | reflexivity | reflexivity | lia].
Defined.

(** The remainder of C is another function: it has the sign of the
    dividend. *)
Lemma modulo_is_not_truncating :
  evaluate_expression sample_host "-7 % 2" = Return (PyInt 1) /\ Z.rem (-7) 2 = -1.
Proof. split; reflexivity. Qed.

(** ** Exact integer arithmetic (C10) *)

Lemma visit_int_expr (M : MathLib) (e : int_expr) (z : Z) :
  denotation e = Some z -> visit M (int_expr_node e) = Return (PyInt z).
Proof.
  revert z.
  induction e as [n | n | op e IH | e1 IH1 op e2 IH2]; intros z Hz; simpl in Hz.
  - inversion Hz. reflexivity.
  - inversion Hz. reflexivity.
  - destruct (denotation e) as [z' | ]; [ | discriminate Hz].
    simpl int_expr_node. rewrite visit_UnaryOp_eq, (IH z' eq_refl).
    destruct op; inversion Hz; reflexivity.
  - destruct (denotation e1) as [a | ]; [ | discriminate Hz].
    destruct (denotation e2) as [b | ]; [ | discriminate Hz].
    simpl int_expr_node.
    rewrite (visit_BinOp_values _ _ _ _ _ _ (IH1 a eq_refl) (IH2 b eq_refl)).
    rewrite binary_table_lookup.
    destruct op; simpl int_operator_node; cbv iota;
      unfold operator_add, operator_sub, operator_mul, operator_floordiv,
             operator_mod, operator_pow, long_floor_div, long_mod, long_pow;
      try (inversion Hz; reflexivity);
      match type of Hz with
      | (if ?c then _ else _) = _ => destruct c; inversion Hz; reflexivity
      end.
Qed.

(** C10.  An expression built of integer literals, signs and the operators
    [+ - * // % **], with no zero divisor and no negative exponent,
    evaluates to the integer it denotes: every operation stays in [int],
    whose values are unbounded, and none goes through a float.  So it is
    whether the parser builds [Constant] nodes for the literals or the
    [Num] nodes of Python 3.7, which [visit_Num] hands to
    [visit_Constant]. *)
Theorem C10_exact_integer_arithmetic (H : Host) (text : string) (e : int_expr) (z : Z) :
  ast_parse H text = Return (Expression (int_expr_node e)) ->
  denotation e = Some z ->
  evaluate_expression H text = Return (PyInt z).
Proof.
  intros Hparse Hz.
  rewrite (evaluate_expression_parsed H text _ Hparse), visit_Expression_eq.
  exact (visit_int_expr (mathlib H) e z Hz).
Qed.

Lemma C10_exact_integer_arithmetic_witness :
  (ast_parse sample_host "2 ** 100" =
     Return (Expression (int_expr_node (IBin (ILit 2) IPow (ILit 100))))
   /\ denotation (IBin (ILit 2) IPow (ILit 100)) = Some 1267650600228229401496703205376
   /\ evaluate_expression sample_host "2 ** 100" =
        Return (PyInt 1267650600228229401496703205376))
  /\ (ast_parse num_host "-7 // 2 + 2 ** 100 % 7" =
        Return (Expression (int_expr_node
          (IBin (IBin (ISign USub (INum 7)) IFloorDiv (INum 2)) IAdd
                (IBin (IBin (INum 2) IPow (INum 100)) IMod (INum 7)))))
      /\ denotation
           (IBin (IBin (ISign USub (INum 7)) IFloorDiv (INum 2)) IAdd
                 (IBin (IBin (INum 2) IPow (INum 100)) IMod (INum 7))) = Some (-2)
      /\ evaluate_expression num_host "-7 // 2 + 2 ** 100 % 7" = Return (PyInt (-2))).
Proof.
  split.
  - split; [reflexivity | split; [reflexivity | ]].
    apply (C10_exact_integer_arithmetic sample_host "2 ** 100"
             (IBin (ILit 2) IPow (ILit 100))); reflexivity.
  - split; [reflexivity | split; [reflexivity | ]].
    apply (C10_exact_integer_arithmetic num_host "-7 // 2 + 2 ** 100 % 7"
             (IBin (IBin (ISign USub (INum 7)) IFloorDiv (INum 2)) IAdd
                   (IBin (IBin (INum 2) IPow (INum 100)) IMod (INum 7)))); reflexivity.
Defined.

(** ** A negative base under a fractional exponent (C2) *)

(** What the code does where C2 expects an error.  For a negative finite
    base and a finite exponent that is no integer, [float.__pow__] hands
    the operands to the power of [complex], and [evaluate_expression]
    returns what that returns: a complex number, with no test of the kind
    of the result in between. *)
Theorem C2_complex_power (H : Host) (text : string) (l r : node)
    (vl : pyvalue) (x y : spec_float) :
  ast_parse H text = Return (Expression (BinOp l Pow r)) ->
  visit (mathlib H) l = Return vl ->
  visit (mathlib H) r = Return (PyFloat y) ->
  CONVERT_TO_DOUBLE vl = Return x ->
  SFltb x fzero = true ->
  is_inf x = false ->
  is_integral y = false ->
  evaluate_expression H text = as_complex (complex_arith_pow (mathlib H) vl (PyFloat y)).
Proof.
  intros Hparse Hl Hr Hx Hneg Hfin Hfrac.
  evaluate_binop Hparse Hl Hr.
  assert (Hpow : operator_pow (mathlib H) vl (PyFloat y)
                 = float_pow (mathlib H) vl (PyFloat y)).
  { destruct vl as [a | f | re im]; try reflexivity. discriminate Hx. }
  rewrite Hpow. unfold float_pow. rewrite Hx. simpl bind.
  destruct y as [sy | sy | | sy my ey]; try discriminate Hfrac.
  destruct x as [sx | sx | | sx mx ex]; try discriminate Hneg; try discriminate Hfin.
  destruct sx; try discriminate Hneg.
  cbn [is_zero is_nan is_inf]. cbv iota.
  replace (SFltb (S754_finite true mx ex) fzero) with true by reflexivity.
  rewrite Hfrac. reflexivity.
Qed.

Lemma C2_complex_power_witness :
  evaluate_expression sample_host "(-8) ** 0.5" =
    Return (PyComplex (S754_finite false 7025470172532439 (-105))
                      (S754_finite false 6369051672525773 (-51))).
Proof.
  apply (C2_complex_power sample_host "(-8) ** 0.5"
           (UnaryOp USub (Constant (CInt 8))) (Constant (CFloat fhalf))
           (PyInt (-8)) (S754_finite true 4503599627370496 (-49)) fhalf);
    reflexivity.
Defined.

(** ** The parser of section 4.1 *)

Section GrammarFacts.

Import Grammar.
Local Open Scope list_scope.

(** *** The lexer *)

Lemma lex_Blank (st : lexer_state) (c : ascii) :
  symbol_of c = Blank -> lex st c = Some (flush st, Idle).
Proof. intros Hc. unfold lex. rewrite Hc. reflexivity. Qed.

Lemma tokenize_blank (s : string) : blank s = true -> tokenize s = Some [].
Proof.
  unfold tokenize. induction s as [ | c rest IH]; simpl; intros Hs; [reflexivity | ].
  destruct (symbol_of c) eqn:Hc; try discriminate Hs.
  rewrite (lex_Blank Idle c Hc), (IH Hs). reflexivity.
Qed.

Lemma tokenize_unrecognized (s : string) :
  unrecognized s = true -> forall st, tokenize_from st s = None.
Proof.
  induction s as [ | c rest IH]; simpl; intros Hs st; [discriminate Hs | ].
  unfold lex.
  destruct (symbol_of c) eqn:Hc; try reflexivity;
    destruct st; try reflexivity; rewrite (IH Hs); reflexivity.
Qed.

Lemma nesting_app (a b : list token) (depth : nat) :
  nesting (a ++ b) depth =
  match nesting a depth with
  | Some depth' => nesting b depth'
  | None => None
  end.
Proof.
  revert depth. induction a as [ | t a IH]; intros depth; simpl; [reflexivity | ].
  destruct t; try apply IH. destruct depth as [ | depth']; [reflexivity | apply IH].
Qed.

Lemma nesting_flush (st : lexer_state) (depth : nat) :
  nesting (flush st) depth = Some depth.
Proof. destruct st; reflexivity. Qed.

(** The lexer keeps the parentheses of the text, in their order. *)
Lemma tokenize_nesting (s : string) :
  forall st ts depth,
    tokenize_from st s = Some ts -> nesting ts depth = text_nesting s depth.
Proof.
  induction s as [ | c rest IH]; simpl; intros st ts depth Hts.
  - inversion Hts. apply nesting_flush.
  - destruct (lex st c) as [[out st'] | ] eqn:Hlex; [ | discriminate Hts].
    destruct (tokenize_from st' rest) as [ts' | ] eqn:Hrest; [ | discriminate Hts].
    inversion Hts as [Heq]. clear Hts.
    rewrite nesting_app.
    unfold lex in Hlex.
    destruct (symbol_of c) eqn:Hc;
      try (destruct st; inversion Hlex; subst; simpl;
           exact (IH _ _ _ Hrest));
      try (inversion Hlex; subst; rewrite nesting_app, nesting_flush; simpl;
           try (destruct depth); try reflexivity; exact (IH _ _ _ Hrest)).
Qed.

(** *** What the parser reads *)

Lemma sentence_continuation (c : list token) :
  continuation c -> forall w, sentence w -> sentence (w ++ c).
Proof.
  induction 1 as [ | t w' c Ht Hw' _ IH]; intros w Hw.
  - rewrite app_nil_r. exact Hw.
  - replace (w ++ t :: w' ++ c) with ((w ++ t :: w') ++ c)
      by (rewrite <- app_assoc; reflexivity).
    apply IH. apply sentence_binary; assumption.
Qed.

Lemma and_then_Parsed (p : parsed) (k : node -> list token -> parsed)
    (n : node) (rest : list token) :
  and_then p k = Parsed n rest ->
  exists n1 rest1, p = Parsed n1 rest1 /\ k n1 rest1 = Parsed n rest.
Proof.
  destruct p as [n1 rest1 | | ]; simpl; intros Hk; try discriminate Hk.
  exists n1, rest1. split; [reflexivity | exact Hk].
Qed.

Lemma parse_expr_S (fuel : nat) (ts : list token) :
  parse_expr (S fuel) ts =
  and_then (parse_term fuel ts) (fun lhs rest => parse_expr_rest fuel lhs rest).
Proof. reflexivity. Qed.

Lemma parse_expr_rest_S (fuel : nat) (lhs : node) (ts : list token) :
  parse_expr_rest (S fuel) lhs ts =
  match ts with
  | t :: ts' =>
      match additive t with
      | Some op =>
          and_then (parse_term fuel ts')
            (fun rhs rest => parse_expr_rest fuel (BinOp lhs op rhs) rest)
      | None => Parsed lhs ts
      end
  | [] => Parsed lhs ts
  end.
Proof. reflexivity. Qed.

Lemma parse_term_S (fuel : nat) (ts : list token) :
  parse_term (S fuel) ts =
  and_then (parse_factor fuel ts) (fun lhs rest => parse_term_rest fuel lhs rest).
Proof. reflexivity. Qed.

Lemma parse_term_rest_S (fuel : nat) (lhs : node) (ts : list token) :
  parse_term_rest (S fuel) lhs ts =
  match ts with
  | t :: ts' =>
      match multiplicative t with
      | Some op =>
          and_then (parse_factor fuel ts')
            (fun rhs rest => parse_term_rest fuel (BinOp lhs op rhs) rest)
      | None => Parsed lhs ts
      end
  | [] => Parsed lhs ts
  end.
Proof. reflexivity. Qed.

Lemma parse_factor_S (fuel : nat) (ts : list token) :
  parse_factor (S fuel) ts =
  match ts with
  | t :: ts' =>
      match sign t with
      | Some op =>
          and_then (parse_factor fuel ts')
            (fun operand rest => Parsed (UnaryOp op operand) rest)
      | None => parse_power fuel ts
      end
  | [] => ParseError
  end.
Proof. reflexivity. Qed.

Lemma parse_power_S (fuel : nat) (ts : list token) :
  parse_power (S fuel) ts =
  and_then (parse_atom fuel ts) (fun base rest =>
    match rest with
    | DSTAR :: rest' =>
        and_then (parse_factor fuel rest')
          (fun exponent rest'' => Parsed (BinOp base Pow exponent) rest'')
    | _ => Parsed base rest
    end).
Proof. reflexivity. Qed.

Lemma parse_atom_S (fuel : nat) (ts : list token) :
  parse_atom (S fuel) ts =
  match ts with
  | NUMBER value :: ts' => Parsed (Constant value) ts'
  | LPAREN :: ts' =>
      and_then (parse_expr fuel ts') (fun inner rest =>
        match rest with
        | RPAREN :: rest' => Parsed inner rest'
        | _ => ParseError
        end)
  | _ => ParseError
  end.
Proof. reflexivity. Qed.

Lemma additive_binary (t : token) (op : operator) :
  additive t = Some op -> binary_token t = true.
Proof. destruct t; simpl; intros Hop; try discriminate Hop; reflexivity. Qed.

Lemma multiplicative_binary (t : token) (op : operator) :
  multiplicative t = Some op -> binary_token t = true.
Proof. destruct t; simpl; intros Hop; try discriminate Hop; reflexivity. Qed.

Lemma loop_reads_continuation
    (classify : token -> option operator)
    (operand : list token -> parsed)
    (loop : node -> list token -> parsed)
    (lhs : node) (ts : list token) (n : node) (rest : list token) :
  (forall t op, classify t = Some op -> binary_token t = true) ->
  reads_sentence operand ->
  reads_continuation loop ->
  match ts with
  | t :: ts' =>
      match classify t with
      | Some op => and_then (operand ts') (fun rhs rest => loop (BinOp lhs op rhs) rest)
      | None => Parsed lhs ts
      end
  | [] => Parsed lhs ts
  end = Parsed n rest ->
  exists c, ts = c ++ rest /\ continuation c.
Proof.
  intros Hclass Hoperand Hloop Hparse.
  destruct ts as [ | t ts'].
  - inversion Hparse; subst. exists []. split; [reflexivity | constructor].
  - destruct (classify t) as [op | ] eqn:Hop.
    + apply and_then_Parsed in Hparse. destruct Hparse as [rhs [rest1 [H1 H2]]].
      apply Hoperand in H1. destruct H1 as [w [Hts Hw]].
      apply Hloop in H2. destruct H2 as [c [Hrest1 Hc]].
      exists (t :: w ++ c). split.
      * rewrite Hts, Hrest1. simpl. rewrite <- app_assoc. reflexivity.
      * constructor; [exact (Hclass t op Hop) | exact Hw | exact Hc].
    + inversion Hparse; subst. exists []. split; [reflexivity | constructor].
Qed.

Lemma parser_reads_sentences (fuel : nat) :
  reads_sentence (parse_expr fuel)
  /\ reads_continuation (parse_expr_rest fuel)
  /\ reads_sentence (parse_term fuel)
  /\ reads_continuation (parse_term_rest fuel)
  /\ reads_sentence (parse_factor fuel)
  /\ reads_sentence (parse_power fuel)
  /\ reads_sentence (parse_atom fuel).
Proof.
  induction fuel as [ | fuel IH].
  - unfold reads_sentence, reads_continuation. repeat split; intros; discriminate.
  - destruct IH as [IHexpr [IHexpr_rest [IHterm [IHterm_rest [IHfactor [IHpower IHatom]]]]]].
    repeat split.
    + intros ts n rest Hparse. rewrite parse_expr_S in Hparse.
      apply and_then_Parsed in Hparse. destruct Hparse as [lhs [rest1 [H1 H2]]].
      apply IHterm in H1. destruct H1 as [w [Hts Hw]].
      apply IHexpr_rest in H2. destruct H2 as [c [Hrest1 Hc]].
      exists (w ++ c). split.
      * rewrite Hts, Hrest1, app_assoc. reflexivity.
      * exact (sentence_continuation c Hc w Hw).
    + intros lhs ts n rest Hparse. rewrite parse_expr_rest_S in Hparse.
      exact (loop_reads_continuation additive _ _ lhs ts n rest
               additive_binary IHterm IHexpr_rest Hparse).
    + intros ts n rest Hparse. rewrite parse_term_S in Hparse.
      apply and_then_Parsed in Hparse. destruct Hparse as [lhs [rest1 [H1 H2]]].
      apply IHfactor in H1. destruct H1 as [w [Hts Hw]].
      apply IHterm_rest in H2. destruct H2 as [c [Hrest1 Hc]].
      exists (w ++ c). split.
      * rewrite Hts, Hrest1, app_assoc. reflexivity.
      * exact (sentence_continuation c Hc w Hw).
    + intros lhs ts n rest Hparse. rewrite parse_term_rest_S in Hparse.
      exact (loop_reads_continuation multiplicative _ _ lhs ts n rest
               multiplicative_binary IHfactor IHterm_rest Hparse).
    + intros ts n rest Hparse. rewrite parse_factor_S in Hparse.
      destruct ts as [ | t ts']; [discriminate Hparse | ].
      destruct (sign t) as [op | ] eqn:Hsign.
      * apply and_then_Parsed in Hparse. destruct Hparse as [operand [rest1 [H1 H2]]].
        inversion H2; subst.
        apply IHfactor in H1. destruct H1 as [w [Hts Hw]].
        exists (t :: w). split; [rewrite Hts; reflexivity | ].
        apply sentence_sign; [rewrite Hsign; discriminate | exact Hw].
      * exact (IHpower _ _ _ Hparse).
    + intros ts n rest Hparse. rewrite parse_power_S in Hparse.
      apply and_then_Parsed in Hparse. destruct Hparse as [base [rest1 [H1 H2]]].
      apply IHatom in H1. destruct H1 as [w [Hts Hw]].
      assert (Hplain : Parsed base rest1 = Parsed n rest ->
                       exists w0, ts = w0 ++ rest /\ sentence w0).
      { intros Heq. inversion Heq; subst. exists w. split; [reflexivity | exact Hw]. }
      destruct rest1 as [ | t rest']; [exact (Hplain H2) | ].
      destruct t; try exact (Hplain H2).
      apply and_then_Parsed in H2. destruct H2 as [exponent [rest2 [H2 H3]]].
      assert (Hrest2 : rest2 = rest) by (inversion H3; reflexivity).
      subst rest2.
      apply IHfactor in H2. destruct H2 as [w2 [Hrest' Hw2]].
      exists (w ++ DSTAR :: w2). split.
      * rewrite Hts, Hrest', <- app_assoc. reflexivity.
      * apply sentence_binary; [reflexivity | exact Hw | exact Hw2].
    + intros ts n rest Hparse. rewrite parse_atom_S in Hparse.
      destruct ts as [ | t ts']; [discriminate Hparse | ].
      destruct t; try discriminate Hparse.
      * inversion Hparse; subst. exists [NUMBER value]. split; [reflexivity | constructor].
      * apply and_then_Parsed in Hparse. destruct Hparse as [inner [rest1 [H1 H2]]].
        apply IHexpr in H1. destruct H1 as [w [Hts Hw]].
        destruct rest1 as [ | t rest']; [discriminate H2 | ].
        destruct t; try discriminate H2.
        assert (Hrest : rest' = rest) by (inversion H2; reflexivity).
        subst rest'.
        exists (LPAREN :: w ++ [RPAREN]). split.
        -- rewrite Hts. simpl. rewrite <- app_assoc. reflexivity.
        -- constructor. exact Hw.
Qed.

(** *** What every sentence has *)

Lemma run_app (a b : list token) (p : position) :
  run p (a ++ b) =
  match run p a with
  | Some p' => run p' b
  | None => None
  end.
Proof.
  revert p. induction a as [ | t a IH]; intros p; simpl; [reflexivity | ].
  destruct (step p t) as [p' | ]; [apply IH | reflexivity].
Qed.

Lemma sentence_nesting (w : list token) :
  sentence w -> forall depth, nesting w depth = Some depth.
Proof.
  induction 1 as [value | w _ IH | t w Ht _ IH | w1 t w2 Ht _ IH1 _ IH2]; intros depth.
  - reflexivity.
  - simpl. rewrite nesting_app, IH. reflexivity.
  - destruct t; simpl in Ht; try (exfalso; apply Ht; reflexivity); simpl; apply IH.
  - rewrite nesting_app, IH1.
    destruct t; try discriminate Ht; simpl; apply IH2.
Qed.

Lemma sentence_run (w : list token) :
  sentence w -> run BeforeOperand w = Some AfterOperand.
Proof.
  induction 1 as [value | w _ IH | t w Ht _ IH | w1 t w2 Ht _ IH1 _ IH2].
  - reflexivity.
  - simpl. rewrite run_app, IH. reflexivity.
  - destruct t; simpl in Ht; try (exfalso; apply Ht; reflexivity); simpl; exact IH.
  - rewrite run_app, IH1.
    destruct t; try discriminate Ht; simpl; exact IH2.
Qed.

Lemma sentence_balanced (w : list token) : sentence w -> nesting w 0 = Some 0%nat.
Proof. intros Hw. exact (sentence_nesting w Hw 0%nat). Qed.

Lemma sentence_nonempty (w : list token) : sentence w -> w <> [].
Proof.
  intros Hw Hnil. apply sentence_run in Hw. rewrite Hnil in Hw. discriminate Hw.
Qed.

(** *** The recursion budget *)

Lemma reads_shorter (f : list token -> parsed) (ts : list token) (n : node)
    (rest : list token) :
  reads_sentence f -> f ts = Parsed n rest -> (List.length rest < List.length ts)%nat.
Proof.
  intros Hf Hparse. apply Hf in Hparse. destruct Hparse as [w [Hts Hw]].
  apply sentence_nonempty in Hw. rewrite Hts, List.length_app.
  destruct w as [ | t w]; [contradiction | simpl; lia].
Qed.

Lemma continuation_shorter (f : node -> list token -> parsed) (lhs : node)
    (ts : list token) (n : node) (rest : list token) :
  reads_continuation f -> f lhs ts = Parsed n rest -> (List.length rest <= List.length ts)%nat.
Proof.
  intros Hf Hparse. apply Hf in Hparse. destruct Hparse as [c [Hts _]].
  rewrite Hts, List.length_app. lia.
Qed.

Lemma and_then_fuel (p : parsed) (k : node -> list token -> parsed) :
  p <> OutOfFuel ->
  (forall n rest, p = Parsed n rest -> k n rest <> OutOfFuel) ->
  and_then p k <> OutOfFuel.
Proof.
  intros Hp Hk. destruct p as [n rest | | ]; simpl.
  - apply Hk. reflexivity.
  - discriminate.
  - exact Hp.
Qed.

Lemma parser_fuel (fuel : nat) :
  (forall ts, (6 * List.length ts + 5 <= fuel)%nat -> parse_expr fuel ts <> OutOfFuel)
  /\ (forall lhs ts, (6 * List.length ts + 1 <= fuel)%nat -> parse_expr_rest fuel lhs ts <> OutOfFuel)
  /\ (forall ts, (6 * List.length ts + 4 <= fuel)%nat -> parse_term fuel ts <> OutOfFuel)
  /\ (forall lhs ts, (6 * List.length ts + 1 <= fuel)%nat -> parse_term_rest fuel lhs ts <> OutOfFuel)
  /\ (forall ts, (6 * List.length ts + 3 <= fuel)%nat -> parse_factor fuel ts <> OutOfFuel)
  /\ (forall ts, (6 * List.length ts + 2 <= fuel)%nat -> parse_power fuel ts <> OutOfFuel)
  /\ (forall ts, (6 * List.length ts + 1 <= fuel)%nat -> parse_atom fuel ts <> OutOfFuel).
Proof.
  induction fuel as [ | fuel IH].
  - repeat split; intros; lia.
  - destruct IH
      as [IHexpr [IHexpr_rest [IHterm [IHterm_rest [IHfactor [IHpower IHatom]]]]]].
    destruct (parser_reads_sentences fuel)
      as [Rexpr [Rexpr_rest [Rterm [Rterm_rest [Rfactor [Rpower Ratom]]]]]].
    repeat split.
    + intros ts Hts. rewrite parse_expr_S. apply and_then_fuel.
      * apply IHterm. lia.
      * intros lhs rest Hparse. apply IHexpr_rest.
        pose proof (reads_shorter _ _ _ _ Rterm Hparse). lia.
    + intros lhs ts Hts. rewrite parse_expr_rest_S.
      destruct ts as [ | t ts']; [discriminate | ].
      destruct (additive t) as [op | ]; [ | discriminate].
      simpl List.length in Hts. apply and_then_fuel.
      * apply IHterm. lia.
      * intros rhs rest Hparse. apply IHexpr_rest.
        pose proof (reads_shorter _ _ _ _ Rterm Hparse). lia.
    + intros ts Hts. rewrite parse_term_S. apply and_then_fuel.
      * apply IHfactor. lia.
      * intros lhs rest Hparse. apply IHterm_rest.
        pose proof (reads_shorter _ _ _ _ Rfactor Hparse). lia.
    + intros lhs ts Hts. rewrite parse_term_rest_S.
      destruct ts as [ | t ts']; [discriminate | ].
      destruct (multiplicative t) as [op | ]; [ | discriminate].
      simpl List.length in Hts. apply and_then_fuel.
      * apply IHfactor. lia.
      * intros rhs rest Hparse. apply IHterm_rest.
        pose proof (reads_shorter _ _ _ _ Rfactor Hparse). lia.
    + intros ts Hts. rewrite parse_factor_S.
      destruct ts as [ | t ts']; [discriminate | ].
      simpl List.length in Hts.
      destruct (sign t) as [op | ].
      * apply and_then_fuel; [apply IHfactor; lia | intros; discriminate].
      * apply IHpower. simpl List.length. lia.
    + intros ts Hts. rewrite parse_power_S. apply and_then_fuel.
      * apply IHatom. lia.
      * intros base rest Hparse.
        pose proof (reads_shorter _ _ _ _ Ratom Hparse) as Hshort.
        destruct rest as [ | t rest']; [discriminate | ].
        destruct t; try discriminate.
        simpl List.length in Hshort.
        apply and_then_fuel; [apply IHfactor; lia | intros; discriminate].
    + intros ts Hts. rewrite parse_atom_S.
      destruct ts as [ | t ts']; [discriminate | ].
      destruct t; try discriminate.
      simpl List.length in Hts. apply and_then_fuel.
      * apply IHexpr. lia.
      * intros inner rest Hparse.
        destruct rest as [ | t rest']; [discriminate | ].
        destruct t; discriminate.
Qed.

Lemma parse_expr_fuel (ts : list token) : parse_expr (fuel_for ts) ts <> OutOfFuel.
Proof.
  apply (proj1 (parser_fuel (fuel_for ts))). unfold fuel_for. lia.
Qed.

(** *** Malformed inputs are rejected *)

Lemma parse_Return_sentence (text : string) (tree : node) :
  parse text = Return tree -> exists ts, tokenize text = Some ts /\ sentence ts.
Proof.
  unfold parse. destruct (tokenize text) as [ts | ]; [ | discriminate].
  destruct (parse_expr (fuel_for ts) ts) as [n rest | | ] eqn:Hparse; try discriminate.
  destruct rest as [ | t rest]; [ | discriminate].
  intros _. exists ts. split; [reflexivity | ].
  apply (proj1 (parser_reads_sentences (fuel_for ts))) in Hparse.
  destruct Hparse as [w [Hts Hw]]. rewrite app_nil_r in Hts. subst w. exact Hw.
Qed.

Lemma parse_Raise (text : string) (e : exc) : parse text = Raise e -> e = SyntaxError.
Proof.
  unfold parse. destruct (tokenize text) as [ts | ].
  - destruct (parse_expr (fuel_for ts) ts) as [n [ | t rest] | | ];
      intros He; inversion He; reflexivity.
  - intros He. inversion He. reflexivity.
Qed.

Lemma operand_expected_no_sentence (ts : list token) :
  operand_expected ts -> ~ sentence ts.
Proof.
  intros [before [after [Hts [Hbefore Hafter]]]] Hs.
  apply sentence_run in Hs. rewrite Hts, run_app, Hbefore in Hs.
  destruct after as [ | t after]; [discriminate Hs | ].
  destruct Hafter as [Hbin Hsign].
  destruct t; try discriminate Hbin; try discriminate Hsign; discriminate Hs.
Qed.

Lemma trailing_input_no_sentence (ts : list token) :
  trailing_input ts -> ~ sentence ts.
Proof.
  intros [w [t [after [Hts [Hw Ht]]]]] Hs.
  pose proof (sentence_run _ Hs) as Hrun.
  pose proof (sentence_balanced _ Hs) as Hnest.
  rewrite Hts, run_app, (sentence_run _ Hw) in Hrun.
  rewrite Hts, nesting_app, (sentence_balanced _ Hw) in Hnest.
  destruct t; try discriminate Ht; try discriminate Hrun; discriminate Hnest.
Qed.

(** An input of one of the five kinds of section 4.1 is a parse error. *)
Lemma malformed_rejected (text : string) :
  malformed text -> parse text = Raise SyntaxError.
Proof.
  intros Hbad. destruct (parse text) as [tree | e] eqn:Hparse.
  - exfalso. apply parse_Return_sentence in Hparse.
    destruct Hparse as [ts [Hts Hs]].
    destruct Hbad as [Hblank | [Hunknown | [Hparens | [ts' [Hts' Hplace]]]]].
    + rewrite (tokenize_blank text Hblank) in Hts. inversion Hts; subst.
      exact (sentence_nonempty _ Hs eq_refl).
    + unfold tokenize in Hts. rewrite (tokenize_unrecognized text Hunknown) in Hts.
      discriminate Hts.
    + apply Hparens. rewrite <- (tokenize_nesting text Idle ts 0 Hts).
      exact (sentence_balanced _ Hs).
    + rewrite Hts in Hts'. inversion Hts'; subst ts'.
      destruct Hplace as [Hplace | Hplace].
      * exact (operand_expected_no_sentence _ Hplace Hs).
      * exact (trailing_input_no_sentence _ Hplace Hs).
  - rewrite (parse_Raise text e Hparse). reflexivity.
Qed.

End GrammarFacts.

(** ** Operator precedence (C9) *)

(** C9.  With the parser of section 4.1, ["2 ** 3 ** 2"] is [2 ** (3 ** 2)]
    and evaluates to 512, where [(2 ** 3) ** 2] is 64; so it does on every
    host whose parser groups the input to the right.  For all literals,
    [a ** b ** c] groups to the right, and [**] binds tighter than [*], [/],
    [//] and [%] on either side. *)
Theorem C9_power_right_associative (M : MathLib) :
  evaluate_expression (spec_host M) "2 ** 3 ** 2" = Return (PyInt 512)
  /\ visit M (BinOp (BinOp (Constant (CInt 2)) Pow (Constant (CInt 3))) Pow
                    (Constant (CInt 2))) = Return (PyInt 64)
  /\ (forall a b c,
        Grammar.parse_expr 36 (power_right_of Grammar.DSTAR a b c) =
        Grammar.Parsed (BinOp (Constant a) Pow (BinOp (Constant b) Pow (Constant c))) [])
  /\ Forall (fun '(t, op) =>
        forall a b c,
          Grammar.parse_expr 36 (power_right_of t a b c) =
            Grammar.Parsed (BinOp (Constant a) op (BinOp (Constant b) Pow (Constant c))) []
          /\ Grammar.parse_expr 36 (power_left_of t a b c) =
            Grammar.Parsed (BinOp (BinOp (Constant a) Pow (Constant b)) op (Constant c)) [])
       [ (Grammar.STAR, Mult); (Grammar.SLASH, Div);
         (Grammar.DSLASH, FloorDiv); (Grammar.PERCENT, Mod) ].
Proof.
  split; [reflexivity | split; [reflexivity | split]].
  - intros a b c. reflexivity.
  - repeat constructor.
Qed.

(** The code's half of C9, on any host: when [ast.parse] groups the input
    to the right, the value is 512. *)
Lemma right_grouped_power_is_512 (H : Host) :
  ast_parse H "2 ** 3 ** 2" =
    Return (Expression (BinOp (Constant (CInt 2)) Pow
                              (BinOp (Constant (CInt 3)) Pow (Constant (CInt 2))))) ->
  evaluate_expression H "2 ** 3 ** 2" = Return (PyInt 512).
Proof.
  intros Hparse. rewrite (evaluate_expression_parsed H _ _ Hparse). reflexivity.
Qed.

(** ** Syntax errors (C6) *)

(** C6.  Which texts are malformed is the parser's to say, and the parser
    is [ast.parse].  When it raises on a text, no node is visited: the
    outcome is the same with any visitor in the place of
    [SafeEvaluator.visit].  It is the ValueError "Expressão inválida" when
    the exception is a SyntaxError (or of a subclass of it), and the
    exception of the parser itself when it is of another class. *)
Theorem C6_malformed_input_rejected (H : Host) (text : string) (e : exc) :
  ast_parse H text = Raise e ->
  (isinstance_SyntaxError e = true ->
     evaluate_expression H text = Raise InvalidExpression)
  /\ (isinstance_SyntaxError e = false ->
       evaluate_expression H text = Raise e)
  /\ (forall evaluator_visit : node -> result pyvalue,
       evaluate_expression_with (ast_parse H) evaluator_visit text =
       evaluate_expression H text).
Proof.
  intros Hparse.
  unfold evaluate_expression, evaluate_expression_with. rewrite Hparse.
  split; [ | split].
  - intros He. rewrite He. reflexivity.
  - intros He. rewrite He. reflexivity.
  - intros evaluator_visit. reflexivity.
Qed.

Lemma C6_malformed_input_rejected_witness :
  Forall (fun text =>
            ast_parse sample_host text = Raise SyntaxError
            /\ evaluate_expression sample_host text = Raise InvalidExpression
            /\ evaluate_expression_with (ast_parse sample_host)
                 (fun _ => Return (PyInt 0)) text = Raise InvalidExpression)
         [ "2 +"; "(2 + 3"; "" ].
Proof.
  repeat apply Forall_cons; try apply Forall_nil;
    match goal with
    | |- _ /\ evaluate_expression _ ?text = _ /\ _ =>
        destruct (C6_malformed_input_rejected sample_host text SyntaxError eq_refl)
          as [Hsyntax [_ Hvisit]];
        split; [reflexivity | split; [ | rewrite Hvisit]]; exact (Hsyntax eq_refl)
    end.
Defined.

(** Two texts with a character that is no part of a token of section 4.1,
    which the parser of that section rejects and [ast.parse] does not:
    ["1e3"] is a float literal and evaluates to 1000.0, and ["abc + 2"] has
    a name, which the evaluator visits and refuses with an error of its
    own. *)
Lemma C6_counterexample :
  (Grammar.unrecognized "1e3" = true
   /\ Grammar.parse "1e3" = Raise SyntaxError
   /\ evaluate_expression sample_host "1e3" =
        Return (PyFloat (S754_finite false 8796093022208000 (-43))))
  /\ (Grammar.unrecognized "abc + 2" = true
      /\ Grammar.parse "abc + 2" = Raise SyntaxError
      /\ evaluate_expression sample_host "abc + 2" =
           Raise (ValueError "Expressão contém elemento não permitido: Name")
      /\ evaluate_expression sample_host "abc + 2" <> Raise InvalidExpression).
Proof.
  repeat split; try reflexivity. discriminate.
Qed.

(** The malformed inputs of section 8 of the specification, and one of
    each kind of section 4.1. *)
Lemma malformed_examples :
  Grammar.malformed "" /\ Grammar.malformed "   " /\ Grammar.malformed "2 $ 3"
  /\ Grammar.malformed "(2 + 3" /\ Grammar.malformed "2 + 3)"
  /\ Grammar.malformed "2 +" /\ Grammar.malformed "2 * / 3" /\ Grammar.malformed "2 3".
Proof.
  repeat split.
  - left. reflexivity.
  - left. reflexivity.
  - right. left. reflexivity.
  - right. right. left. unfold Grammar.unbalanced. simpl. discriminate.
  - right. right. left. unfold Grammar.unbalanced. simpl. discriminate.
  - right. right. right. eexists. split; [reflexivity | left].
    exists [Grammar.NUMBER (CInt 2); Grammar.PLUS], []. repeat split.
  - right. right. right. eexists. split; [reflexivity | left].
    exists [Grammar.NUMBER (CInt 2); Grammar.STAR],
           [Grammar.SLASH; Grammar.NUMBER (CInt 3)]. repeat split.
  - right. right. right. eexists. split; [reflexivity | right].
    exists [Grammar.NUMBER (CInt 2)], (Grammar.NUMBER (CInt 3)), []. repeat split.
    constructor.
Qed.
(** * More of the evaluator *)

(** ** Unary signs *)

Lemma SFopp_involutive (f : spec_float) : SFopp (SFopp f) = f.
Proof. destruct f; simpl; rewrite ?negb_involutive; reflexivity. Qed.

Lemma operator_neg_involutive (v : pyvalue) :
  (w <- operator_neg v ;; operator_neg w) = Return v.
Proof.
  destruct v; simpl; rewrite ?Z.opp_involutive, ?SFopp_involutive; reflexivity.
Qed.

(** X1.  A unary plus changes nothing and two unary minus signs cancel:
    [+e] and [- - e] evaluate as [e] does, to the same value or the same
    error, for every tree [e]. *)
Theorem unary_signs_cancel (M : MathLib) (e : node) :
  visit M (UnaryOp UAdd e) = visit M e
  /\ visit M (UnaryOp USub (UnaryOp USub e)) = visit M e.
Proof.
  rewrite !visit_UnaryOp_eq. simpl.
  destruct (visit M e) as [v | err]; simpl; [ | split; reflexivity].
  split; [reflexivity | ].
  exact (operator_neg_involutive v).
Qed.

(** ** Where complex numbers come from *)

Lemma float_operation_real (f : spec_float -> spec_float -> spec_float)
    (v w r : pyvalue) :
  (a <- CONVERT_TO_DOUBLE v ;; b <- CONVERT_TO_DOUBLE w ;; Return (PyFloat (f a b)))
    = Return r ->
  real_value r = true.
Proof.
  intros Hr.
  destruct (CONVERT_TO_DOUBLE v) as [a | e]; [ | discriminate Hr].
  destruct (CONVERT_TO_DOUBLE w) as [b | e]; [ | discriminate Hr].
  injection Hr as <-. reflexivity.
Qed.

(** The operators other than [**] give an [int] or a [float] for such
    operands. *)
Lemma operator_real (M : MathLib) (op : operator)
    (func : pyvalue -> pyvalue -> result pyvalue) (v w r : pyvalue) :
  dict_get operator_beq op (_binary_operators M) = Some func ->
  operator_beq op Pow = false ->
  real_value v = true -> real_value w = true ->
  func v w = Return r ->
  real_value r = true.
Proof.
  intros Hfunc Hop Hv Hw Hr. rewrite binary_table_lookup in Hfunc.
  destruct op; try discriminate Hfunc; try discriminate Hop;
    injection Hfunc as <-;
    destruct v as [x | x | ? ?]; try discriminate Hv;
    destruct w as [y | y | ? ?]; try discriminate Hw;
    simpl in Hr.
  all: try (injection Hr as <-; reflexivity).
  all: try (exact (float_operation_real _ _ _ _ Hr)).
  all: unfold long_true_divide, long_floor_div, long_mod, float_div, float_floor_div,
         float_rem in Hr.
  all: repeat
         match type of Hr with
         | (match ?c with _ => _ end) = _ => destruct c eqn:?; simpl in Hr
         | bind ?c _ = _ => destruct c eqn:?; simpl in Hr
         end;
       try discriminate Hr; injection Hr as <-; reflexivity.
Qed.

Lemma no_pow_real (M : MathLib) (tree : node) (v : pyvalue) :
  uses_pow tree = false -> visit M tree = Return v -> real_value v = true.
Proof.
  revert v.
  induction tree as [body IH | l IHl op r IHr | op operand IH | value | n | cls children];
    intros v Hpow Hv.
  - rewrite visit_Expression_eq in Hv. exact (IH v Hpow Hv).
  - simpl in Hpow. apply orb_false_elim in Hpow as [Hpow Hr].
    apply orb_false_elim in Hpow as [Hl Hop].
    rewrite visit_BinOp_eq in Hv.
    apply bind_Return in Hv as [vl [Hvl Hv]].
    apply bind_Return in Hv as [vr [Hvr Hv]].
    destruct (dict_get operator_beq op (_binary_operators M)) as [func | ] eqn:Hfunc;
      [ | discriminate Hv].
    exact (operator_real M op func vl vr v Hfunc Hop (IHl vl Hl Hvl) (IHr vr Hr Hvr) Hv).
  - simpl in Hpow. rewrite visit_UnaryOp_eq in Hv.
    apply bind_Return in Hv as [w [Hw Hv]].
    specialize (IH w Hpow Hw).
    destruct op; try discriminate Hv; simpl in Hv.
    + injection Hv as <-. exact IH.
    + destruct w; try discriminate IH; injection Hv as <-; reflexivity.
  - destruct value; try discriminate Hv; injection Hv as <-; reflexivity.
  - destruct n; try discriminate Hv; injection Hv as <-; reflexivity.
  - discriminate Hv.
Qed.

(** X2.  A complex number can only come from a power: an expression with
    no [**] in it that parses and evaluates gives an [int] or a [float],
    whatever the C library under the interpreter does. *)
Theorem complex_only_from_power (H : Host) (text : string) (tree : node) (v : pyvalue) :
  ast_parse H text = Return tree ->
  uses_pow tree = false ->
  evaluate_expression H text = Return v ->
  real_value v = true.
Proof.
  intros Hparse Hpow Hv. rewrite (evaluate_expression_parsed H _ _ Hparse) in Hv.
  exact (no_pow_real (mathlib H) tree v Hpow Hv).
Qed.

Lemma complex_only_from_power_witness :
  ast_parse sample_host "7 / 2 - 1.5" =
    Return (Expression (BinOp (BinOp (Constant (CInt 7)) Div (Constant (CInt 2))) Sub
                              (Constant (CFloat (S754_finite false 6755399441055744 (-52))))))
  /\ evaluate_expression sample_host "7 / 2 - 1.5"
     = Return (PyFloat (S754_finite false 4503599627370496 (-51)))
  /\ real_value (PyFloat (S754_finite false 4503599627370496 (-51))) = true.
Proof.
  split; [reflexivity | split; [reflexivity | ]].
  apply (complex_only_from_power sample_host "7 / 2 - 1.5" _ _ eq_refl);
    reflexivity.
Defined.

(** ** The order of the operands of [+] and [*] *)

Lemma SFadd_comm (x y : spec_float) : SFadd prec emax x y = SFadd prec emax y x.
Proof.
  destruct x as [sx | sx | | sx mx ex], y as [sy | sy | | sy my ey];
    try reflexivity; try (destruct sx, sy; reflexivity).
  unfold SFadd. rewrite (Z.min_comm ey ex), Z.add_comm. reflexivity.
Qed.

Lemma SFmul_comm (x y : spec_float) : SFmul prec emax x y = SFmul prec emax y x.
Proof.
  destruct x as [sx | sx | | sx mx ex], y as [sy | sy | | sy my ey];
    try reflexivity; try (destruct sx, sy; reflexivity).
  unfold SFmul. rewrite (xorb_comm sy sx), (Pos.mul_comm my mx), (Z.add_comm ey ex).
  reflexivity.
Qed.

Lemma CONVERT_TO_DOUBLE_Raise (v : pyvalue) (e : exc) :
  real_value v = true -> CONVERT_TO_DOUBLE v = Raise e -> e = OverflowError.
Proof.
  destruct v as [z | f | ? ?]; intros Hv He; try discriminate.
  exact (PyLong_AsDouble_Raise z e He).
Qed.

Lemma float_operation_comm (f : spec_float -> spec_float -> spec_float) (v w : pyvalue) :
  (forall a b, f a b = f b a) ->
  real_value v = true -> real_value w = true ->
  (a <- CONVERT_TO_DOUBLE v ;; b <- CONVERT_TO_DOUBLE w ;; Return (PyFloat (f a b)))
  = (a <- CONVERT_TO_DOUBLE w ;; b <- CONVERT_TO_DOUBLE v ;; Return (PyFloat (f a b))).
Proof.
  intros Hf Hv Hw.
  destruct (CONVERT_TO_DOUBLE v) as [a | e] eqn:Ha;
    destruct (CONVERT_TO_DOUBLE w) as [b | e'] eqn:Hb; simpl; try reflexivity.
  - rewrite Hf. reflexivity.
  - rewrite (CONVERT_TO_DOUBLE_Raise v e Hv Ha), (CONVERT_TO_DOUBLE_Raise w e' Hw Hb).
    reflexivity.
Qed.

Lemma operator_add_comm (M : MathLib) (v w : pyvalue) :
  real_value v = true -> real_value w = true ->
  operator_add M v w = operator_add M w v.
Proof.
  intros Hv Hw.
  destruct v as [x | x | ? ?]; try discriminate Hv;
    destruct w as [y | y | ? ?]; try discriminate Hw; simpl.
  - rewrite Z.add_comm. reflexivity.
  - exact (float_operation_comm _ (PyInt x) (PyFloat y) SFadd_comm eq_refl eq_refl).
  - exact (float_operation_comm _ (PyFloat x) (PyInt y) SFadd_comm eq_refl eq_refl).
  - exact (float_operation_comm _ (PyFloat x) (PyFloat y) SFadd_comm eq_refl eq_refl).
Qed.

Lemma operator_mul_comm (M : MathLib) (v w : pyvalue) :
  real_value v = true -> real_value w = true ->
  operator_mul M v w = operator_mul M w v.
Proof.
  intros Hv Hw.
  destruct v as [x | x | ? ?]; try discriminate Hv;
    destruct w as [y | y | ? ?]; try discriminate Hw; simpl.
  - rewrite Z.mul_comm. reflexivity.
  - exact (float_operation_comm _ (PyInt x) (PyFloat y) SFmul_comm eq_refl eq_refl).
  - exact (float_operation_comm _ (PyFloat x) (PyInt y) SFmul_comm eq_refl eq_refl).
  - exact (float_operation_comm _ (PyFloat x) (PyFloat y) SFmul_comm eq_refl eq_refl).
Qed.

(** X3.  The operands of [+] and of [*] can change places: when both
    evaluate to an [int] or a [float], [l + r] and [r + l] give the same
    result (the same number, or the same error), and so do [l * r] and
    [r * l]; floats included, whose sum and product are rounded. *)
Theorem sum_and_product_commute (M : MathLib) (l r : node) (vl vr : pyvalue) :
  visit M l = Return vl -> visit M r = Return vr ->
  real_value vl = true -> real_value vr = true ->
  visit M (BinOp l Add r) = visit M (BinOp r Add l)
  /\ visit M (BinOp l Mult r) = visit M (BinOp r Mult l).
Proof.
  intros Hl Hr Hvl Hvr.
  rewrite !(visit_BinOp_values M l r _ vl vr Hl Hr),
          !(visit_BinOp_values M r l _ vr vl Hr Hl).
  simpl. split.
  - exact (operator_add_comm M vl vr Hvl Hvr).
  - exact (operator_mul_comm M vl vr Hvl Hvr).
Qed.

Lemma sum_and_product_commute_witness :
  visit sample_mathlib (BinOp (Constant (CInt 3)) Add
                              (Constant (CFloat (S754_finite false 5629499534213120 (-51)))))
  = visit sample_mathlib (BinOp (Constant (CFloat (S754_finite false 5629499534213120 (-51)))) Add
                                (Constant (CInt 3)))
  /\ visit sample_mathlib (BinOp (Constant (CInt 3)) Mult
                                 (Constant (CFloat (S754_finite false 5629499534213120 (-51)))))
     = visit sample_mathlib (BinOp (Constant (CFloat (S754_finite false 5629499534213120 (-51)))) Mult
                                   (Constant (CInt 3))).
Proof.
  apply (sum_and_product_commute sample_mathlib _ _ (PyInt 3)
           (PyFloat (S754_finite false 5629499534213120 (-51)))); reflexivity.
Defined.

(** ** Refusals and arithmetic errors *)

Lemma arithmetic_error_not_ValueError (e : exc) :
  isinstance_ValueError e = false -> arithmetic_error e.
Proof.
  destruct e; intros He; try discriminate He; split; try reflexivity; discriminate.
Qed.

Lemma complex_Raise (M : MathLib) (r : result (spec_float * spec_float)) (e : exc) :
  complex_errors_arithmetic M ->
  (exists a b, r = complex_arith_add M a b \/ r = complex_arith_sub M a b
               \/ r = complex_arith_mul M a b \/ r = complex_arith_div M a b
               \/ r = complex_arith_pow M a b) ->
  as_complex r = Raise e -> arithmetic_error e.
Proof.
  intros HM [a [b Hr]] He. apply arithmetic_error_not_ValueError.
  assert (Hraise : r = Raise e).
  { destruct r as [c | e1]; simpl in He; [discriminate He | ].
    injection He as <-. reflexivity. }
  apply (HM a b e).
  destruct Hr as [<- | [<- | [<- | [<- | <-]]]]; auto 10.
Qed.

(** A float operation: the operands are converted, then [k] computes. *)
Lemma float_operation_Raise (k : spec_float -> spec_float -> result pyvalue)
    (v w : pyvalue) (e : exc) :
  real_value v = true -> real_value w = true ->
  (forall x y e', k x y = Raise e' -> arithmetic_error e') ->
  (x <- CONVERT_TO_DOUBLE v ;; y <- CONVERT_TO_DOUBLE w ;; k x y) = Raise e ->
  arithmetic_error e.
Proof.
  intros Hv Hw Hk He.
  destruct (CONVERT_TO_DOUBLE v) as [x | e1] eqn:Hx; simpl in He.
  2:{ injection He as <-. rewrite (CONVERT_TO_DOUBLE_Raise v e1 Hv Hx).
      split; [reflexivity | discriminate]. }
  destruct (CONVERT_TO_DOUBLE w) as [y | e1] eqn:Hy; simpl in He.
  2:{ injection He as <-. rewrite (CONVERT_TO_DOUBLE_Raise w e1 Hw Hy).
      split; [reflexivity | discriminate]. }
  exact (Hk x y e He).
Qed.

Lemma float_pow_Raise (M : MathLib) (v w : pyvalue) (e : exc) :
  complex_errors_arithmetic M ->
  real_value v = true -> real_value w = true ->
  float_pow M v w = Raise e ->
  arithmetic_error e.
Proof.
  intros HM Hv Hw. unfold float_pow.
  apply float_operation_Raise; [exact Hv | exact Hw | ].
  intros iv iw e' He.
  repeat
    match type of He with
    | (if ?c then _ else _) = _ => destruct c eqn:?
    end; try discriminate He.
  - injection He as <-. split; [reflexivity | discriminate].
  - apply (complex_Raise M _ e' HM) in He; [exact He | ].
    exists v, w. auto 10.
  - destruct (libm_pow M (SFabs iv) iw) as [ix err].
    destruct (_Py_ADJUST_ERANGE1 ix err); try discriminate He; injection He as <-;
      split; try reflexivity; discriminate.
Qed.

Lemma zero_test_Raise (y : spec_float) (r : result pyvalue) (e : exc) :
  (if is_zero y then Raise ZeroDivisionError else r) = Raise e ->
  (forall e', r <> Raise e') ->
  arithmetic_error e.
Proof.
  intros He Hr. destruct (is_zero y).
  - injection He as <-. split; [reflexivity | discriminate].
  - destruct (Hr e He).
Qed.

(** What an operator of the table raises is an arithmetic error, never
    one of the evaluator's refusals. *)
Lemma operator_Raise (M : MathLib) (op : operator)
    (func : pyvalue -> pyvalue -> result pyvalue) (v w : pyvalue) (e : exc) :
  complex_errors_arithmetic M ->
  dict_get operator_beq op (_binary_operators M) = Some func ->
  func v w = Raise e ->
  arithmetic_error e.
Proof.
  intros HM Hfunc He. rewrite binary_table_lookup in Hfunc.
  assert (Hfloat : forall (f : spec_float -> spec_float -> spec_float) a b,
             real_value a = true -> real_value b = true ->
             (x <- CONVERT_TO_DOUBLE a ;; y <- CONVERT_TO_DOUBLE b ;;
              Return (PyFloat (f x y))) = Raise e ->
             arithmetic_error e).
  { intros f a b Ha Hb. apply float_operation_Raise; [exact Ha | exact Hb | ].
    intros x y e' Hraise. discriminate Hraise. }
  assert (Hdivision : forall (q : spec_float -> spec_float -> pyvalue) a b,
             real_value a = true -> real_value b = true ->
             (x <- CONVERT_TO_DOUBLE a ;; y <- CONVERT_TO_DOUBLE b ;;
              if is_zero y then Raise ZeroDivisionError else Return (q x y)) = Raise e ->
             arithmetic_error e).
  { intros q a b Ha Hb. apply float_operation_Raise; [exact Ha | exact Hb | ].
    intros x y e' Hraise. apply (zero_test_Raise y _ e' Hraise). discriminate. }
  assert (Hcomplex := complex_Raise M).
  assert (Hpow := float_pow_Raise M).
  assert (Hzero : arithmetic_error ZeroDivisionError)
    by (split; [reflexivity | discriminate]).
  assert (Hover : arithmetic_error OverflowError)
    by (split; [reflexivity | discriminate]).
  assert (Htype : arithmetic_error TypeError)
    by (split; [reflexivity | discriminate]).
  destruct op; try discriminate Hfunc; injection Hfunc as <-.
  - (* + *)
    destruct v as [x | x | ? ?], w as [y | y | ? ?]; simpl in He;
      try discriminate He;
      unfold float_add, float_sub, float_mul in He;
      first [ refine (Hfloat _ _ _ _ _ He); reflexivity
            | apply (Hcomplex _ e HM) in He; [exact He | eexists _, _; auto 10] ].
  - (* - *)
    destruct v as [x | x | ? ?], w as [y | y | ? ?]; simpl in He;
      try discriminate He;
      unfold float_add, float_sub, float_mul in He;
      first [ refine (Hfloat _ _ _ _ _ He); reflexivity
            | apply (Hcomplex _ e HM) in He; [exact He | eexists _, _; auto 10] ].
  - (* * *)
    destruct v as [x | x | ? ?], w as [y | y | ? ?]; simpl in He;
      try discriminate He;
      unfold float_add, float_sub, float_mul in He;
      first [ refine (Hfloat _ _ _ _ _ He); reflexivity
            | apply (Hcomplex _ e HM) in He; [exact He | eexists _, _; auto 10] ].
  - (* / *)
    destruct v as [x | x | ? ?], w as [y | y | ? ?]; simpl in He;
      unfold float_div in He;
      try (refine (Hdivision (fun a b => PyFloat (SFdiv prec emax a b)) _ _ _ _ He);
           reflexivity);
      try (apply (Hcomplex _ e HM) in He; [exact He | eexists _, _; auto 10]).
    unfold long_true_divide in He.
    destruct (y =? 0); [injection He as <-; exact Hzero | ].
    destruct (SFdiv prec emax (Z2SF x) (Z2SF y)); try discriminate He.
    injection He as <-. exact Hover.
  - (* % *)
    destruct v as [x | x | ? ?], w as [y | y | ? ?]; simpl in He;
      try (injection He as <-; exact Htype);
      try (unfold float_rem in He;
           refine (Hdivision (fun vx wx =>
                    let mod_ := SFfmod vx wx in
                    PyFloat
                      (if is_zero mod_ then copysign_zero wx
                       else if negb (Bool.eqb (SFltb wx fzero) (SFltb mod_ fzero))
                            then SFadd prec emax mod_ wx
                            else mod_)) _ _ _ _ He); reflexivity).
    unfold long_mod in He. destruct (y =? 0); [ | discriminate He].
    injection He as <-. exact Hzero.
  - (* ** *)
    destruct v as [x | x | ? ?], w as [y | y | ? ?]; simpl in He;
      try (refine (Hpow _ _ e HM _ _ He); reflexivity);
      try (apply (Hcomplex _ e HM) in He; [exact He | eexists _, _; auto 10]).
    unfold long_pow in He. destruct (y <? 0); [ | discriminate He].
    refine (Hpow _ _ e HM _ _ He); reflexivity.
  - (* // *)
    destruct v as [x | x | ? ?], w as [y | y | ? ?]; simpl in He;
      try (injection He as <-; exact Htype);
      try (unfold float_floor_div in He;
           refine (Hdivision (fun vx wx =>
                    let mod_ := SFfmod vx wx in
                    let div := SFdiv prec emax (SFsub prec emax vx mod_) wx in
                    let div :=
                      if negb (is_zero mod_)
                         && negb (Bool.eqb (SFltb wx fzero) (SFltb mod_ fzero))
                      then SFsub prec emax div fone
                      else div in
                    PyFloat
                      (if is_zero div then copysign_zero (SFdiv prec emax vx wx)
                       else
                         let floordiv := SFfloor div in
                         if SFltb fhalf (SFsub prec emax div floordiv)
                         then SFadd prec emax floordiv fone
                         else floordiv)) _ _ _ _ He); reflexivity).
    unfold long_floor_div in He. destruct (y =? 0); [ | discriminate He].
    injection He as <-. exact Hzero.
Qed.

Lemma visit_Constant_Raise (value : constant) (e : exc) :
  visit_Constant value = Raise e ->
  numeric_literal value = false /\ refusal e = true /\ e <> InvalidExpression.
Proof.
  destruct value; simpl; intros He; try discriminate He; injection He as <-;
    repeat split; discriminate.
Qed.

(** What the evaluation of a tree raises is a refusal, for a tree with a
    node outside the whitelist, or an arithmetic error; it is never the
    error of a text that does not parse. *)
Lemma visit_Raise (M : MathLib) (tree : node) (e : exc) :
  complex_errors_arithmetic M ->
  visit M tree = Raise e ->
  e <> InvalidExpression /\ (refusal e = true -> whitelisted tree = false).
Proof.
  intros HM.
  induction tree as [body IH | l IHl op r IHr | op operand IH | value | n | cls children];
    intros He.
  - rewrite visit_Expression_eq in He. exact (IH He).
  - rewrite visit_BinOp_eq in He. simpl.
    destruct (visit M l) as [vl | el]; cbn [bind] in He.
    2:{ injection He as <-. destruct (IHl eq_refl) as [Hne Hl].
        split; [exact Hne | intros Hr; rewrite (Hl Hr); reflexivity]. }
    destruct (visit M r) as [vr | er]; cbn [bind] in He.
    2:{ injection He as <-. destruct (IHr eq_refl) as [Hne Hr].
        split; [exact Hne | intros Href; rewrite (Hr Href)].
        rewrite andb_false_r. reflexivity. }
    destruct (dict_get operator_beq op (_binary_operators M)) as [func | ] eqn:Hfunc.
    + destruct (operator_Raise M op func vl vr e HM Hfunc He) as [Href Hne].
      split; [exact Hne | rewrite Href; discriminate].
    + injection He as <-. split; [discriminate | intros _].
      apply binary_table_whitelist in Hfunc. rewrite Hfunc, andb_false_r. reflexivity.
  - rewrite visit_UnaryOp_eq in He. simpl.
    destruct (visit M operand) as [v | eo]; cbn [bind] in He.
    2:{ injection He as <-. destruct (IH eq_refl) as [Hne Ho].
        split; [exact Hne | intros Href; rewrite (Ho Href)].
        rewrite andb_false_r. reflexivity. }
    destruct op; simpl in He; try discriminate He;
      try (injection He as <-; split; [discriminate | reflexivity]).
    destruct v; discriminate He.
  - simpl in He. destruct (visit_Constant_Raise value e He) as [Hnum [_ Hne]].
    split; [exact Hne | intros _; exact Hnum].
  - simpl in He. unfold visit_Num in He.
    destruct (visit_Constant_Raise n e He) as [Hnum [_ Hne]].
    split; [exact Hne | intros _; exact Hnum].
  - simpl in He. unfold generic_visit in He. injection He as <-.
    split; [ | reflexivity].
    intros Heq. injection Heq as Heq. destruct cls; discriminate Heq.
Qed.

(** X4.  The whitelist refuses nothing it lists: the evaluation of a tree
    made of whitelisted nodes only returns a value or fails with an
    arithmetic error (ZeroDivisionError, OverflowError, ...), never with
    one of the evaluator's "not supported" or "not allowed" errors.
    Complex arithmetic, which is the interpreter's, is assumed to raise no
    ValueError. *)
Theorem whitelisted_never_refused (M : MathLib) (tree : node) (e : exc) :
  complex_errors_arithmetic M ->
  whitelisted tree = true ->
  visit M tree = Raise e ->
  refusal e = false.
Proof.
  intros HM Hlisted He.
  destruct (visit_Raise M tree e HM He) as [_ Href].
  destruct (refusal e); [ | reflexivity].
  rewrite (Href eq_refl) in Hlisted. discriminate Hlisted.
Qed.

Lemma sample_mathlib_errors : complex_errors_arithmetic sample_mathlib.
Proof.
  intros v w e [He | [He | [He | [He | He]]]]; simpl in He;
    try (injection He as <-; reflexivity).
  repeat
    match type of He with
    | (match ?c with _ => _ end) = _ => destruct c
    end; try discriminate He; injection He as <-; reflexivity.
Qed.

Lemma whitelisted_never_refused_witness :
  visit sample_mathlib (BinOp (Constant (CInt 1)) Mod (Constant (CFloat (S754_zero true))))
    = Raise ZeroDivisionError
  /\ refusal ZeroDivisionError = false.
Proof.
  split; [reflexivity | ].
  apply (whitelisted_never_refused sample_mathlib
           (BinOp (Constant (CInt 1)) Mod (Constant (CFloat (S754_zero true))))
           ZeroDivisionError sample_mathlib_errors); reflexivity.
Defined.

(** X5.  [evaluate_expression] raises the ValueError "Expressão inválida"
    for a text the parser rejects, and for no other: a text that parses
    never fails with that error, whatever its evaluation raises, and an
    exception of the parser that is no SyntaxError is passed on as it is.
    Complex arithmetic is assumed to raise no ValueError. *)
Theorem invalid_expression_is_parse_error (H : Host) (text : string) :
  complex_errors_arithmetic (mathlib H) ->
  (evaluate_expression H text = Raise InvalidExpression
   <-> exists e, ast_parse H text = Raise e
                 /\ (isinstance_SyntaxError e = true \/ e = InvalidExpression))
  /\ (forall e, ast_parse H text = Raise e -> isinstance_SyntaxError e = false ->
                evaluate_expression H text = Raise e).
Proof.
  intros HM. unfold evaluate_expression, evaluate_expression_with.
  destruct (ast_parse H text) as [tree | e] eqn:Hparse; split.
  - split.
    + intros He. destruct (visit_Raise (mathlib H) tree _ HM He) as [Hne _].
      destruct (Hne eq_refl).
    + intros [e [He _]]. discriminate He.
  - intros e He. discriminate He.
  - split.
    + intros He. exists e. split; [reflexivity | ].
      destruct (isinstance_SyntaxError e); [left; reflexivity | right].
      injection He as ->. reflexivity.
    + intros [e' [He' Hclass]]. injection He' as <-.
      destruct Hclass as [-> | ->]; reflexivity.
  - intros e' He' Hclass. injection He' as <-. rewrite Hclass. reflexivity.
Qed.

Lemma invalid_expression_is_parse_error_witness :
  (evaluate_expression sample_host "2 +" = Raise InvalidExpression
   <-> exists e, ast_parse sample_host "2 +" = Raise e
                 /\ (isinstance_SyntaxError e = true \/ e = InvalidExpression))
  /\ (forall e, ast_parse sample_host "2 +" = Raise e -> isinstance_SyntaxError e = false ->
                evaluate_expression sample_host "2 +" = Raise e).
Proof.
  exact (invalid_expression_is_parse_error sample_host "2 +" sample_mathlib_errors).
Defined.
(** * The command-line program *)

Section Loops.

Local Open Scope list_scope.
Local Open Scope nat_scope.

(** ** Loops that read *)

(** A budget a loop does not use up is as good as any larger one. *)
Lemma repeat_body_more (A : Type) (body : io (control A)) (n m : nat) (w : console) :
  n <= m -> fst (repeat_body n body w) <> Unfinished ->
  repeat_body m body w = repeat_body n body w.
Proof.
  revert m w. induction n as [ | n IH]; intros m w Hle Hfin.
  - destruct (Hfin eq_refl).
  - destruct m as [ | m]; [lia | ]. simpl in *.
    destruct (body w) as [[[ | | a] | r | ] w']; try reflexivity.
    apply IH; [lia | exact Hfin].
Qed.

(** The rule of a loop: with something [I] that holds of the console at
    the start and that every round keeps, what holds of every way the body
    leaves the loop holds of the loop; and the loop ends. *)
Lemma repeat_body_rule (A : Type) (body : io (control A)) (I : console -> Prop)
    (P : outcome (option A) -> console -> Prop) :
  (forall w, I w ->
     match body w with
     | (Done Continue, w') => List.length (stdin w') < List.length (stdin w) /\ I w'
     | (Done Break, w') => P (Done None) w'
     | (Done (ReturnFrom a), w') => P (Done (Some a)) w'
     | (Raised r, w') => P (Raised r) w'
     | (Unfinished, _) => False
     end) ->
  forall n w, I w -> List.length (stdin w) < n ->
    P (fst (repeat_body n body w)) (snd (repeat_body n body w)).
Proof.
  intros Hbody. induction n as [ | n IH]; intros w Hw Hn; [lia | ].
  simpl. specialize (Hbody w Hw).
  destruct (body w) as [[[ | | a] | r | ] w']; simpl; try exact Hbody.
  - destruct Hbody as [Hlt Hw']. apply IH; [exact Hw' | lia].
  - destruct Hbody.
Qed.

Lemma while_True_rule (A : Type) (body : io (control A)) (I : console -> Prop)
    (P : outcome (option A) -> console -> Prop) (w : console) :
  I w ->
  (forall w1, I w1 ->
     match body w1 with
     | (Done Continue, w') => List.length (stdin w') < List.length (stdin w1) /\ I w'
     | (Done Break, w') => P (Done None) w'
     | (Done (ReturnFrom a), w') => P (Done (Some a)) w'
     | (Raised r, w') => P (Raised r) w'
     | (Unfinished, _) => False
     end) ->
  P (fst (while_True body w)) (snd (while_True body w)).
Proof.
  intros Hw Hbody. unfold while_True.
  apply (repeat_body_rule A body I P Hbody); [exact Hw | lia].
Qed.

Lemma while_True_finishes (A : Type) (body : io (control A)) (w : console) :
  consuming body -> fst (while_True body w) <> Unfinished.
Proof.
  intros Hbody.
  apply (while_True_rule A body (fun _ => True) (fun o _ => o <> Unfinished));
    [exact I | ].
  intros w1 _. specialize (Hbody w1).
  destruct (body w1) as [[[ | | a] | r | ] w']; try exact Hbody;
    try discriminate.
  split; [exact Hbody | exact I].
Qed.

Lemma later_refl (w : console) : later w w.
Proof. exists []. reflexivity. Qed.

Lemma later_trans (w1 w2 w3 : console) : later w1 w2 -> later w2 w3 -> later w1 w3.
Proof.
  intros [r1 H1] [r2 H2]. exists (r1 ++ r2). rewrite H1, H2, app_assoc. reflexivity.
Qed.

Lemma later_length (w w' : console) :
  later w w' -> List.length (stdin w') <= List.length (stdin w).
Proof. intros [r Hr]. rewrite Hr, length_app. lia. Qed.

Lemma later_In (w w' : console) (ev : event) :
  later w w' -> In ev (stdin w') -> In ev (stdin w).
Proof. intros [r Hr] Hin. rewrite Hr. apply in_or_app. right. exact Hin. Qed.

Lemma later_read (w : console) (ev : event) (rest : list event)
    (out err : list written) :
  stdin w = ev :: rest -> later w (Console rest out err).
Proof. intros Hw. exists [ev]. exact Hw. Qed.

(** A round that goes on: the loop is the loop from where the round ends. *)
Lemma while_True_round (A : Type) (body : io (control A)) (w w' : console) :
  consuming body -> body w = (Done Continue, w') ->
  while_True body w = while_True body w'.
Proof.
  intros Hbody Hround.
  assert (Hlt := Hbody w). rewrite Hround in Hlt.
  unfold while_True at 1. simpl. rewrite Hround.
  apply repeat_body_more; [lia | ].
  exact (while_True_finishes A body w' Hbody).
Qed.

(** A round that leaves the loop. *)
Lemma while_True_leave (A : Type) (body : io (control A)) (w w' : console)
    (c : outcome (control A)) :
  body w = (c, w') -> c <> Done Continue ->
  while_True body w =
  (match c with
   | Done Continue => Unfinished
   | Done Break => Done None
   | Done (ReturnFrom a) => Done (Some a)
   | Raised r => Raised r
   | Unfinished => Unfinished
   end, w').
Proof.
  intros Hround Hc. unfold while_True. simpl. rewrite Hround.
  destruct c as [[ | | a] | r | ]; try reflexivity. destruct (Hc eq_refl).
Qed.

End Loops.

(** ** Commands *)

Lemma lower_upper_letter (a : ascii) : lower_letter (upper_letter a) = lower_letter a.
Proof.
  destruct a as [[ | ] [ | ] [ | ] [ | ] [ | ] [ | ] [ | ] [ | ]]; reflexivity.
Qed.

Lemma lower_lower_letter (a : ascii) : lower_letter (lower_letter a) = lower_letter a.
Proof.
  destruct a as [[ | ] [ | ] [ | ] [ | ] [ | ] [ | ] [ | ] [ | ]]; reflexivity.
Qed.

Lemma letter_is_ascii (a : ascii) :
  (code (upper_letter a) <? 128) = (code a <? 128)
  /\ (code (lower_letter a) <? 128) = (code a <? 128).
Proof.
  destruct a as [[ | ] [ | ] [ | ] [ | ] [ | ] [ | ] [ | ] [ | ]]; split; reflexivity.
Qed.

Lemma str_lower_case (B : Builtins) (s : string) :
  is_ascii s = true ->
  str_lower B (map_letters upper_letter s) = str_lower B s
  /\ str_lower B (map_letters lower_letter s) = str_lower B s.
Proof.
  intros Hs. unfold str_lower.
  assert (Hup : is_ascii (map_letters upper_letter s) = true
                /\ is_ascii (map_letters lower_letter s) = true).
  { induction s as [ | a s IH]; [split; reflexivity | ].
    simpl in *. apply andb_prop in Hs as [Ha Hs].
    destruct (letter_is_ascii a) as [-> ->]. rewrite Ha.
    destruct (IH Hs) as [-> ->]. split; reflexivity. }
  destruct Hup as [-> ->]. rewrite Hs. clear Hs.
  induction s as [ | a s [IHu IHl]]; [split; reflexivity | ].
  simpl. rewrite lower_upper_letter, lower_lower_letter, IHu, IHl. split; reflexivity.
Qed.

Lemma exit_not_menu (B : Builtins) (cmd : string) :
  _is_exit B cmd = true -> _is_menu B cmd = false.
Proof.
  unfold _is_exit, _is_menu, set_in, EXIT_COMMANDS, MENU_COMMANDS. simpl.
  intros Hexit. rewrite !orb_false_r in *.
  repeat (apply orb_prop in Hexit as [Hexit | Hexit]);
    apply String.eqb_eq in Hexit; rewrite Hexit; reflexivity.
Qed.

(** X6.  The commands of the modes are read without regard to the case of
    their letters, and no string is both a command to leave and a command
    to go back to the menu: so [_is_exit] and [_is_menu] can be asked in
    either order. *)
Theorem commands_ignore_case (B : Builtins) (cmd : string) :
  (is_ascii cmd = true ->
     _is_exit B (map_letters upper_letter cmd) = _is_exit B cmd
     /\ _is_exit B (map_letters lower_letter cmd) = _is_exit B cmd
     /\ _is_menu B (map_letters upper_letter cmd) = _is_menu B cmd
     /\ _is_menu B (map_letters lower_letter cmd) = _is_menu B cmd)
  /\ (_is_exit B cmd = true -> _is_menu B cmd = false).
Proof.
  split.
  - intros Hcmd. unfold _is_exit, _is_menu.
    destruct (str_lower_case B cmd Hcmd) as [-> ->]. repeat split.
  - exact (exit_not_menu B cmd).
Qed.

(** ** The two tables *)

(** X7.  The table of the guided mode and the table of the evaluator hold
    the same operations: a symbol has a function in [OP_SYMBOL_TO_FUNC]
    exactly when the operator so written has one in [_binary_operators],
    and it is the same function; so the guided mode computes for two
    numbers and a symbol what the evaluator computes for the expression
    made of them. *)
Theorem tables_agree (M : MathLib) :
  (forall op, dict_get String.eqb (operator_symbol op) (OP_SYMBOL_TO_FUNC M)
              = dict_get operator_beq op (_binary_operators M))
  /\ (forall symbol func,
        dict_get String.eqb symbol (OP_SYMBOL_TO_FUNC M) = Some func ->
        exists op, operator_symbol op = symbol /\ allowed_binary op = true)
  /\ (forall op a b,
        numeric_literal a = true -> numeric_literal b = true ->
        allowed_binary op = true ->
        exists first second func,
          visit_Constant a = Return first /\ visit_Constant b = Return second
          /\ dict_get String.eqb (operator_symbol op) (OP_SYMBOL_TO_FUNC M) = Some func
          /\ visit M (BinOp (Constant a) op (Constant b)) = func first second).
Proof.
  assert (Hsame : forall op, dict_get String.eqb (operator_symbol op) (OP_SYMBOL_TO_FUNC M)
                             = dict_get operator_beq op (_binary_operators M))
    by (intros op; destruct op; reflexivity).
  split; [exact Hsame | split].
  - intros symbol func Hfunc. unfold OP_SYMBOL_TO_FUNC in Hfunc. simpl in Hfunc.
    repeat
      match type of Hfunc with
      | (if String.eqb symbol ?s then _ else _) = _ =>
          destruct (String.eqb_spec symbol s) as [-> | _]
      end; try discriminate Hfunc.
    + exists Add. split; reflexivity.
    + exists Sub. split; reflexivity.
    + exists Mult. split; reflexivity.
    + exists Div. split; reflexivity.
    + exists FloorDiv. split; reflexivity.
    + exists Mod. split; reflexivity.
    + exists Pow. split; reflexivity.
  - intros op a b Ha Hb Hop.
    assert (Hvalue : forall c, numeric_literal c = true ->
                               exists v, visit_Constant c = Return v).
    { intros c Hc. destruct c; try discriminate Hc; eexists; reflexivity. }
    destruct (Hvalue a Ha) as [first Hfirst], (Hvalue b Hb) as [second Hsecond].
    destruct (dict_get operator_beq op (_binary_operators M)) as [func | ] eqn:Hfunc.
    2:{ apply binary_table_whitelist in Hfunc. rewrite Hfunc in Hop. discriminate Hop. }
    exists first, second, func. rewrite Hsame.
    repeat split; try assumption.
    rewrite (visit_BinOp_values M (Constant a) (Constant b) op first second Hfirst Hsecond),
      Hfunc.
    reflexivity.
Qed.
(** ** The expression mode *)

Section ExpressionMode.

Local Open Scope list_scope.

Variable H : Host.
Variable B : Builtins.

(** One round of the loop, by what it reads. *)
Lemma expression_round_eq (w : console) :
  expression_round H B w =
  let out := stdout w ++ [Text ">>> "] in
  match stdin w with
  | [] => (Raised EOFError, Console [] out (stderr w))
  | Interrupt :: rest => (Raised KeyboardInterrupt, Console rest out (stderr w))
  | Typed line :: rest =>
      if _is_exit B (strip line) then (Raised (SystemExit 0), Console rest out (stderr w))
      else if _is_menu B (strip line) then (Done (ReturnFrom tt), Console rest out (stderr w))
      else
        match reply H B line with
        | Return text => (Done Continue, Console rest (out ++ text) (stderr w))
        | Raise e => (Raised (Exception e), Console rest out (stderr w))
        end
  end.
Proof.
  unfold expression_round, io_bind, input, reply.
  destruct (stdin w) as [ | [line | ] rest]; try reflexivity. simpl.
  destruct (_is_exit B (strip line)); [reflexivity | ].
  destruct (_is_menu B (strip line)); [reflexivity | ].
  destruct (String.eqb (strip line) ""); [rewrite app_nil_r; reflexivity | ].
  destruct (evaluate_expression H (strip line)) as [result | e]; [ | reflexivity].
  unfold print_number. destruct (str_of B result) as [text | e]; reflexivity.
Qed.

Lemma expression_round_consuming : consuming (expression_round H B).
Proof.
  intros w. rewrite expression_round_eq.
  destruct (stdin w) as [ | [line | ] rest]; simpl; try exact I.
  destruct (_is_exit B (strip line)); [exact I | ].
  destruct (_is_menu B (strip line)); [exact I | ].
  destruct (reply H B line); simpl; [lia | exact I].
Qed.

(** The lines that are answered, one after the other. *)
Lemma expression_rounds (lines : list string) (rest : list event)
    (out err : list written) :
  Forall (fun line => answered H B line = true) lines ->
  while_True (expression_round H B) (Console (map Typed lines ++ rest) out err)
  = while_True (expression_round H B) (Console rest (out ++ replies H B lines) err).
Proof.
  intros Hlines. revert out.
  induction Hlines as [ | line lines Hline _ IH]; intros out.
  - simpl. rewrite app_nil_r. reflexivity.
  - unfold answered, command in Hline. apply andb_prop in Hline as [Hcommand Hreply].
    apply negb_true_iff, orb_false_elim in Hcommand as [Hexit Hmenu].
    rewrite (while_True_round _ (expression_round H B) _
               (Console (map Typed lines ++ rest) (out ++ replies H B [line]) err)
               expression_round_consuming).
    + rewrite IH. unfold replies. simpl. rewrite app_nil_r, <- app_assoc. reflexivity.
    + rewrite expression_round_eq. simpl. rewrite Hexit, Hmenu.
      unfold replies. simpl. rewrite app_nil_r.
      destruct (reply H B line) as [text | e]; [ | discriminate Hreply].
      rewrite <- app_assoc. reflexivity.
Qed.

(** What ends the loop: the first line that is not answered, a Ctrl-C, or
    the end of the input. *)
Lemma expression_loop_end (rest : list event) (out err : list written) :
  match rest with
  | Typed line :: _ => answered H B line = false
  | _ => True
  end ->
  while_True (expression_round H B) (Console rest out err) =
  match rest with
  | [] => (Raised EOFError, Console [] (out ++ [Text ">>> "]) err)
  | Interrupt :: rest' => (Raised KeyboardInterrupt, Console rest' (out ++ [Text ">>> "]) err)
  | Typed line :: rest' =>
      (if _is_exit B (strip line) then Raised (SystemExit 0)
       else if _is_menu B (strip line) then Done (Some tt)
       else
         match reply H B line with
         | Raise e => Raised (Exception e)
         | Return _ => Done (Some tt)
         end,
       Console rest' (out ++ [Text ">>> "]) err)
  end.
Proof.
  intros Hrest.
  destruct rest as [ | [line | ] rest'].
  - rewrite (while_True_leave _ (expression_round H B) _
               (Console [] (out ++ [Text ">>> "]) err) (Raised EOFError));
      [reflexivity | | discriminate].
    rewrite expression_round_eq. reflexivity.
  - unfold answered, command in Hrest.
    destruct (_is_exit B (strip line)) eqn:Hexit.
    { rewrite (while_True_leave _ (expression_round H B) _
                 (Console rest' (out ++ [Text ">>> "]) err) (Raised (SystemExit 0)));
        [reflexivity | | discriminate].
      rewrite expression_round_eq. simpl. rewrite Hexit. reflexivity. }
    destruct (_is_menu B (strip line)) eqn:Hmenu.
    { rewrite (while_True_leave _ (expression_round H B) _
                 (Console rest' (out ++ [Text ">>> "]) err) (Done (ReturnFrom tt)));
        [reflexivity | | discriminate].
      rewrite expression_round_eq. simpl. rewrite Hexit, Hmenu. reflexivity. }
    simpl in Hrest.
    destruct (reply H B line) as [text | e] eqn:Hreply; [discriminate Hrest | ].
    rewrite (while_True_leave _ (expression_round H B) _
               (Console rest' (out ++ [Text ">>> "]) err) (Raised (Exception e)));
      [reflexivity | | discriminate].
    rewrite expression_round_eq. simpl. rewrite Hexit, Hmenu, Hreply. reflexivity.
  - rewrite (while_True_leave _ (expression_round H B) _
               (Console rest' (out ++ [Text ">>> "]) err) (Raised KeyboardInterrupt));
      [reflexivity | | discriminate].
    rewrite expression_round_eq. reflexivity.
Qed.

(** The function is its banner and its loop. *)
Lemma expression_loop_eq (w : console) :
  _expression_loop H B w =
  (while_True (expression_round H B) >> ret tt)
    (Console (stdin w) (stdout w ++ expression_banner) (stderr w)).
Proof. reflexivity. Qed.

(** X8.  The expression mode answers line after line, and no error of an
    expression ends it: each line before the first command is answered
    with the result, or with "Erro: " and the exception that
    [evaluate_expression] raised (a blank line with nothing), and the loop
    goes on to the next line.  It ends with the first line that is a
    command (SystemExit(0) for an exit command, a return for a menu
    command), with KeyboardInterrupt at a Ctrl-C, with EOFError when the
    input ends, and with the exception of [str] at a result that cannot be
    written (an [int] of too many digits): the result is printed outside
    the [try] statement. *)
Theorem expression_loop_script (lines : list string) (rest : list event)
    (out err : list written) :
  Forall (fun line => answered H B line = true) lines ->
  match rest with
  | Typed line :: _ => answered H B line = false
  | _ => True
  end ->
  _expression_loop H B (Console (map Typed lines ++ rest) out err) =
  let out' := out ++ expression_banner ++ replies H B lines ++ [Text ">>> "] in
  match rest with
  | [] => (Raised EOFError, Console [] out' err)
  | Interrupt :: rest' => (Raised KeyboardInterrupt, Console rest' out' err)
  | Typed line :: rest' =>
      (if _is_exit B (strip line) then Raised (SystemExit 0)
       else if _is_menu B (strip line) then Done tt
       else
         match reply H B line with
         | Raise e => Raised (Exception e)
         | Return _ => Done tt
         end,
       Console rest' out' err)
  end.
Proof.
  intros Hlines Hrest.
  rewrite expression_loop_eq. unfold io_bind. cbn [stdin stdout stderr].
  rewrite (expression_rounds lines rest _ err Hlines),
          (expression_loop_end rest _ err Hrest).
  assert (Hout : out ++ expression_banner ++ replies H B lines ++ [Text ">>> "]
                 = ((out ++ expression_banner) ++ replies H B lines) ++ [Text ">>> "])
    by (rewrite <- !app_assoc; reflexivity).
  cbv zeta. rewrite Hout.
  destruct rest as [ | [line | ] rest']; try reflexivity.
  destruct (_is_exit B (strip line)); [reflexivity | ].
  destruct (_is_menu B (strip line)); [reflexivity | ].
  destruct (reply H B line); reflexivity.
Qed.

End ExpressionMode.

Lemma expression_loop_script_witness :
  _expression_loop sample_host sample_builtins
    (fresh [Typed "2 ** 10"; Typed "  "; Typed "1 / 0"; Typed "abc + 2"; Typed " MENU";
            Typed "7"])
  = (Done tt,
     Console [Typed "7"]
       (expression_banner ++
        [Text ">>> "; StrOf (PyInt 1024); Text newline;
         Text ">>> ";
         Text ">>> "; Text "Erro: "; StrOfExc ZeroDivisionError; Text newline;
         Text ">>> "; Text "Erro: ";
         StrOfExc (ValueError "Expressão contém elemento não permitido: Name");
         Text newline;
         Text ">>> "])
       []).
Proof.
  apply (expression_loop_script sample_host sample_builtins
           ["2 ** 10"; "  "; "1 / 0"; "abc + 2"] [Typed " MENU"; Typed "7"] [] []).
  - repeat constructor.
  - reflexivity.
Defined.
(** ** The guided mode *)

Section GuidedMode.

Local Open Scope list_scope.

Variable M : MathLib.
Variable B : Builtins.

(** *** Reading a number *)

Lemma parse_number_round_eq (prompt : string) (w : console) :
  parse_number_round B prompt w =
  let out := stdout w ++ [Text prompt] in
  match stdin w with
  | [] => (Raised EOFError, Console [] out (stderr w))
  | Interrupt :: rest => (Raised KeyboardInterrupt, Console rest out (stderr w))
  | Typed line :: rest =>
      if _is_exit B (strip line) then (Raised (SystemExit 0), Console rest out (stderr w))
      else if _is_menu B (strip line)
      then (Done (ReturnFrom None), Console rest out (stderr w))
      else
        match parse_number B (strip line) with
        | Return number => (Done (ReturnFrom (Some number)), Console rest out (stderr w))
        | Raise e =>
            if isinstance_ValueError e
            then (Done Continue,
                  Console rest
                    (out ++ [Text "Entrada inválida. Digite um número, 'menu' ou 'sair'.";
                             Text newline])
                    (stderr w))
            else (Raised (Exception e), Console rest out (stderr w))
        end
  end.
Proof.
  unfold parse_number_round, io_bind, input.
  destruct (stdin w) as [ | [line | ] rest]; try reflexivity. simpl.
  destruct (_is_exit B (strip line)); [reflexivity | ].
  destruct (_is_menu B (strip line)); [reflexivity | ].
  destruct (parse_number B (strip line)) as [number | e]; [reflexivity | ].
  destruct (isinstance_ValueError e); reflexivity.
Qed.

Lemma parse_number_round_consuming (prompt : string) :
  consuming (parse_number_round B prompt).
Proof.
  intros w. rewrite parse_number_round_eq.
  destruct (stdin w) as [ | [line | ] rest]; simpl; try exact I.
  destruct (_is_exit B (strip line)); [exact I | ].
  destruct (_is_menu B (strip line)); [exact I | ].
  destruct (parse_number B (strip line)) as [number | e]; [exact I | ].
  destruct (isinstance_ValueError e); simpl; [lia | exact I].
Qed.

Lemma parse_number_rounds (prompt : string) (lines : list string) (rest : list event)
    (out err : list written) :
  Forall (fun line => refused B line = true) lines ->
  while_True (parse_number_round B prompt) (Console (map Typed lines ++ rest) out err)
  = while_True (parse_number_round B prompt)
      (Console rest (out ++ refusals prompt lines) err).
Proof.
  intros Hlines. revert out.
  induction Hlines as [ | line lines Hline _ IH]; intros out.
  - simpl. rewrite app_nil_r. reflexivity.
  - unfold refused, command in Hline. apply andb_prop in Hline as [Hcommand Hnumber].
    apply negb_true_iff, orb_false_elim in Hcommand as [Hexit Hmenu].
    rewrite (while_True_round _ (parse_number_round B prompt) _
               (Console (map Typed lines ++ rest) (out ++ refusals prompt [line]) err)
               (parse_number_round_consuming prompt)).
    + rewrite IH. unfold refusals. simpl. rewrite <- app_assoc. reflexivity.
    + rewrite parse_number_round_eq. simpl. rewrite Hexit, Hmenu.
      destruct (parse_number B (strip line)) as [number | e]; [discriminate Hnumber | ].
      rewrite Hnumber. unfold refusals. simpl. rewrite <- app_assoc. reflexivity.
Qed.

(** What ends the loop: the first line that is not refused, a Ctrl-C, or
    the end of the input. *)
Lemma parse_number_end (prompt : string) (rest : list event) (out err : list written) :
  match rest with
  | Typed line :: _ => refused B line = false
  | _ => True
  end ->
  while_True (parse_number_round B prompt) (Console rest out err) =
  match rest with
  | [] => (Raised EOFError, Console [] (out ++ [Text prompt]) err)
  | Interrupt :: rest' => (Raised KeyboardInterrupt, Console rest' (out ++ [Text prompt]) err)
  | Typed line :: rest' =>
      (if _is_exit B (strip line) then Raised (SystemExit 0)
       else if _is_menu B (strip line) then Done (Some None)
       else
         match parse_number B (strip line) with
         | Return number => Done (Some (Some number))
         | Raise e => Raised (Exception e)
         end,
       Console rest' (out ++ [Text prompt]) err)
  end.
Proof.
  intros Hrest.
  destruct rest as [ | [line | ] rest'].
  - rewrite (while_True_leave _ (parse_number_round B prompt) _
               (Console [] (out ++ [Text prompt]) err) (Raised EOFError));
      [reflexivity | | discriminate].
    rewrite parse_number_round_eq. reflexivity.
  - unfold refused, command in Hrest.
    destruct (_is_exit B (strip line)) eqn:Hexit.
    { rewrite (while_True_leave _ (parse_number_round B prompt) _
                 (Console rest' (out ++ [Text prompt]) err) (Raised (SystemExit 0)));
        [reflexivity | | discriminate].
      rewrite parse_number_round_eq. simpl. rewrite Hexit. reflexivity. }
    destruct (_is_menu B (strip line)) eqn:Hmenu.
    { rewrite (while_True_leave _ (parse_number_round B prompt) _
                 (Console rest' (out ++ [Text prompt]) err) (Done (ReturnFrom None)));
        [reflexivity | | discriminate].
      rewrite parse_number_round_eq. simpl. rewrite Hexit, Hmenu. reflexivity. }
    simpl in Hrest.
    destruct (parse_number B (strip line)) as [number | e] eqn:Hnumber.
    + rewrite (while_True_leave _ (parse_number_round B prompt) _
                 (Console rest' (out ++ [Text prompt]) err)
                 (Done (ReturnFrom (Some number))));
        [reflexivity | | discriminate].
      rewrite parse_number_round_eq. simpl. rewrite Hexit, Hmenu, Hnumber. reflexivity.
    + rewrite (while_True_leave _ (parse_number_round B prompt) _
                 (Console rest' (out ++ [Text prompt]) err) (Raised (Exception e)));
        [reflexivity | | discriminate].
      rewrite parse_number_round_eq. simpl. rewrite Hexit, Hmenu, Hnumber, Hrest.
      reflexivity.
  - rewrite (while_True_leave _ (parse_number_round B prompt) _
               (Console rest' (out ++ [Text prompt]) err) (Raised KeyboardInterrupt));
      [reflexivity | | discriminate].
    rewrite parse_number_round_eq. reflexivity.
Qed.

(** X9.  [_parse_number_input] asks until it is given a number or a
    command: each line that is neither is answered with "Entrada
    inválida. ..." and the prompt again.  The first other line decides:
    an exit command raises SystemExit(0), a menu command returns None, a
    number is returned; the end of the input raises EOFError and a Ctrl-C
    KeyboardInterrupt, neither of which the function handles. *)
Theorem parse_number_input_script (prompt : string) (lines : list string)
    (rest : list event) (out err : list written) :
  Forall (fun line => refused B line = true) lines ->
  match rest with
  | Typed line :: _ => refused B line = false
  | _ => True
  end ->
  _parse_number_input B prompt (Console (map Typed lines ++ rest) out err) =
  let out' := out ++ refusals prompt lines ++ [Text prompt] in
  match rest with
  | [] => (Raised EOFError, Console [] out' err)
  | Interrupt :: rest' => (Raised KeyboardInterrupt, Console rest' out' err)
  | Typed line :: rest' =>
      (if _is_exit B (strip line) then Raised (SystemExit 0)
       else if _is_menu B (strip line) then Done None
       else
         match parse_number B (strip line) with
         | Return number => Done (Some number)
         | Raise e => Raised (Exception e)
         end,
       Console rest' out' err)
  end.
Proof.
  intros Hlines Hrest.
  unfold _parse_number_input, io_bind.
  rewrite (parse_number_rounds prompt lines rest out err Hlines),
          (parse_number_end prompt rest _ err Hrest).
  assert (Hout : out ++ refusals prompt lines ++ [Text prompt]
                 = (out ++ refusals prompt lines) ++ [Text prompt])
    by (rewrite <- app_assoc; reflexivity).
  cbv zeta. rewrite Hout.
  destruct rest as [ | [line | ] rest']; try reflexivity.
  destruct (_is_exit B (strip line)); [reflexivity | ].
  destruct (_is_menu B (strip line)); [reflexivity | ].
  destruct (parse_number B (strip line)); reflexivity.
Qed.

(** What [_parse_number_input] leaves behind: it ends, and it has read
    when it returns. *)
Lemma parse_number_input_ends (prompt : string) (w : console) :
  match _parse_number_input B prompt w with
  | (Done number, w') =>
      later w w' /\ (List.length (stdin w') < List.length (stdin w))%nat
      /\ match number with
         | Some v =>
             exists line, In (Typed line) (stdin w)
                          /\ command B line = false
                          /\ parse_number B (strip line) = Return v
         | None => True
         end
  | (Raised r, w') => later w w' /\ ends_mode r
  | (Unfinished, _) => False
  end.
Proof.
  unfold _parse_number_input, io_bind.
  pose (P := fun (o : outcome (option (option pyvalue))) (w' : console) =>
               match o with
               | Done (Some number) =>
                   later w w' /\ (List.length (stdin w') < List.length (stdin w))%nat
                   /\ match number with
                      | Some v =>
                          exists line, In (Typed line) (stdin w)
                                       /\ command B line = false
                                       /\ parse_number B (strip line) = Return v
                      | None => True
                      end
               | Done None => False
               | Raised r => later w w' /\ ends_mode r
               | Unfinished => False
               end).
  assert (Hloop : P (fst (while_True (parse_number_round B prompt) w))
                    (snd (while_True (parse_number_round B prompt) w))).
  { apply (while_True_rule _ _ (later w)); [apply later_refl | ].
    intros w1 Hw1. rewrite parse_number_round_eq.
    destruct (stdin w1) as [ | [line | ] rest] eqn:Hstdin; cbv zeta.
    - split; [ | exact I]. apply (later_trans _ _ _ Hw1).
      exists []. rewrite Hstdin. reflexivity.
    - assert (Hread : forall out err, later w (Console rest out err)).
      { intros out err. apply (later_trans _ _ _ Hw1), (later_read _ _ _ _ _ Hstdin). }
      assert (Hlt : (List.length rest < List.length (stdin w))%nat).
      { apply later_length in Hw1. rewrite Hstdin in Hw1. simpl in Hw1. lia. }
      assert (Hin : In (Typed line) (stdin w)).
      { apply (later_In _ _ _ Hw1). rewrite Hstdin. left. reflexivity. }
      destruct (_is_exit B (strip line)) eqn:Hexit;
        [split; [apply Hread | reflexivity] | ].
      destruct (_is_menu B (strip line)) eqn:Hmenu;
        [split; [apply Hread | split; [exact Hlt | exact I]] | ].
      destruct (parse_number B (strip line)) as [number | e] eqn:Hnumber.
      + split; [apply Hread | split; [exact Hlt | ]].
        exists line. split; [exact Hin | split; [ | exact Hnumber]].
        unfold command. rewrite Hexit, Hmenu. reflexivity.
      + destruct (isinstance_ValueError e).
        * split; [simpl; lia | apply Hread].
        * split; [apply Hread | exact I].
    - split; [ | exact I]. apply (later_trans _ _ _ Hw1), (later_read _ _ _ _ _ Hstdin). }
  destruct (while_True (parse_number_round B prompt) w) as [[[number | ] | r | ] w'];
    simpl in *; try exact Hloop; destruct Hloop.
Qed.


(** X10.  A number [_parse_number_input] returns is what [float] made of
    a line of the input, as an [int] when it has no fractional part
    (however it was written) and as a [float] otherwise: never a float
    that is a whole number, and never a complex number. *)
Theorem parse_number_input_kinds (prompt : string) (w w' : console) (v : pyvalue) :
  _parse_number_input B prompt w = (Done (Some v), w') ->
  exists line f,
    In (Typed line) (stdin w)
    /\ float_of_str B (strip line) = Return f
    /\ match v with
       | PyInt z => float_is_integer f = true /\ float_int f = Return z
       | PyFloat g => float_is_integer f = false /\ g = f
       | PyComplex _ _ => False
       end.
Proof.
  intros Hrun. assert (Hends := parse_number_input_ends prompt w).
  rewrite Hrun in Hends. destruct Hends as [_ [_ [line [Hin [_ Hnumber]]]]].
  exists line. unfold parse_number in Hnumber.
  destruct (float_of_str B (strip line)) as [f | e]; [ | discriminate Hnumber].
  exists f. split; [exact Hin | split; [reflexivity | ]].
  cbn [bind] in Hnumber.
  destruct (float_is_integer f).
  - destruct (float_int f) as [z | e]; [ | discriminate Hnumber].
    injection Hnumber as <-. split; reflexivity.
  - injection Hnumber as <-. split; reflexivity.
Qed.

(** *** Choosing the operation *)

Lemma choose_operation_round_eq (w : console) :
  choose_operation_round M B w =
  let out := stdout w ++ [Text (operation_prompt M)] in
  match stdin w with
  | [] => (Raised EOFError, Console [] out (stderr w))
  | Interrupt :: rest => (Raised KeyboardInterrupt, Console rest out (stderr w))
  | Typed line :: rest =>
      if _is_exit B (strip line) then (Raised (SystemExit 0), Console rest out (stderr w))
      else if _is_menu B (strip line)
      then (Done (ReturnFrom None), Console rest out (stderr w))
      else if set_in (strip line) (map fst (OP_SYMBOL_TO_FUNC M))
      then (Done (ReturnFrom (Some (strip line))), Console rest out (stderr w))
      else (Done Continue,
            Console rest
              (out ++ [Text "Operação inválida. Use um dos símbolos listados, 'menu' ou 'sair'.";
                       Text newline])
              (stderr w))
  end.
Proof.
  unfold choose_operation_round, io_bind, input.
  destruct (stdin w) as [ | [line | ] rest]; try reflexivity. cbv zeta.
  cbn [stdin stdout stderr].
  destruct (_is_exit B (strip line)); [reflexivity | ].
  destruct (_is_menu B (strip line)); [reflexivity | ].
  destruct (set_in (strip line) (map fst (OP_SYMBOL_TO_FUNC M))); reflexivity.
Qed.

(** [s in d] for a dict is to have an item under the key [s]. *)
Lemma set_in_keys (V : Type) (s : string) (d : list (string * V)) :
  set_in s (map fst d) = true <-> exists v, dict_get String.eqb s d = Some v.
Proof.
  unfold set_in. induction d as [ | [k v] d IH]; simpl.
  - split; [discriminate | intros [v Hv]; discriminate Hv].
  - destruct (String.eqb s k).
    + split; [intros _; exists v; reflexivity | reflexivity].
    + exact IH.
Qed.

Lemma choose_operation_ends (w : console) :
  match _choose_operation M B w with
  | (Done op, w') =>
      later w w' /\ (List.length (stdin w') < List.length (stdin w))%nat
      /\ match op with
         | Some symbol =>
             exists func,
               dict_get String.eqb symbol (OP_SYMBOL_TO_FUNC M) = Some func
         | None => True
         end
  | (Raised r, w') =>
      later w w' /\ ends_mode r /\ forall e, r <> Exception e
  | (Unfinished, _) => False
  end.
Proof.
  unfold _choose_operation, io_bind.
  pose (P := fun (o : outcome (option (option string))) (w' : console) =>
               match o with
               | Done (Some op) =>
                   later w w' /\ (List.length (stdin w') < List.length (stdin w))%nat
                   /\ match op with
                      | Some symbol =>
                          exists func,
                            dict_get String.eqb symbol (OP_SYMBOL_TO_FUNC M) = Some func
                      | None => True
                      end
               | Done None => False
               | Raised r => later w w' /\ ends_mode r /\ forall e, r <> Exception e
               | Unfinished => False
               end).
  assert (Hloop : P (fst (while_True (choose_operation_round M B) w))
                    (snd (while_True (choose_operation_round M B) w))).
  { apply (while_True_rule _ _ (later w)); [apply later_refl | ].
    intros w1 Hw1. rewrite choose_operation_round_eq.
    destruct (stdin w1) as [ | [line | ] rest] eqn:Hstdin; cbv zeta.
    - split; [ | split; [exact I | discriminate]]. apply (later_trans _ _ _ Hw1).
      exists []. rewrite Hstdin. reflexivity.
    - assert (Hread : forall out err, later w (Console rest out err)).
      { intros out err. apply (later_trans _ _ _ Hw1), (later_read _ _ _ _ _ Hstdin). }
      assert (Hlt : (List.length rest < List.length (stdin w))%nat).
      { apply later_length in Hw1. rewrite Hstdin in Hw1. simpl in Hw1. lia. }
      destruct (_is_exit B (strip line)) eqn:Hexit;
        [split; [apply Hread | split; [reflexivity | discriminate]] | ].
      destruct (_is_menu B (strip line)) eqn:Hmenu;
        [split; [apply Hread | split; [exact Hlt | exact I]] | ].
      destruct (set_in (strip line) (map fst (OP_SYMBOL_TO_FUNC M))) eqn:Hkey.
      + split; [apply Hread | split; [exact Hlt | ]].
        apply set_in_keys. exact Hkey.
      + split; [simpl; lia | apply Hread].
    - split; [ | split; [exact I | discriminate]].
      apply (later_trans _ _ _ Hw1), (later_read _ _ _ _ _ Hstdin). }
  destruct (while_True (choose_operation_round M B) w) as [[[op | ] | r | ] w'];
    simpl in *; try exact Hloop; destruct Hloop.
Qed.

(** *** The operation *)

Lemma guided_operation_eq (first second : pyvalue) (symbol : string)
    (func : pyvalue -> pyvalue -> result pyvalue) (w : console) :
  dict_get String.eqb symbol (OP_SYMBOL_TO_FUNC M) = Some func ->
  guided_operation M B first symbol second w =
  match (result <- func first second ;; str_of B result) with
  | Return text =>
      (Done tt,
       Console (stdin w) (stdout w ++ [Text "Resultado: "; text; Text newline])
         (stderr w))
  | Raise e =>
      if isinstance_ZeroDivisionError e
      then (Done tt,
            Console (stdin w)
              (stdout w ++ [Text "Erro: divisão por zero não é permitida."; Text newline])
              (stderr w))
      else (Raised (Exception e), w)
  end.
Proof.
  intros Hfunc. unfold guided_operation. rewrite Hfunc.
  destruct (result <- func first second ;; str_of B result) as [text | e];
    [reflexivity | ].
  destruct (isinstance_ZeroDivisionError e); reflexivity.
Qed.

(** X11.  The guided mode never fails to find its operation: what
    [_choose_operation] returns is one of the seven symbols of
    [OP_SYMBOL_TO_FUNC], so the lookup of [_guided_loop] raises no
    KeyError; the operation is applied, and the [try] statement ends with
    the result printed, with the message for a ZeroDivisionError, or with
    the exception that the operation, or [str] of its result, raised. *)
Theorem chosen_operation_is_known (w w' : console) (symbol : string) :
  _choose_operation M B w = (Done (Some symbol), w') ->
  In symbol ["+"; "-"; "*"; "/"; "//"; "%"; "**"]
  /\ exists func,
       dict_get String.eqb symbol (OP_SYMBOL_TO_FUNC M) = Some func
       /\ forall first second w1,
            fst (guided_operation M B first symbol second w1) =
            match (result <- func first second ;; str_of B result) with
            | Return _ => Done tt
            | Raise e =>
                if isinstance_ZeroDivisionError e then Done tt else Raised (Exception e)
            end.
Proof.
  intros Hrun. assert (Hends := choose_operation_ends w).
  rewrite Hrun in Hends. destruct Hends as [_ [_ [func Hfunc]]].
  split.
  - assert (Hkey : set_in symbol (map fst (OP_SYMBOL_TO_FUNC M)) = true)
      by (apply set_in_keys; exists func; exact Hfunc).
    unfold set_in in Hkey. apply existsb_exists in Hkey as [key [Hin Heq]].
    apply String.eqb_eq in Heq. subst key. exact Hin.
  - exists func. split; [exact Hfunc | ].
    intros first second w1. rewrite (guided_operation_eq first second symbol func w1 Hfunc).
    destruct (result <- func first second ;; str_of B result) as [text | e];
      [reflexivity | ].
    destruct (isinstance_ZeroDivisionError e); reflexivity.
Qed.

(** *** The loop *)

Lemma guided_round_ends (w : console) :
  match guided_round M B w with
  | (Done _, w') =>
      later w w' /\ (List.length (stdin w') < List.length (stdin w))%nat
  | (Raised r, w') => later w w' /\ ends_mode r
  | (Unfinished, _) => False
  end.
Proof.
  unfold guided_round, io_bind.
  assert (H1 := parse_number_input_ends "Primeiro número: " w).
  destruct (_parse_number_input B "Primeiro número: " w) as [[[first | ] | r | ] w1];
    try exact H1; try (destruct H1 as [Hl [Hlt _]]; split; assumption).
  destruct H1 as [Hl1 [Hlt1 _]].
  assert (H2 := choose_operation_ends w1).
  destruct (_choose_operation M B w1) as [[[symbol | ] | r | ] w2];
    try (exfalso; exact H2).
  - destruct H2 as [Hl2 [Hlt2 [func Hfunc]]].
    assert (H3 := parse_number_input_ends "Segundo número: " w2).
    destruct (_parse_number_input B "Segundo número: " w2) as [[[second | ] | r | ] w3];
      try (exfalso; exact H3).
    + destruct H3 as [Hl3 [Hlt3 _]].
      rewrite (guided_operation_eq first second symbol func w3 Hfunc).
      assert (Hl : later w w3) by (exact (later_trans _ _ _ (later_trans _ _ _ Hl1 Hl2) Hl3)).
      destruct (result <- func first second ;; str_of B result) as [text | e].
      * split; [destruct Hl as [read Hread]; exists read; exact Hread | simpl; lia].
      * destruct (isinstance_ZeroDivisionError e).
        -- split; [destruct Hl as [read Hread]; exists read; exact Hread | simpl; lia].
        -- split; [exact Hl | exact I].
    + destruct H3 as [Hl3 [Hlt3 _]].
      split; [exact (later_trans _ _ _ (later_trans _ _ _ Hl1 Hl2) Hl3) | lia].
    + destruct H3 as [Hl3 Hr].
      split; [exact (later_trans _ _ _ (later_trans _ _ _ Hl1 Hl2) Hl3) | exact Hr].
  - destruct H2 as [Hl2 [Hlt2 _]]. split; [exact (later_trans _ _ _ Hl1 Hl2) | lia].
  - destruct H2 as [Hl2 [Hr _]]. split; [exact (later_trans _ _ _ Hl1 Hl2) | exact Hr].
Qed.

Lemma guided_round_consuming : consuming (guided_round M B).
Proof.
  intros w. assert (Hends := guided_round_ends w).
  destruct (guided_round M B w) as [[[ | | a] | r | ] w']; try exact I.
  - destruct Hends as [_ Hlt]. exact Hlt.
  - exact Hends.
Qed.

Lemma guided_loop_ends (w : console) :
  match _guided_loop M B w with
  | (Done _, w') => later w w'
  | (Raised r, w') => later w w' /\ ends_mode r
  | (Unfinished, _) => False
  end.
Proof.
  assert (Hloop : forall w0,
             _guided_loop M B w0 =
             (while_True (guided_round M B) >> ret tt)
               (Console (stdin w0) (stdout w0 ++ guided_banner) (stderr w0)))
    by reflexivity.
  rewrite Hloop. unfold io_bind.
  set (w1 := Console (stdin w) (stdout w ++ guided_banner) (stderr w)).
  pose (P := fun (o : outcome (option unit)) (w' : console) =>
               match o with
               | Done _ => later w w'
               | Raised r => later w w' /\ ends_mode r
               | Unfinished => False
               end).
  assert (Hrule : P (fst (while_True (guided_round M B) w1))
                    (snd (while_True (guided_round M B) w1))).
  { apply (while_True_rule _ _ (later w)); [exists []; reflexivity | ].
    intros w2 Hw2. assert (Hends := guided_round_ends w2).
    destruct (guided_round M B w2) as [[[ | | a] | r | ] w'].
    - destruct Hends as [Hl Hlt]. split; [exact Hlt | exact (later_trans _ _ _ Hw2 Hl)].
    - destruct Hends as [Hl _]. exact (later_trans _ _ _ Hw2 Hl).
    - destruct Hends as [Hl _]. exact (later_trans _ _ _ Hw2 Hl).
    - destruct Hends as [Hl Hr]. split; [exact (later_trans _ _ _ Hw2 Hl) | exact Hr].
    - exact Hends. }
  destruct (while_True (guided_round M B) w1) as [[a | r | ] w']; exact Hrule.
Qed.

End GuidedMode.

Lemma parse_number_input_script_witness :
  _parse_number_input sample_builtins "Primeiro número: "
    (fresh [Typed "abc"; Typed ""; Typed " 2.0 "; Typed "x"])
  = (Done (Some (PyInt 2)),
     Console [Typed "x"]
       [Text "Primeiro número: ";
        Text "Entrada inválida. Digite um número, 'menu' ou 'sair'."; Text newline;
        Text "Primeiro número: ";
        Text "Entrada inválida. Digite um número, 'menu' ou 'sair'."; Text newline;
        Text "Primeiro número: "]
       []).
Proof.
  apply (parse_number_input_script sample_builtins "Primeiro número: "
           ["abc"; ""] [Typed " 2.0 "; Typed "x"] [] []).
  - repeat constructor.
  - reflexivity.
Defined.

Lemma parse_number_input_kinds_witness :
  exists line f,
    In (Typed line) [Typed "abc"; Typed " 2.50 "; Typed "x"]
    /\ float_of_str sample_builtins (strip line) = Return f
    /\ float_is_integer f = false
    /\ S754_finite false 5629499534213120 (-51) = f.
Proof.
  apply (parse_number_input_kinds sample_builtins "Segundo número: "
           (fresh [Typed "abc"; Typed " 2.50 "; Typed "x"])
           (Console [Typed "x"]
              [Text "Segundo número: ";
               Text "Entrada inválida. Digite um número, 'menu' ou 'sair'."; Text newline;
               Text "Segundo número: "]
              [])
           (PyFloat (S754_finite false 5629499534213120 (-51)))).
  reflexivity.
Defined.

Lemma chosen_operation_is_known_witness :
  In "//" ["+"; "-"; "*"; "/"; "//"; "%"; "**"]
  /\ exists func,
       dict_get String.eqb "//" (OP_SYMBOL_TO_FUNC sample_mathlib) = Some func
       /\ forall first second w1,
            fst (guided_operation sample_mathlib sample_builtins first "//" second w1) =
            match (result <- func first second ;; str_of sample_builtins result) with
            | Return _ => Done tt
            | Raise e =>
                if isinstance_ZeroDivisionError e then Done tt else Raised (Exception e)
            end.
Proof.
  apply (chosen_operation_is_known sample_mathlib sample_builtins
           (fresh [Typed "^"; Typed " // "; Typed "x"])
           (Console [Typed "x"]
              [Text (operation_prompt sample_mathlib);
               Text "Operação inválida. Use um dos símbolos listados, 'menu' ou 'sair'.";
               Text newline;
               Text (operation_prompt sample_mathlib)]
              [])
           "//").
  reflexivity.
Defined.
(** ** The menu and [main] *)

Section Main.

Local Open Scope list_scope.

Variable H : Host.
Variable B : Builtins.

Lemma expression_loop_ends (w : console) :
  match _expression_loop H B w with
  | (Done _, w') => later w w'
  | (Raised r, w') => later w w' /\ ends_mode r
  | (Unfinished, _) => False
  end.
Proof.
  assert (Hloop : forall w0,
             _expression_loop H B w0 =
             (while_True (expression_round H B) >> ret tt)
               (Console (stdin w0) (stdout w0 ++ expression_banner) (stderr w0)))
    by reflexivity.
  rewrite Hloop. unfold io_bind.
  set (w1 := Console (stdin w) (stdout w ++ expression_banner) (stderr w)).
  pose (P := fun (o : outcome (option unit)) (w' : console) =>
               match o with
               | Done _ => later w w'
               | Raised r => later w w' /\ ends_mode r
               | Unfinished => False
               end).
  assert (Hrule : P (fst (while_True (expression_round H B) w1))
                    (snd (while_True (expression_round H B) w1))).
  { apply (while_True_rule _ _ (later w)); [exists []; reflexivity | ].
    intros w2 Hw2. rewrite expression_round_eq.
    destruct (stdin w2) as [ | [line | ] rest] eqn:Hstdin; cbv zeta.
    - split; [ | exact I].
      apply (later_trans _ _ _ Hw2). exists []. rewrite Hstdin. reflexivity.
    - assert (Hread : forall out err, later w (Console rest out err)).
      { intros out err. apply (later_trans _ _ _ Hw2), (later_read _ _ _ _ _ Hstdin). }
      destruct (_is_exit B (strip line)); [split; [apply Hread | reflexivity] | ].
      destruct (_is_menu B (strip line)); [apply Hread | ].
      destruct (reply H B line) as [text | e].
      + split; [simpl; lia | apply Hread].
      + split; [apply Hread | exact I].
    - split; [ | exact I].
      apply (later_trans _ _ _ Hw2), (later_read _ _ _ _ _ Hstdin). }
  destruct (while_True (expression_round H B) w1) as [[a | r | ] w']; exact Hrule.
Qed.

Lemma run_mode_eq (mode : io unit) (w : console) :
  run_mode mode w =
  match mode w with
  | (Done _, w') => (Done Continue, w')
  | (Raised (SystemExit _), w') => (Done (ReturnFrom 0), w')
  | (Raised r, w') => (Raised r, w')
  | (Unfinished, w') => (Unfinished, w')
  end.
Proof.
  unfold run_mode, try_except, io_bind, ret.
  destruct (mode w) as [[a | r | ] w']; try reflexivity.
  destruct r; reflexivity.
Qed.

Lemma menu_round_eq (w : console) :
  menu_round H B w =
  let out := stdout w ++ [menu_prompt] in
  match stdin w with
  | [] => (Done Break, Console [] (out ++ [Text newline]) (stderr w))
  | Interrupt :: rest => (Done Break, Console rest (out ++ [Text newline]) (stderr w))
  | Typed line :: rest =>
      let w1 := Console rest out (stderr w) in
      if _is_exit B (strip line) then (Done Break, w1)
      else if set_in (strip line) ["1"; "g"; "G"]
      then run_mode (_guided_loop (mathlib H) B) w1
      else if set_in (strip line) ["2"; "e"; "E"]
      then run_mode (_expression_loop H B) w1
      else (Done Continue,
            Console rest
              (out ++ [Text "Opção inválida. Digite 1 (Guiado), 2 (Expressão) ou 'sair'.";
                       Text newline])
              (stderr w))
  end.
Proof.
  unfold menu_round, io_bind, try_except, input, menu_prompt.
  destruct (stdin w) as [ | [line | ] rest]; try reflexivity.
  cbv zeta. cbn [stdin stdout stderr ret].
  destruct (_is_exit B (strip line)); [reflexivity | ].
  destruct (set_in (strip line) ["1"; "g"; "G"]); [reflexivity | ].
  destruct (set_in (strip line) ["2"; "e"; "E"]); reflexivity.
Qed.

Lemma menu_round_ends (w : console) :
  match menu_round H B w with
  | (Done Continue, w') => (List.length (stdin w') < List.length (stdin w))%nat
  | (Done Break, _) => True
  | (Done (ReturnFrom status), _) => status = 0
  | (Raised r, _) => ends_mode r /\ forall status, r <> SystemExit status
  | (Unfinished, _) => False
  end.
Proof.
  rewrite menu_round_eq.
  destruct (stdin w) as [ | [line | ] rest]; try exact I. cbv zeta.
  destruct (_is_exit B (strip line)); [exact I | ].
  set (w1 := Console rest (stdout w ++ [menu_prompt]) (stderr w)).
  assert (Hmode : forall mode : io unit,
             match mode w1 with
             | (Done _, w') => later w1 w'
             | (Raised r, w') => later w1 w' /\ ends_mode r
             | (Unfinished, _) => False
             end ->
             match run_mode mode w1 with
             | (Done Continue, w') =>
                 (List.length (stdin w') < S (List.length rest))%nat
             | (Done Break, _) => True
             | (Done (ReturnFrom status), _) => status = 0
             | (Raised r, _) => ends_mode r /\ forall status, r <> SystemExit status
             | (Unfinished, _) => False
             end).
  { intros mode Hends. rewrite run_mode_eq.
    destruct (mode w1) as [[a | r | ] w'].
    - apply later_length in Hends. simpl in Hends. lia.
    - destruct Hends as [_ Hr]. destruct r; try reflexivity;
        try (split; [exact Hr | discriminate]).
    - exact Hends. }
  destruct (set_in (strip line) ["1"; "g"; "G"]).
  { apply Hmode. exact (guided_loop_ends (mathlib H) B w1). }
  destruct (set_in (strip line) ["2"; "e"; "E"]).
  { apply Hmode. exact (expression_loop_ends w1). }
  simpl. lia.
Qed.

Lemma menu_round_consuming : consuming (menu_round H B).
Proof.
  intros w. assert (Hends := menu_round_ends w).
  destruct (menu_round H B w) as [[[ | | a] | r | ] w']; try exact I; exact Hends.
Qed.

Lemma main_interactive_eq (w : console) :
  main H B [] w =
  (r <~ while_True (menu_round H B) ;;
   ret (match r with
        | Some status => status
        | None => 0
        end))
    (Console (stdin w) (stdout w ++ header) (stderr w)).
Proof.
  unfold main, _print_header, io_bind at 1 2 3, print, header.
  cbn [stdin stdout stderr]. rewrite <- !app_assoc. reflexivity.
Qed.

(** X12.  With arguments, [main] evaluates the arguments joined by single
    spaces and reads nothing.  When the evaluation raises, it prints
    "Erro: " and the exception on the standard error, nothing on the
    standard output, and returns 1.  When the evaluation returns, it
    prints the result on the standard output and returns 0; but the result
    is printed outside the [try] statement, so when it cannot be written
    (an [int] of too many digits) the exception of [str] gets out of
    [main] and nothing is printed. *)
Theorem main_with_arguments (argv : list string) (w : console) :
  argv <> [] ->
  main H B argv w = main H B [String.concat " " argv] w
  /\ stdin (snd (main H B argv w)) = stdin w
  /\ match evaluate_expression H (String.concat " " argv) with
     | Return result =>
         match str_error B result with
         | None =>
             fst (main H B argv w) = Done 0
             /\ stdout (snd (main H B argv w)) = stdout w ++ [StrOf result; Text newline]
             /\ stderr (snd (main H B argv w)) = stderr w
         | Some e => main H B argv w = (Raised (Exception e), w)
         end
     | Raise e =>
         fst (main H B argv w) = Done 1
         /\ stdout (snd (main H B argv w)) = stdout w
         /\ stderr (snd (main H B argv w))
            = stderr w ++ [Text "Erro: "; StrOfExc e; Text newline]
     end.
Proof.
  intros Hargv. destruct argv as [ | arg argv]; [destruct (Hargv eq_refl) | ].
  unfold main. change (String.concat " " [String.concat " " (arg :: argv)])
    with (String.concat " " (arg :: argv)).
  split; [reflexivity | ].
  destruct (evaluate_expression H (String.concat " " (arg :: argv))) as [result | e];
    [ | repeat split].
  unfold print_number, str_of, io_bind.
  destruct (str_error B result) as [e | ]; repeat split.
Qed.

(** X13.  However the input goes, the interactive [main] ends, and it
    ends in one of two ways: it returns 0, or an exception that one of
    the modes does not handle gets out of it (EOFError or
    KeyboardInterrupt from a prompt inside a mode, an exception of the
    guided mode's number or operation, or the exception of a result that
    cannot be written).  It returns no other status, [SystemExit] never
    gets out of it, and no KeyError is raised. *)
Theorem main_interactive_outcome (w : console) :
  match fst (main H B [] w) with
  | Done status => status = 0
  | Raised (SystemExit _) | Raised (KeyError _) => False
  | Raised _ => True
  | Unfinished => False
  end.
Proof.
  rewrite main_interactive_eq. unfold io_bind.
  set (w1 := Console (stdin w) (stdout w ++ header) (stderr w)).
  pose (P := fun (o : outcome (option Z)) (w' : console) =>
               match o with
               | Done (Some status) => status = 0
               | Done None => True
               | Raised (SystemExit _) | Raised (KeyError _) => False
               | Raised _ => True
               | Unfinished => False
               end).
  assert (Hrule : P (fst (while_True (menu_round H B) w1))
                    (snd (while_True (menu_round H B) w1))).
  { apply (while_True_rule _ _ (fun _ => True)); [exact I | ].
    intros w2 _. assert (Hends := menu_round_ends w2).
    destruct (menu_round H B w2) as [[[ | | a] | r | ] w']; try exact Hends.
    - split; [exact Hends | exact I].
    - destruct Hends as [Hr Hexit]. destruct r; try exact I; try exact Hr.
      destruct (Hexit status eq_refl). }
  destruct (while_True (menu_round H B) w1) as [[[status | ] | r | ] w'];
    simpl in *; try exact Hrule; reflexivity.
Qed.


(** *** A round of the guided mode *)

Lemma parse_number_input_number (prompt line : string) (rest : list event)
    (out err : list written) (number : pyvalue) :
  command B line = false ->
  parse_number B (strip line) = Return number ->
  _parse_number_input B prompt (Console (Typed line :: rest) out err)
  = (Done (Some number), Console rest (out ++ [Text prompt]) err).
Proof.
  intros Hcommand Hnumber.
  assert (Hend := parse_number_end B prompt (Typed line :: rest) out err).
  unfold command in Hcommand. apply orb_false_elim in Hcommand as [Hexit Hmenu].
  cbv beta iota in Hend. rewrite Hexit, Hmenu, Hnumber in Hend.
  unfold _parse_number_input, io_bind. rewrite Hend; [reflexivity | ].
  unfold refused. rewrite Hnumber, andb_false_r. reflexivity.
Qed.

Lemma choose_operation_symbol (line : string) (rest : list event)
    (out err : list written) (func : pyvalue -> pyvalue -> result pyvalue) :
  command B line = false ->
  dict_get String.eqb (strip line) (OP_SYMBOL_TO_FUNC (mathlib H)) = Some func ->
  _choose_operation (mathlib H) B (Console (Typed line :: rest) out err)
  = (Done (Some (strip line)),
     Console rest (out ++ [Text (operation_prompt (mathlib H))]) err).
Proof.
  intros Hcommand Hfunc.
  unfold command in Hcommand. apply orb_false_elim in Hcommand as [Hexit Hmenu].
  unfold _choose_operation, io_bind.
  rewrite (while_True_leave _ (choose_operation_round (mathlib H) B) _
             (Console rest (out ++ [Text (operation_prompt (mathlib H))]) err)
             (Done (ReturnFrom (Some (strip line)))));
    [reflexivity | | discriminate].
  rewrite choose_operation_round_eq. simpl. rewrite Hexit, Hmenu.
  assert (Hkey : set_in (strip line) (map fst (OP_SYMBOL_TO_FUNC (mathlib H))) = true)
    by (apply set_in_keys; exists func; exact Hfunc).
  simpl in Hkey. rewrite Hkey. reflexivity.
Qed.

Lemma guided_choice (choice : string) :
  set_in choice ["1"; "g"; "G"] = true -> _is_exit B choice = false.
Proof.
  unfold set_in. simpl. rewrite orb_false_r. intros Hchoice.
  repeat (apply orb_prop in Hchoice as [Hchoice | Hchoice]);
    apply String.eqb_eq in Hchoice; subst choice; reflexivity.
Qed.

Lemma expression_choice (choice : string) :
  set_in choice ["2"; "e"; "E"] = true ->
  _is_exit B choice = false /\ set_in choice ["1"; "g"; "G"] = false.
Proof.
  unfold set_in. simpl. rewrite orb_false_r. intros Hchoice.
  repeat (apply orb_prop in Hchoice as [Hchoice | Hchoice]);
    apply String.eqb_eq in Hchoice; subst choice; split; reflexivity.
Qed.

(** X14.  The guided mode handles one error, the division by zero.  A
    round that is given a number, a symbol of the table and a number
    applies the operation: it prints "Resultado: " and the result, or, for
    ZeroDivisionError, a message, and goes on to the next round; any other
    exception of the operation or of writing its result (OverflowError
    from a power too large for a float, say) is not handled: it ends the
    round, and with it [main], which does not return. *)
Theorem guided_round_script (a o b : string) (rest : list event)
    (out err : list written) (first second : pyvalue)
    (func : pyvalue -> pyvalue -> result pyvalue) :
  command B a = false -> parse_number B (strip a) = Return first ->
  command B o = false ->
  dict_get String.eqb (strip o) (OP_SYMBOL_TO_FUNC (mathlib H)) = Some func ->
  command B b = false -> parse_number B (strip b) = Return second ->
  guided_round (mathlib H) B (Console (Typed a :: Typed o :: Typed b :: rest) out err) =
    (let out' := out ++ [Text "Primeiro número: "; Text (operation_prompt (mathlib H));
                         Text "Segundo número: "] in
     match (result <- func first second ;; str_of B result) with
     | Return text =>
         (Done Continue,
          Console rest (out' ++ [Text "Resultado: "; text; Text newline]) err)
     | Raise e =>
         if isinstance_ZeroDivisionError e
         then (Done Continue,
               Console rest
                 (out' ++ [Text "Erro: divisão por zero não é permitida."; Text newline])
                 err)
         else (Raised (Exception e), Console rest out' err)
     end)
  /\ forall e choice,
       (result <- func first second ;; str_of B result) = Raise e ->
       isinstance_ZeroDivisionError e = false ->
       set_in (strip choice) ["1"; "g"; "G"] = true ->
       fst (main H B []
              (Console (Typed choice :: Typed a :: Typed o :: Typed b :: rest) out err))
       = Raised (Exception e).
Proof.
  intros Ha Hfirst Ho Hfunc Hb Hsecond.
  assert (Hround : forall out0,
             guided_round (mathlib H) B
               (Console (Typed a :: Typed o :: Typed b :: rest) out0 err) =
             (let out' := out0 ++ [Text "Primeiro número: ";
                                   Text (operation_prompt (mathlib H));
                                   Text "Segundo número: "] in
              match (result <- func first second ;; str_of B result) with
              | Return text =>
                  (Done Continue,
                   Console rest (out' ++ [Text "Resultado: "; text; Text newline])
                     err)
              | Raise e =>
                  if isinstance_ZeroDivisionError e
                  then (Done Continue,
                        Console rest
                          (out' ++ [Text "Erro: divisão por zero não é permitida.";
                                    Text newline])
                          err)
                  else (Raised (Exception e), Console rest out' err)
              end)).
  { intros out0. unfold guided_round, io_bind.
    rewrite (parse_number_input_number _ a _ out0 err first Ha Hfirst).
    rewrite (choose_operation_symbol o _ _ err func Ho Hfunc).
    rewrite (parse_number_input_number _ b _ _ err second Hb Hsecond).
    rewrite (guided_operation_eq (mathlib H) B first second (strip o) func _ Hfunc).
    cbv zeta. cbn [stdin stdout stderr].
    assert (Hout : ((out0 ++ [Text "Primeiro número: "])
                      ++ [Text (operation_prompt (mathlib H))])
                     ++ [Text "Segundo número: "]
                   = out0 ++ [Text "Primeiro número: ";
                              Text (operation_prompt (mathlib H));
                              Text "Segundo número: "])
      by (rewrite <- !app_assoc; reflexivity).
    rewrite Hout.
    destruct (result <- func first second ;; str_of B result) as [text | e];
      [reflexivity | ].
    destruct (isinstance_ZeroDivisionError e); reflexivity. }
  split; [exact (Hround out) | ].
  intros e choice He Hzero Hchoice.
  rewrite main_interactive_eq. unfold io_bind. cbn [stdin stdout stderr].
  set (out1 := ((out ++ header) ++ [menu_prompt]) ++ guided_banner).
  set (out2 := out1 ++ [Text "Primeiro número: "; Text (operation_prompt (mathlib H));
                        Text "Segundo número: "]).
  rewrite (while_True_leave _ (menu_round H B) _ (Console rest out2 err)
             (Raised (Exception e))); [reflexivity | | discriminate].
  rewrite menu_round_eq. cbv zeta. cbn [stdin stdout stderr].
  rewrite (guided_choice _ Hchoice), Hchoice, run_mode_eq.
  assert (Hloop : forall w0,
             _guided_loop (mathlib H) B w0 =
             (while_True (guided_round (mathlib H) B) >> ret tt)
               (Console (stdin w0) (stdout w0 ++ guided_banner) (stderr w0)))
    by reflexivity.
  rewrite Hloop. unfold io_bind. cbn [stdin stdout stderr]. fold out1.
  rewrite (while_True_leave _ (guided_round (mathlib H) B) _ (Console rest out2 err)
             (Raised (Exception e))); [reflexivity | | discriminate].
  rewrite Hround. cbv zeta. rewrite He, Hzero. reflexivity.
Qed.

(** *** The end of the input *)

(** X15.  The end of the input (and Ctrl-C) is handled at the menu only.
    When the input ends at the menu, [main] prints an empty line and
    returns 0.  When it ends inside the expression mode, at a prompt
    [>>>], EOFError gets out of [main]: a session of expressions read from
    a file or a pipe ends with that exception unless its last line is an
    exit command, or a menu command, after which the menu meets the end
    of the input and [main] returns 0. *)
Theorem end_of_input (out err : list written) :
  main H B [] (Console [] out err)
    = (Done 0, Console [] (out ++ header ++ [menu_prompt; Text newline]) err)
  /\ (forall rest,
        main H B [] (Console (Interrupt :: rest) out err)
        = (Done 0, Console rest (out ++ header ++ [menu_prompt; Text newline]) err))
  /\ (forall choice lines,
        set_in (strip choice) ["2"; "e"; "E"] = true ->
        Forall (fun line => answered H B line = true) lines ->
        fst (main H B [] (Console (Typed choice :: map Typed lines) out err))
        = Raised EOFError)
  /\ (forall choice lines last,
        set_in (strip choice) ["2"; "e"; "E"] = true ->
        Forall (fun line => answered H B line = true) lines ->
        command B last = true ->
        fst (main H B [] (Console (Typed choice :: map Typed lines ++ [Typed last]) out err))
        = Done 0).
Proof.
  assert (Hmenu : forall rest,
             menu_round H B (Console rest (out ++ header) err) =
             match rest with
             | [] | Interrupt :: _ =>
                 (Done Break,
                  Console (tl rest) (out ++ header ++ [menu_prompt; Text newline]) err)
             | _ => menu_round H B (Console rest (out ++ header) err)
             end).
  { intros [ | [line | ] rest]; try reflexivity;
      rewrite menu_round_eq; cbv zeta; cbn [stdin stdout stderr tl];
      rewrite <- !app_assoc; reflexivity. }
  assert (Hmode : forall choice events,
             set_in (strip choice) ["2"; "e"; "E"] = true ->
             menu_round H B (Console (Typed choice :: events) (out ++ header) err)
             = run_mode (_expression_loop H B)
                 (Console events ((out ++ header) ++ [menu_prompt]) err)).
  { intros choice events Hchoice. rewrite menu_round_eq. cbv zeta.
    cbn [stdin stdout stderr].
    destruct (expression_choice _ Hchoice) as [-> ->]. rewrite Hchoice. reflexivity. }
  split; [ | split; [ | split]].
  - rewrite main_interactive_eq. unfold io_bind. cbn [stdin stdout stderr].
    rewrite (while_True_leave _ (menu_round H B) _ _ (Done Break) (Hmenu []));
      [reflexivity | discriminate].
  - intros rest. rewrite main_interactive_eq. unfold io_bind. cbn [stdin stdout stderr].
    rewrite (while_True_leave _ (menu_round H B) _ _ (Done Break)
               (Hmenu (Interrupt :: rest))); [reflexivity | discriminate].
  - intros choice lines Hchoice Hlines.
    rewrite main_interactive_eq. unfold io_bind. cbn [stdin stdout stderr].
    assert (Hround := Hmode choice (map Typed lines) Hchoice).
    rewrite run_mode_eq in Hround.
    rewrite expression_loop_eq in Hround. unfold io_bind in Hround.
    cbn [stdin stdout stderr] in Hround.
    rewrite <- (app_nil_r (map Typed lines)) in Hround at 2.
    rewrite (expression_rounds H B lines [] _ err Hlines),
            (expression_loop_end H B [] _ err I) in Hround.
    rewrite (while_True_leave _ (menu_round H B) _ _ (Raised EOFError) Hround);
      [reflexivity | discriminate].
  - intros choice lines last Hchoice Hlines Hlast.
    rewrite main_interactive_eq. unfold io_bind. cbn [stdin stdout stderr].
    assert (Hround := Hmode choice (map Typed lines ++ [Typed last]) Hchoice).
    rewrite run_mode_eq in Hround.
    assert (Hnot : answered H B last = false)
      by (unfold answered; rewrite Hlast; reflexivity).
    rewrite expression_loop_eq in Hround. unfold io_bind in Hround.
    cbn [stdin stdout stderr] in Hround.
    rewrite (expression_rounds H B lines [Typed last] _ err Hlines),
            (expression_loop_end H B [Typed last] _ err Hnot) in Hround.
    unfold command in Hlast.
    destruct (_is_exit B (strip last)) eqn:Hexit.
    + rewrite (while_True_leave _ (menu_round H B) _ _ (Done (ReturnFrom 0)) Hround);
        [reflexivity | discriminate].
    + simpl in Hlast. rewrite Hlast in Hround.
      rewrite (while_True_round _ (menu_round H B) _ _ menu_round_consuming Hround).
      match goal with
      | |- context [while_True _ (Console [] ?o err)] => set (out1 := o)
      end.
      rewrite (while_True_leave _ (menu_round H B) _
                 (Console [] ((out1 ++ [menu_prompt]) ++ [Text newline]) err)
                 (Done Break)); [reflexivity | | discriminate].
      rewrite menu_round_eq. reflexivity.
Qed.

(** *** The menu *)

Lemma menu_rounds (lines : list string) (rest : list event) (out err : list written) :
  Forall (fun line => unknown_choice B line = true) lines ->
  while_True (menu_round H B) (Console (map Typed lines ++ rest) out err)
  = while_True (menu_round H B) (Console rest (out ++ menu_answers lines) err).
Proof.
  intros Hlines. revert out.
  induction Hlines as [ | line lines Hline _ IH]; intros out.
  - simpl. rewrite app_nil_r. reflexivity.
  - unfold unknown_choice in Hline.
    apply andb_prop in Hline as [Hline Hexpression].
    apply andb_prop in Hline as [Hexit Hguided].
    apply negb_true_iff in Hexit, Hguided, Hexpression.
    rewrite (while_True_round _ (menu_round H B) _
               (Console (map Typed lines ++ rest) (out ++ menu_answers [line]) err)
               menu_round_consuming).
    + rewrite IH. unfold menu_answers. simpl. rewrite <- app_assoc. reflexivity.
    + rewrite menu_round_eq. cbv zeta. cbn [stdin stdout stderr map app].
      rewrite Hexit, Hguided, Hexpression.
      unfold menu_answers. simpl. rewrite <- app_assoc. reflexivity.
Qed.

(** X16.  At the menu, a line that is neither an exit command nor one of
    the choices 1, g, G, 2, e, E is answered with "Opção inválida. ..." and
    the menu again, "menu" and "m" included; [main] returns 0 at the first
    exit command, and at the end of the input or a Ctrl-C after an empty
    line. *)
Theorem menu_script (lines : list string) (rest : list event) (out err : list written) :
  Forall (fun line => unknown_choice B line = true) lines ->
  match rest with
  | Typed line :: _ => _is_exit B (strip line) = true
  | _ => True
  end ->
  main H B [] (Console (map Typed lines ++ rest) out err) =
  (Done 0,
   Console (tl rest)
     (out ++ header ++ menu_answers lines
      ++ menu_prompt :: match rest with
                        | Typed _ :: _ => []
                        | _ => [Text newline]
                        end)
     err).
Proof.
  intros Hlines Hrest.
  rewrite main_interactive_eq. unfold io_bind. cbn [stdin stdout stderr].
  rewrite (menu_rounds lines rest _ err Hlines).
  set (out1 := (out ++ header) ++ menu_answers lines).
  assert (Hout : forall tail, out ++ header ++ menu_answers lines ++ tail = out1 ++ tail)
    by (intros tail; unfold out1; rewrite <- !app_assoc; reflexivity).
  rewrite Hout.
  destruct rest as [ | [line | ] rest'].
  - rewrite (while_True_leave _ (menu_round H B) _
               (Console [] (out1 ++ [menu_prompt; Text newline]) err) (Done Break));
      [reflexivity | | discriminate].
    rewrite menu_round_eq. cbv zeta. cbn [stdin stdout stderr].
    rewrite <- app_assoc. reflexivity.
  - rewrite (while_True_leave _ (menu_round H B) _
               (Console rest' (out1 ++ [menu_prompt]) err) (Done Break));
      [reflexivity | | discriminate].
    rewrite menu_round_eq. cbv zeta. cbn [stdin stdout stderr]. rewrite Hrest.
    reflexivity.
  - rewrite (while_True_leave _ (menu_round H B) _
               (Console rest' (out1 ++ [menu_prompt; Text newline]) err) (Done Break));
      [reflexivity | | discriminate].
    rewrite menu_round_eq. cbv zeta. cbn [stdin stdout stderr].
    rewrite <- app_assoc. reflexivity.
Qed.

End Main.

Lemma main_with_arguments_witness :
  ["2"; "+"; "3"] <> []
  /\ main sample_host sample_builtins ["2"; "+"; "3"] (fresh [Typed "q"])
     = main sample_host sample_builtins ["2 + 3"] (fresh [Typed "q"])
  /\ stdin (snd (main sample_host sample_builtins ["2"; "+"; "3"] (fresh [Typed "q"])))
     = [Typed "q"]
  /\ fst (main sample_host sample_builtins ["2"; "+"; "3"] (fresh [Typed "q"])) = Done 0
  /\ stdout (snd (main sample_host sample_builtins ["2"; "+"; "3"] (fresh [Typed "q"])))
     = [StrOf (PyInt 5); Text newline]
  /\ stderr (snd (main sample_host sample_builtins ["2"; "+"; "3"] (fresh [Typed "q"])))
     = [].
Proof.
  assert (Hargv : ["2"; "+"; "3"] <> []) by discriminate.
  split; [exact Hargv | ].
  exact (main_with_arguments sample_host sample_builtins ["2"; "+"; "3"]
           (fresh [Typed "q"]) Hargv).
Defined.

Lemma guided_round_script_witness :
  fst (guided_round overflow_mathlib sample_builtins
         (fresh [Typed "2.5"; Typed "**"; Typed "10000"; Typed "7"]))
  = Raised (Exception OverflowError)
  /\ fst (main overflow_host sample_builtins []
            (fresh [Typed "1"; Typed "2.5"; Typed "**"; Typed "10000"; Typed "7"]))
     = Raised (Exception OverflowError).
Proof.
  destruct (guided_round_script overflow_host sample_builtins "2.5" "**" "10000"
              [Typed "7"] [] []
              (PyFloat (S754_finite false 5629499534213120 (-51))) (PyInt 10000)
              (operator_pow overflow_mathlib)
              eq_refl eq_refl eq_refl eq_refl eq_refl eq_refl) as [Hround Hmain].
  split.
  - change (mathlib overflow_host) with overflow_mathlib in Hround.
    unfold fresh. rewrite Hround. reflexivity.
  - apply (Hmain OverflowError "1"); reflexivity.
Defined.

Lemma menu_script_witness :
  main sample_host sample_builtins [] (fresh [Typed "3"; Typed "menu"; Typed " QUIT "; Typed "1"])
  = (Done 0,
     Console [Typed "1"]
       (header ++
        [menu_prompt; Text "Opção inválida. Digite 1 (Guiado), 2 (Expressão) ou 'sair'.";
         Text newline;
         menu_prompt; Text "Opção inválida. Digite 1 (Guiado), 2 (Expressão) ou 'sair'.";
         Text newline;
         menu_prompt])
       []).
Proof.
  apply (menu_script sample_host sample_builtins ["3"; "menu"]
           [Typed " QUIT "; Typed "1"] [] []).
  - repeat constructor.
  - reflexivity.
Defined.
(** ** examples.py *)

Section ExamplesFacts.

Local Open Scope list_scope.

Lemma writes_print (text : list written) : writes (print text) (text ++ [Text newline]).
Proof. intros w. reflexivity. Qed.

Lemma writes_then (c1 c2 : io unit) (t1 t2 : list written) :
  writes c1 t1 -> writes c2 t2 -> writes (c1 >> c2) (t1 ++ t2).
Proof.
  intros H1 H2 w. unfold io_bind. rewrite H1, H2. cbn [stdin stdout stderr].
  rewrite app_assoc. reflexivity.
Qed.

Lemma writes_for_each (H : Host) (B : Builtins) (width : nat)
    (items : list (string * string)) :
  (forall item v, In item items -> evaluate_expression H (fst item) = Return v ->
                  str_error B v = None) ->
  writes (for_each items (Examples.show H B width))
    (Examples.report width items
       (map (fun example => evaluate_expression H (fst example)) items)).
Proof.
  induction items as [ | item items IH]; intros Hstr.
  - intros w. simpl. rewrite app_nil_r. destruct w; reflexivity.
  - cbn [for_each Examples.report map]. apply writes_then.
    + unfold Examples.show.
      assert (Hline : (result <- evaluate_expression H (fst item) ;; str_of B result)
                      = (v <- evaluate_expression H (fst item) ;; Return (StrOf v))).
      { destruct (evaluate_expression H (fst item)) as [v | e] eqn:Hv; [ | reflexivity].
        simpl. unfold str_of. rewrite (Hstr item v (or_introl eq_refl) Hv). reflexivity. }
      rewrite Hline. apply writes_print.
    + apply IH. intros item' v Hin. apply Hstr. right. exact Hin.
Qed.

(** The evaluation of a text of the examples, by the tree CPython parses
    it to. *)
Lemma evaluate_example (H : Host) (text : string) (tree : result node) :
  Examples.parses_examples H ->
  In (text, tree) Examples.parsed ->
  evaluate_expression H text =
  match tree with
  | Return parsed => visit (mathlib H) parsed
  | Raise e => if isinstance_SyntaxError e then Raise InvalidExpression else Raise e
  end.
Proof.
  intros Hparse Hin. unfold evaluate_expression, evaluate_expression_with.
  rewrite (Hparse text tree Hin). destruct tree; reflexivity.
Qed.

Ltac example_known :=
  unfold Examples.parsed; simpl; repeat (first [left; reflexivity | right]).

Ltac evaluate_examples Hparse :=
  repeat
    match goal with
    | |- context [evaluate_expression ?H ?text] =>
        erewrite (evaluate_example H text _ Hparse) by example_known
    end.

Lemma examples_results (H : Host) :
  Examples.parses_examples H ->
  map (fun example => evaluate_expression H (fst example)) Examples.examples
    = Examples.results
  /\ map (fun example => evaluate_expression H (fst example)) Examples.error_examples
     = Examples.errors.
Proof.
  intros Hparse. unfold Examples.examples, Examples.error_examples. simpl map.
  evaluate_examples Hparse. split; reflexivity.
Qed.

(** X17.  On an interpreter that parses the texts of [examples.py] as
    CPython does, and that writes their results, the demonstration shows
    what it announces: each of the fifteen examples evaluates, to 4, 5,
    21, 5.0, 3, 2, 256, 20, 105, 5.0, 14, 8, -2, 7.5 and 9, and each of
    the four error examples fails, with "Expressão inválida", the refusal
    of a Name, the refusal of a Call, and ZeroDivisionError.  [main]
    prints one line for each, reads nothing and returns. *)
Theorem examples_report (H : Host) (B : Builtins) (w : console) :
  Examples.parses_examples H ->
  Examples.writes_results B ->
  map (fun example => evaluate_expression H (fst example)) Examples.examples
    = Examples.results
  /\ map (fun example => evaluate_expression H (fst example)) Examples.error_examples
     = Examples.errors
  /\ Examples.main H B w =
     (Done tt,
      Console (stdin w)
        (stdout w
         ++ [Text ("=== Exemplos da Calculadora Simples ===" ++ newline); Text newline]
         ++ Examples.report 40 Examples.examples Examples.results
         ++ [Text (newline ++ "=== Teste de Erros ==="); Text newline]
         ++ Examples.report 30 Examples.error_examples Examples.errors)
        (stderr w)).
Proof.
  intros Hparse Hstr. destruct (examples_results H Hparse) as [Hresults Herrors].
  split; [exact Hresults | split; [exact Herrors | ]].
  assert (Hmain : writes (Examples.main H B)
            (([Text ("=== Exemplos da Calculadora Simples ===" ++ newline)]
              ++ [Text newline])
             ++ Examples.report 40 Examples.examples
                  (map (fun example => evaluate_expression H (fst example))
                     Examples.examples)
             ++ ([Text (newline ++ "=== Teste de Erros ===")] ++ [Text newline])
             ++ Examples.report 30 Examples.error_examples
                  (map (fun example => evaluate_expression H (fst example))
                     Examples.error_examples))).
  { unfold Examples.main.
    apply writes_then; [apply writes_print | ].
    apply writes_then.
    { apply writes_for_each. intros item v Hin Hv. apply Hstr.
      rewrite <- Hresults, <- Hv.
      exact (in_map (fun example => evaluate_expression H (fst example)) _ _ Hin). }
    apply writes_then; [apply writes_print | ].
    apply writes_for_each. intros item v Hin Hv. exfalso.
    assert (Hin' := in_map (fun example => evaluate_expression H (fst example)) _ _ Hin).
    cbv beta in Hin'. rewrite Herrors, Hv in Hin'. unfold Examples.errors in Hin'.
    simpl in Hin'.
    repeat (destruct Hin' as [Hin' | Hin']; [discriminate Hin' | ]). exact Hin'. }
  rewrite (Hmain w), Hresults, Herrors. reflexivity.
Qed.

End ExamplesFacts.

Lemma examples_host_parses (M : MathLib) : Examples.parses_examples (Examples.host M).
Proof.
  intros text tree Hin. unfold Examples.parsed in Hin. simpl in Hin.
  repeat (destruct Hin as [Hin | Hin]; [injection Hin as <- <-; reflexivity | ]).
  destruct Hin.
Qed.

Lemma sample_builtins_writes_small (z : Z) :
  Z.abs z < 10 ^ 64 -> str_error sample_builtins (PyInt z) = None.
Proof.
  intros Hz.
  change (str_error sample_builtins (PyInt z)) with (sample_str_error (PyInt z)).
  unfold sample_str_error.
  assert (Hpow : 10 ^ 64 <= 10 ^ 4300) by (apply Z.pow_le_mono_r; lia).
  remember (10 ^ 64) as small. remember (10 ^ 4300) as large.
  clear Heqsmall Heqlarge.
  destruct (large <=? Z.abs z) eqn:Hle; [ | reflexivity].
  apply Z.leb_le in Hle. lia.
Qed.

Lemma sample_builtins_writes : Examples.writes_results sample_builtins.
Proof.
  intros v Hin. unfold Examples.results in Hin. simpl in Hin.
  repeat (destruct Hin as [Hin | Hin];
          [injection Hin as <-;
           first [apply sample_builtins_writes_small; reflexivity | reflexivity] | ]).
  destruct Hin.
Qed.

Lemma examples_report_witness :
  map (fun example => evaluate_expression (Examples.host sample_mathlib) (fst example))
    Examples.examples
  = Examples.results
  /\ map (fun example => evaluate_expression (Examples.host sample_mathlib) (fst example))
       Examples.error_examples
     = Examples.errors
  /\ fst (Examples.main (Examples.host sample_mathlib) sample_builtins
            (fresh [Typed "1 + 1"])) = Done tt
  /\ stdin (snd (Examples.main (Examples.host sample_mathlib) sample_builtins
                   (fresh [Typed "1 + 1"])))
     = [Typed "1 + 1"].
Proof.
  destruct (examples_report (Examples.host sample_mathlib) sample_builtins
              (fresh [Typed "1 + 1"])
              (examples_host_parses sample_mathlib) sample_builtins_writes)
    as [Hresults [Herrors Hmain]].
  split; [exact Hresults | split; [exact Herrors | ]].
  rewrite Hmain. split; reflexivity.
Defined.
